(** * grepctl: ingestion, verification and repair of the search corpus

  A shallow embedding of the ingestion, verify and repair code of the
  repository, and the properties of its specification proved or refuted
  on it.

  Python strings are modelled as [string], one character per code point
  (code points below 256); the remote services (object store, BigQuery
  jobs, Vision API, clock) are inputs of the functions that call them. *)

From Stdlib Require Import List String Ascii ZArith Lia Bool Arith.
From Stdlib Require Import Permutation Sorted.
From Stdlib Require DecimalString HexadecimalString.
Import ListNotations.
Open Scope string_scope.
Set Warnings "-register-all,-abstract-large-number".

(** ** Python built-ins used by the scripts *)

Module Py.

(** Outcome of a call that may raise: the value, or the exception text. *)
Inductive result (A : Type) : Type :=
| Ok (a : A)
| Raise (msg : string).
Arguments Ok {A} a.
Arguments Raise {A} msg.

Definition bind {A B} (r : result A) (k : A -> result B) : result B :=
  match r with
  | Ok a => k a
  | Raise m => Raise m
  end.

Definition quote : string := String (ascii_of_nat 34) EmptyString.
Definition nl : string := String (ascii_of_nat 10) EmptyString.

(** [len(s)] *)
Definition len (s : string) : nat := String.length s.

(** [s[:n]] *)
Definition slice_to (n : nat) (s : string) : string := substring 0 n s.

(** [sep.join(parts)] *)
Definition join (sep : string) (parts : list string) : string :=
  String.concat sep parts.

(** [s.split(c)] for a one-character separator. *)
Fixpoint split (c : ascii) (s : string) : list string :=
  match s with
  | EmptyString => [EmptyString]
  | String a rest =>
      if Ascii.eqb a c then EmptyString :: split c rest
      else match split c rest with
           | [] => [String a EmptyString]
           | p :: ps => String a p :: ps
           end
  end.

(** [l[-1]] on the result of a split (never empty). *)
Definition last_part (l : list string) : string := List.last l EmptyString.

(** [l[i]], raising IndexError out of range. *)
Definition index {A} (l : list A) (i : nat) : result A :=
  match nth_error l i with
  | Some a => Ok a
  | None => Raise "list index out of range"
  end.

(** [str(n)] for a non-negative int. *)
Definition str_nat (n : nat) : string :=
  DecimalString.NilEmpty.string_of_uint (Nat.to_uint n).

(** [str(z)] for an int. *)
Definition str_int (z : Z) : string :=
  DecimalString.NilEmpty.string_of_int (Z.to_int z).

(** Truthiness of an optional string ([None] and the empty string are
    falsy). *)
Definition truthy (o : option string) : bool :=
  match o with
  | Some s => negb (s =? EmptyString)
  | None => false
  end.

(** [x in l] for strings. *)
Definition mem (x : string) (l : list string) : bool :=
  existsb (String.eqb x) l.

(** [sub in s] *)
Fixpoint contains (sub s : string) : bool :=
  String.prefix sub s
  || match s with
     | EmptyString => false
     | String _ rest => contains sub rest
     end.

(** [format(z, '02x')] *)
Definition format_02x (z : Z) : string :=
  let s := HexadecimalString.NilEmpty.string_of_int (Z.to_hex_int z) in
  if Nat.ltb (String.length s) 2 then "0" ++ s else s.

(** [c.lower()] on a code point below 256. *)
Definition lower_char (c : ascii) : ascii :=
  let n := nat_of_ascii c in
  if (Nat.leb 65 n && Nat.leb n 90)
     || (Nat.leb 192 n && Nat.leb n 222 && negb (Nat.eqb n 215))
  then ascii_of_nat (n + 32) else c.

(** [s * n] *)
Fixpoint times (s : string) (n : nat) : string :=
  match n with
  | O => EmptyString
  | S k => s ++ times s k
  end.

(** [s.lower()] *)
Fixpoint lower (s : string) : string :=
  match s with
  | EmptyString => EmptyString
  | String c rest => String (lower_char c) (lower rest)
  end.

(** [s.replace(a, b)] for one-character [a]. *)
Fixpoint replace (a : ascii) (b : string) (s : string) : string :=
  match s with
  | EmptyString => EmptyString
  | String c rest =>
      if Ascii.eqb c a then b ++ replace a b rest else String c (replace a b rest)
  end.

(** [c.isspace()] on a code point below 256. *)
Definition is_space (c : ascii) : bool :=
  let n := nat_of_ascii c in
  (Nat.leb 9 n && Nat.leb n 13) || (Nat.leb 28 n && Nat.leb n 32)
  || Nat.eqb n 133 || Nat.eqb n 160.

Fixpoint lstrip (s : string) : string :=
  match s with
  | EmptyString => EmptyString
  | String c rest => if is_space c then lstrip rest else s
  end.

Fixpoint rstrip (s : string) : string :=
  match s with
  | EmptyString => EmptyString
  | String c rest =>
      match rstrip rest with
      | EmptyString => if is_space c then EmptyString else String c EmptyString
      | kept => String c kept
      end
  end.

(** [s.strip()] *)
Definition strip (s : string) : string := rstrip (lstrip s).

(** A string goes into a list kept in ascending order without
    repetition. *)
Fixpoint insert_distinct (x : string) (l : list string) : list string :=
  match l with
  | [] => [x]
  | y :: rest =>
      match String.compare x y with
      | Lt => x :: l
      | Eq => l
      | Gt => y :: insert_distinct x rest
      end
  end.

(** [sorted(set(l))]; also SQL [SELECT DISTINCT x ... ORDER BY x]. *)
Definition sorted_distinct (l : list string) : list string :=
  fold_right insert_distinct [] l.

Fixpoint insert_sorted (x : string) (l : list string) : list string :=
  match l with
  | [] => [x]
  | y :: rest => if String.leb x y then x :: l else y :: insert_sorted x rest
  end.

(** [sorted(l)]; also SQL [SELECT x ... ORDER BY x]. *)
Definition sorted (l : list string) : list string :=
  fold_right insert_sorted [] l.

(** The order in which the futures of a thread pool complete: each pick
    takes the future at that position (modulo their number) among those
    still running; the futures left when the picks run out complete in
    the order of submission. *)
Fixpoint as_completed {A} (picks : list nat) (futures : list A) : list A :=
  match picks with
  | [] => futures
  | p :: later =>
      match futures with
      | [] => []
      | _ =>
          let i := Nat.modulo p (List.length futures) in
          match nth_error futures i with
          | Some f => f :: as_completed later
                             (List.app (firstn i futures) (skipn (S i) futures))
          | None => futures
          end
      end
  end.

(** [s.endswith(suffix)] *)
Definition endswith (suffix s : string) : bool :=
  Nat.leb (String.length suffix) (String.length s)
  && (substring (String.length s - String.length suffix)
                (String.length suffix) s =? suffix).

(** A list comprehension whose element expression may raise: the first
    exception ends it. *)
Fixpoint traverse {A B} (f : A -> result B) (l : list A) : result (list B) :=
  match l with
  | [] => Ok []
  | x :: rest =>
      bind (f x) (fun y => bind (traverse f rest) (fun ys => Ok (y :: ys)))
  end.

End Py.

(** ** The corpus store *)

Module Store.

(** A FLOAT64 element of an embedding, as its 64-bit pattern. *)
Definition float64 := Z.

(** A row of [documents] / [search_corpus].  Only the columns that the
    modelled statements read or write are kept: [doc_id], [created_at],
    [author], [channel], [mime_type], [meta] and the chunk columns are
    carried untouched by every statement below. *)
Record record : Type := mk_record {
  uri : string;
  modality : string;
  source : option string;
  text_content : option string;
  embedding : option (list float64)
}.

Definition table := list record.

Definition set_embedding (e : option (list float64)) (r : record) : record :=
  mk_record (uri r) (modality r) (source r) (text_content r) e.

Definition set_text_content (t : option string) (r : record) : record :=
  mk_record (uri r) (modality r) (source r) t (embedding r).

(** SQL [ARRAY_LENGTH]: NULL on a NULL array. *)
Definition array_length (e : option (list float64)) : option nat :=
  option_map (@List.length float64) e.

(** SQL [CASE WHEN c THEN 1 ELSE 0 END] on a three-valued condition. *)
Definition case_when (c : option bool) : nat :=
  match c with
  | Some true => 1
  | _ => 0
  end.

(** SQL [x = n] on a nullable integer. *)
Definition sql_eq_nat (x : option nat) (n : nat) : option bool :=
  option_map (fun v => Nat.eqb v n) x.

(** SQL [WHERE c]: a row is kept only when the condition is TRUE. *)
Definition sql_true (c : option bool) : bool :=
  match c with
  | Some true => true
  | _ => false
  end.

(** [UPDATE t SET text_content = @text WHERE uri = @uri] *)
Definition update_text_where_uri (u text : string) (t : table) : table :=
  map (fun r => if uri r =? u then set_text_content (Some text) r else r) t.

End Store.

(** ** grepctl.py: index verify and fix stuck *)

Module Grepctl.
Import Store.

(** One output row of the health query. *)
Record verify_row : Type := mk_verify_row {
  v_modality : string;
  total_docs : nat;
  valid_embeddings : nat;
  null_embeddings : nat;
  empty_embeddings : nat
}.

(** The aggregate of a group that holds the single record [r]. *)
Definition row_of (r : record) : verify_row :=
  mk_verify_row (modality r) 1
    (case_when (sql_eq_nat (array_length (embedding r)) 768))
    (case_when (Some (match embedding r with None => true | Some _ => false end)))
    (case_when (sql_eq_nat (array_length (embedding r)) 0)).

(** COUNT and SUM accumulate one more record into its group. *)
Definition accumulate (g : verify_row) (r : record) : verify_row :=
  mk_verify_row (v_modality g)
    (total_docs g + total_docs (row_of r))
    (valid_embeddings g + valid_embeddings (row_of r))
    (null_embeddings g + null_embeddings (row_of r))
    (empty_embeddings g + empty_embeddings (row_of r)).

(** GROUP BY modality ... ORDER BY modality: the groups are kept in
    ascending order of their key while the table is scanned. *)
Fixpoint group_add (r : record) (groups : list verify_row) : list verify_row :=
  match groups with
  | [] => [row_of r]
  | g :: rest =>
      match String.compare (modality r) (v_modality g) with
      | Lt => row_of r :: g :: rest
      | Eq => accumulate g r :: rest
      | Gt => g :: group_add r rest
      end
  end.

Definition verify_query (corpus : table) : list verify_row :=
  fold_left (fun groups r => group_add r groups) corpus [].

(** [index_verify]: one printed table line per result row, the modality
    followed by the four counts. *)
Definition index_verify (corpus : table) : list (list string) :=
  map (fun g => [v_modality g; Py.str_nat (total_docs g);
                 Py.str_nat (valid_embeddings g);
                 Py.str_nat (null_embeddings g);
                 Py.str_nat (empty_embeddings g)])
      (verify_query corpus).

(** A character that BigQuery reads, inside a single-quoted string
    literal, as itself: not the quote, not the backslash, no control
    character. *)
Definition plain_char (c : ascii) : bool :=
  let n := nat_of_ascii c in
  Nat.leb 32 n && negb (Nat.eqb n 39) && negb (Nat.eqb n 92).

Fixpoint plain_word (s : string) : bool :=
  match s with
  | EmptyString => true
  | String c rest => plain_char c && plain_word rest
  end.

(** A value of the [--modality] option that is read as the string it is
    when [fix_stuck] writes it between the quotes of [modality = '...']. *)
Definition plain_modality (m : option string) : bool :=
  match m with
  | Some s => plain_word s
  | None => true
  end.

(** The text that the f-string of [fix_stuck] puts after
    [WHERE ARRAY_LENGTH(embedding) = 0]: the option value is written
    between the quotes as it is, without escaping. *)
Definition modality_filter (m : option string) : string :=
  if Py.truthy m
  then match m with
       | Some s => "AND modality = '" ++ s ++ "'"
       | None => EmptyString
       end
  else EmptyString.

(** The WHERE clause of the UPDATE of [fix_stuck] for a plain option
    value: [ARRAY_LENGTH(embedding) = 0], and [modality = '<m>'] when
    the option is truthy. *)
Definition stuck_where (m : option string) (r : record) : bool :=
  sql_true (sql_eq_nat (array_length (embedding r)) 0)
  && (if Py.truthy m
      then match m with Some s => modality r =? s | None => true end
      else true).

(** [UPDATE search_corpus SET embedding = NULL WHERE ...], by the rows
    that the WHERE clause selects. *)
Definition clear_where (selected : record -> bool) (corpus : table) : table :=
  map (fun r => if selected r then set_embedding None r else r) corpus.

Definition clear_stuck (m : option string) (corpus : table) : table :=
  clear_where (stuck_where m) corpus.

Definition num_dml_affected_rows (m : option string) (corpus : table) : nat :=
  List.length (filter (stuck_where m) corpus).

(** What [fix_stuck] does to the outside, in program order. *)
Inductive event : Type :=
| UpdateJob (m : option string)
| RunScript (name : string).

(** [subprocess.run] of the repair script: the process exits, with code
    0 or not, or it is not started and the call raises (no [uv] on the
    path). *)
Inductive launch_outcome : Type :=
| Exited (code_zero : bool)
| LaunchRaised (e : string).

(** The surroundings of one [fix_stuck] call: the exception of the
    UPDATE job, if it raises; what BigQuery makes of the statement when
    the option value is not a plain word and so changes the statement
    itself (the exception, or the table after it and
    [num_dml_affected_rows], which is [None] for a script); whether the
    repair script is on disk and under which path; how its launch ends
    and what the script does to the corpus when it runs. *)
Record fix_env : Type := mk_fix_env {
  update_error : option string;
  other_statement : string -> table -> Py.result (table * option nat);
  script_exists : bool;
  script_path : string;
  launch : launch_outcome;
  fix_embeddings : table -> table
}.

Record fix_state : Type := mk_fix_state {
  corpus : table;
  trace : list event;
  console : list string
}.

Definition fix_embeddings_script : string :=
  "src/grepctl/scripts/fix_embeddings.py".

(** [GrepCtl.run_python_script] with [wait=True], through
    [GrepCtl.run_command] with [check=False]: the state after it and its
    return value, or the exception of [subprocess.run]. *)
Definition run_python_script (env : fix_env) (name : string)
           (st : fix_state) : fix_state * Py.result bool :=
  if script_exists env
  then let cmd := ["uv"; "run"; "python"; script_path env] in
       let running := List.app (console st) ["Running: " ++ Py.join " " cmd] in
       match launch env with
       | LaunchRaised e =>
           (mk_fix_state (corpus st) (trace st) running, Py.Raise e)
       | Exited code_zero =>
           (mk_fix_state (fix_embeddings env (corpus st))
                         (List.app (trace st) [RunScript name])
                         (List.app running
                            [if code_zero
                             then "âœ“ " ++ name ++ " completed successfully"
                             else "âœ— " ++ name ++ " failed"]),
            Py.Ok code_zero)
       end
  else (mk_fix_state (corpus st) (trace st)
                     (List.app (console st)
                        ["Script " ++ name ++ " not found, skipping"]),
        Py.Ok false).

(** The UPDATE job of [fix_stuck]: for a plain option value the
    statement as modelled, otherwise what BigQuery makes of it. *)
Definition update_job (env : fix_env) (m : option string) (corpus0 : table)
  : Py.result (table * option nat) :=
  if plain_modality m
  then match update_error env with
       | Some e => Py.Raise e
       | None => Py.Ok (clear_stuck m corpus0,
                        Some (num_dml_affected_rows m corpus0))
       end
  else other_statement env (modality_filter m) corpus0.

(** [fix_stuck]: the UPDATE job, then the repair script; the state when
    the command ends and the exception that ends it, if any.  A failing
    job raises before the script is reached; a launch that raises does
    so after the UPDATE. *)
Definition fix_stuck (env : fix_env) (m : option string)
           (st : fix_state) : fix_state * option string :=
  let st0 := mk_fix_state (corpus st) (trace st)
               (List.app (console st)
                  ["Fixing stuck processing"
                   ++ (if Py.truthy m
                       then match m with Some s => " for " ++ s | None => EmptyString end
                       else EmptyString) ++ "..."]) in
  match update_job env m (corpus st0) with
  | Py.Raise e => (st0, Some e)
  | Py.Ok (cleared, affected) =>
      let trace1 := List.app (trace st0) [UpdateJob m] in
      match affected with
      | None =>
          (mk_fix_state cleared trace1 (console st0),
           Some "'>' not supported between instances of 'NoneType' and 'int'")
      | Some n =>
          let st1 := mk_fix_state cleared trace1
                       (if Nat.ltb 0 n
                        then List.app (console st0)
                               ["âœ“ Reset " ++ Py.str_nat n ++ " stuck embeddings"]
                        else console st0) in
          match run_python_script env fix_embeddings_script st1 with
          | (st2, Py.Ok _) => (st2, None)
          | (st2, Py.Raise e) => (st2, Some e)
          end
      end
  end.

(** The messages that [fix_validate] appends to [checks], one
    constructor per message, with the number it prints. *)
Inductive check : Type :=
| DuplicateDocuments (n : nat)
| NoDuplicateDocuments
| NoContent (n : nat)
| AllHaveContent.

(** [fix_validate]: the first query compares the number of rows with
    [COUNT(DISTINCT uri)], the second counts the rows
    [WHERE text_content IS NULL OR text_content = '']. *)
Definition fix_validate (corpus : table) : list check :=
  let total := List.length corpus in
  let unique_docs := List.length (Py.sorted_distinct (map uri corpus)) in
  let missing_content :=
    List.length (filter (fun r => match text_content r with
                                  | None => true
                                  | Some t => t =? EmptyString
                                  end) corpus) in
  [if negb (Nat.eqb total unique_docs)
   then DuplicateDocuments (total - unique_docs)
   else NoDuplicateDocuments;
   if Nat.ltb 0 missing_content
   then NoContent missing_content
   else AllHaveContent].

End Grepctl.

(** ** Values of the [json] module and their renderings *)

Module Json.

(** A Python float, by what the renderings need of it: its [repr] when
    finite. *)
Inductive pyfloat : Type :=
| FFinite (repr : string)
| FNaN
| FInf
| FNegInf.

(** The result of [json.loads]. *)
Inductive json : Type :=
| JNull
| JBool (b : bool)
| JInt (z : Z)
| JFloat (f : pyfloat)
| JStr (s : string)
| JList (items : list json)
| JDict (members : list (string * json)).

(** [type(x).__name__] *)
Definition type_name (j : json) : string :=
  match j with
  | JNull => "NoneType"
  | JBool _ => "bool"
  | JInt _ => "int"
  | JFloat _ => "float"
  | JStr _ => "str"
  | JList _ => "list"
  | JDict _ => "dict"
  end.

Definition hex_digit (n : nat) : ascii :=
  ascii_of_nat (if Nat.ltb n 10 then 48 + n else 87 + n).

(** Two lower-case hexadecimal digits of a code point below 256. *)
Definition hex2 (c : ascii) : string :=
  let n := nat_of_ascii c in
  String (hex_digit (n / 16)) (String (hex_digit (n mod 16)) EmptyString).

Definition char (n : nat) : string := String (ascii_of_nat n) EmptyString.
Definition backslash : string := char 92.

(** [repr(float)] *)
Definition float_repr (f : pyfloat) : string :=
  match f with
  | FFinite r => r
  | FNaN => "nan"
  | FInf => "inf"
  | FNegInf => "-inf"
  end.

(** How [json.dumps] writes a float. *)
Definition float_json (f : pyfloat) : string :=
  match f with
  | FFinite r => r
  | FNaN => "NaN"
  | FInf => "Infinity"
  | FNegInf => "-Infinity"
  end.

(** One character of a string under [json.dumps] (ensure_ascii). *)
Definition escape_json_char (c : ascii) : string :=
  let n := nat_of_ascii c in
  if Nat.eqb n 34 then backslash ++ Py.quote
  else if Nat.eqb n 92 then backslash ++ backslash
  else if Nat.eqb n 10 then backslash ++ "n"
  else if Nat.eqb n 13 then backslash ++ "r"
  else if Nat.eqb n 9 then backslash ++ "t"
  else if Nat.eqb n 8 then backslash ++ "b"
  else if Nat.eqb n 12 then backslash ++ "f"
  else if Nat.leb 32 n && Nat.leb n 126 then String c EmptyString
  else backslash ++ "u00" ++ hex2 c.

Fixpoint escape_json (s : string) : string :=
  match s with
  | EmptyString => EmptyString
  | String c rest => escape_json_char c ++ escape_json rest
  end.

Definition dumps_str (s : string) : string :=
  Py.quote ++ escape_json s ++ Py.quote.

Fixpoint contains_char (c : ascii) (s : string) : bool :=
  match s with
  | EmptyString => false
  | String a rest => Ascii.eqb a c || contains_char c rest
  end.

(** One character of a string under [repr], inside the quote [q]. *)
Definition escape_repr_char (q : ascii) (c : ascii) : string :=
  let n := nat_of_ascii c in
  if Ascii.eqb c q then backslash ++ String c EmptyString
  else if Nat.eqb n 92 then backslash ++ backslash
  else if Nat.eqb n 10 then backslash ++ "n"
  else if Nat.eqb n 13 then backslash ++ "r"
  else if Nat.eqb n 9 then backslash ++ "t"
  else if Nat.ltb n 32 || (Nat.leb 127 n && Nat.leb n 160) || Nat.eqb n 173
       then backslash ++ "x" ++ hex2 c
  else String c EmptyString.

Fixpoint escape_repr (q : ascii) (s : string) : string :=
  match s with
  | EmptyString => EmptyString
  | String c rest => escape_repr_char q c ++ escape_repr q rest
  end.

(** [repr(s)] of a string: single quotes, unless the string holds a
    single quote and no double quote. *)
Definition repr_str (s : string) : string :=
  let single := ascii_of_nat 39 in
  let double := ascii_of_nat 34 in
  let q := if contains_char single s && negb (contains_char double s)
           then double else single in
  String q (escape_repr q s ++ String q EmptyString).

(** [repr(x)] *)
Fixpoint repr (j : json) : string :=
  match j with
  | JNull => "None"
  | JBool true => "True"
  | JBool false => "False"
  | JInt z => Py.str_int z
  | JFloat f => float_repr f
  | JStr s => repr_str s
  | JList items => "[" ++ Py.join ", " (map repr items) ++ "]"
  | JDict members =>
      "{" ++ Py.join ", "
               (map (fun kv => repr_str (fst kv) ++ ": " ++ repr (snd kv)) members)
          ++ "}"
  end.

(** [str(x)] *)
Definition str (j : json) : string :=
  match j with
  | JStr s => s
  | _ => repr j
  end.

(** [json.dumps(x)] with the default separators. *)
Fixpoint dumps (j : json) : string :=
  match j with
  | JNull => "null"
  | JBool true => "true"
  | JBool false => "false"
  | JInt z => Py.str_int z
  | JFloat f => float_json f
  | JStr s => dumps_str s
  | JList [] => "[]"
  | JList items => "[" ++ Py.join ", " (map dumps items) ++ "]"
  | JDict [] => "{}"
  | JDict members =>
      "{" ++ Py.join ", "
               (map (fun kv => dumps_str (fst kv) ++ ": " ++ dumps (snd kv)) members)
          ++ "}"
  end.

Fixpoint spaces (n : nat) : string :=
  match n with
  | O => EmptyString
  | S k => String (ascii_of_nat 32) (spaces k)
  end.

Definition newline_indent (indent level : nat) : string :=
  Py.nl ++ spaces (indent * level).

(** [json.dumps(x, indent=indent)] at nesting depth [level]. *)
Fixpoint dumps_indent (indent level : nat) (j : json) : string :=
  match j with
  | JNull => "null"
  | JBool true => "true"
  | JBool false => "false"
  | JInt z => Py.str_int z
  | JFloat f => float_json f
  | JStr s => dumps_str s
  | JList [] => "[]"
  | JList items =>
      "[" ++ newline_indent indent (S level)
          ++ Py.join ("," ++ newline_indent indent (S level))
                     (map (dumps_indent indent (S level)) items)
          ++ newline_indent indent level ++ "]"
  | JDict [] => "{}"
  | JDict members =>
      "{" ++ newline_indent indent (S level)
          ++ Py.join ("," ++ newline_indent indent (S level))
                     (map (fun kv => dumps_str (fst kv) ++ ": "
                                       ++ dumps_indent indent (S level) (snd kv))
                          members)
          ++ newline_indent indent level ++ "}"
  end.

End Json.

(** ** ingest_json_csv.py *)

Module IngestJsonCsv.
Import Store Json.

(** A cell of a row of [csv.DictReader]: a field, the [restval] of a
    short row, or the surplus fields of a long row. *)
Inductive cell : Type :=
| CellStr (s : string)
| CellNone
| CellList (fields : list string).

(** A row: the dict from field name ([None] is the [restkey]) to cell,
    in insertion order. *)
Definition csv_row := list (option string * cell).

(** What the script gets from the libraries and services it calls. *)
Record services : Type := mk_services {
  (** [bucket.blob(name).download_as_text()] *)
  download_as_text : string -> string -> Py.result string;
  (** [json.loads] *)
  json_loads : string -> Py.result json;
  (** [csv.DictReader]: [fieldnames] and [list(reader)] *)
  dict_reader : string -> Py.result (option (list string) * list csv_row);
  (** whether [float(s)] returns *)
  float_parses : string -> bool
}.

Definition cell_str (c : cell) : string :=
  match c with
  | CellStr s => s
  | CellNone => "None"
  | CellList fields => "[" ++ Py.join ", " (map repr_str fields) ++ "]"
  end.

Definition cell_truthy (c : cell) : bool :=
  match c with
  | CellStr s => negb (s =? EmptyString)
  | CellNone => false
  | CellList fields => match fields with [] => false | _ => true end
  end.

Definition key_eqb (k1 k2 : option string) : bool :=
  match k1, k2 with
  | Some a, Some b => a =? b
  | None, None => true
  | _, _ => false
  end.

(** [row.get(header)] *)
Fixpoint row_get (row : csv_row) (header : string) : option cell :=
  match row with
  | [] => None
  | (k, v) :: rest => if key_eqb k (Some header) then Some v else row_get rest header
  end.

Definition get_truthy (row : csv_row) (header : string) : bool :=
  match row_get row header with
  | Some c => cell_truthy c
  | None => false
  end.

Definition key_str (k : option string) : string :=
  match k with
  | Some s => s
  | None => "None"
  end.

(** [get_json_structure(obj, max_depth, current_depth)] *)
Definition get_json_structure (obj : json) (max_depth current_depth : nat) : string :=
  if Nat.leb max_depth current_depth then "..."
  else match obj with
       | JDict members =>
           match members with
           | [] => "{}"
           | _ =>
               let keys := firstn 5 (map fst members) in
               let keys := if Nat.ltb 5 (List.length members)
                           then List.app keys ["..."] else keys in
               "{" ++ Py.join ", " keys ++ "}"
           end
       | JList items =>
           match items with
           | [] => "[]"
           | first :: _ =>
               "[" ++ type_name first ++ "...] ("
                   ++ Py.str_nat (List.length items) ++ " items)"
           end
       | _ => type_name obj
       end.

(** The body of the loop over [data.items()]. *)
Definition sample_content_line (kv : string * json) : list string :=
  let (key, value) := kv in
  match value with
  | JStr _ | JInt _ | JFloat _ | JBool _ =>
      ["  " ++ key ++ ": " ++ Py.slice_to 100 (str value)]
  | JList ((first :: _) as items) =>
      ["  " ++ key ++ ": [" ++ type_name first ++ "...] ("
            ++ Py.str_nat (List.length items) ++ " items)"]
  | JDict members =>
      ["  " ++ key ++ ": {...} (" ++ Py.str_nat (List.length members) ++ " keys)"]
  | _ => []
  end.

(** The body of the loop over [enumerate(data[:5])]. *)
Definition sample_item_line (i : nat) (item : json) : string :=
  match item with
  | JDict members =>
      "  [" ++ Py.str_nat i ++ "]: {"
            ++ Py.join ", " (firstn 5 (map fst members)) ++ "...}"
  | _ => "  [" ++ Py.str_nat i ++ "]: " ++ Py.slice_to 100 (str item)
  end.

Fixpoint enumerate_from {A} (i : nat) (l : list A) : list (nat * A) :=
  match l with
  | [] => []
  | x :: rest => (i, x) :: enumerate_from (S i) rest
  end.

Definition truncated_marker : string := Py.nl ++ "... [truncated]".

(** The JSON dump kept for detailed search. *)
Definition json_str (data : json) : string :=
  let s := Py.slice_to 5000 (dumps_indent 2 0 data) in
  if Nat.ltb (Py.len s) (Py.len (dumps data)) then s ++ truncated_marker else s.

(** [content_parts] of [process_json_file] once the file is parsed. *)
Definition json_content_parts (uri : string) (data : json) (now : string)
  : list string :=
  let filename := Py.last_part (Py.split "/" uri) in
  let header := ["JSON File: " ++ filename;
                 "Location: " ++ uri;
                 "Structure: " ++ get_json_structure data 3 0;
                 EmptyString] in
  let body :=
    match data with
    | JDict members =>
        List.app
          ["Root keys: " ++ Py.join ", " (firstn 10 (map fst members));
           Py.nl ++ "Sample content:"]
          (flat_map sample_content_line (firstn 20 members))
    | JList items =>
        ("Array with " ++ Py.str_nat (List.length items) ++ " items")
        :: match items with
           | [] => []
           | first :: _ =>
               List.app
                 ["Item type: " ++ type_name first;
                  Py.nl ++ "Sample items:"]
                 (map (fun p => sample_item_line (fst p) (snd p))
                      (enumerate_from 0 (firstn 5 items)))
           end
    | _ => []
    end in
  List.app header
    (List.app body
       [Py.nl ++ "JSON Data:" ++ Py.nl ++ json_str data;
        EmptyString;
        "Analysis: JSON content extracted for semantic search";
        "Indexed: " ++ now]).

(** [process_json_file(uri)], run when the clock reads [now]: the text,
    or [None] with the logged error. *)
Definition process_json_file (svc : services) (now : string) (uri : string)
  : option string * list string :=
  let attempt :=
    Py.bind (Py.index (Py.split "/" uri) 2) (fun bucket_name =>
    let blob_name := Py.join "/" (skipn 3 (Py.split "/" uri)) in
    Py.bind (download_as_text svc bucket_name blob_name) (fun json_content =>
    Py.bind (json_loads svc json_content) (fun data =>
    Py.Ok (Py.join Py.nl (json_content_parts uri data now))))) in
  match attempt with
  | Py.Ok text => (Some text, [])
  | Py.Raise e => (None, ["Failed to process JSON " ++ uri ++ ": " ++ e])
  end.

(** The column analysis line of one header. *)
Definition column_analysis_line (rows : list csv_row) (header : string)
  : list string :=
  let sample_values :=
    map (fun row => Py.slice_to 50
                      (match row_get row header with
                       | Some c => cell_str c
                       | None => EmptyString
                       end))
        (filter (fun row => get_truthy row header) (firstn 5 rows)) in
  match sample_values with
  | [] => []
  | _ => ["  " ++ header ++ ": " ++ Py.join ", " (firstn 3 sample_values)]
  end.

Definition sample_row_line (i : nat) (row : csv_row) : string :=
  "  Row " ++ Py.str_nat (i + 1) ++ ": "
    ++ Py.join " | "
         (map (fun kv => key_str (fst kv) ++ ": " ++ Py.slice_to 30 (cell_str (snd kv)))
              (firstn 5 row)).

(** Whether [float(row.get(header, 0))] returns for a truthy cell. *)
Definition cell_float_ok (svc : services) (c : option cell) : bool :=
  match c with
  | Some (CellStr s) => float_parses svc s
  | _ => false
  end.

(** The try block around one header of the numeric scan. *)
Definition is_numeric_col (svc : services) (rows : list csv_row)
           (header : string) : bool :=
  let cells := filter (fun row => get_truthy row header) (firstn 100 rows) in
  forallb (fun row => cell_float_ok svc (row_get row header)) cells
  && match cells with [] => false | _ => true end.

(** The raw preview kept for search. *)
Definition csv_preview (csv_content : string) : string :=
  let s := Py.slice_to 3000 csv_content in
  if Nat.ltb (Py.len s) (Py.len csv_content) then s ++ truncated_marker else s.

(** [content_parts] of [process_csv_file] once the file is read. *)
Definition csv_content_parts (svc : services) (uri csv_content : string)
           (headers : option (list string)) (rows : list csv_row)
           (now : string) : Py.result (list string) :=
  let filename := Py.last_part (Py.split "/" uri) in
  let head := ["CSV File: " ++ filename; "Location: " ++ uri; EmptyString] in
  let columns :=
    match headers with
    | Some ((_ :: _) as hs) =>
        ["Columns (" ++ Py.str_nat (List.length hs) ++ "): " ++ Py.join ", " hs]
    | _ => []
    end in
  let count := ["Rows: " ++ Py.str_nat (List.length rows)] in
  let tail := [Py.nl ++ "CSV Preview:" ++ Py.nl ++ csv_preview csv_content;
               EmptyString;
               "Analysis: CSV content extracted for semantic search";
               "Indexed: " ++ now] in
  match rows with
  | [] => Py.Ok (List.app head (List.app columns (List.app count tail)))
  | _ =>
      match headers with
      | None => Py.Raise "'NoneType' object is not subscriptable"
      | Some hs =>
          let analysis :=
            (Py.nl ++ "Column Analysis:")
            :: flat_map (column_analysis_line rows) (firstn 10 hs) in
          let samples :=
            (Py.nl ++ "Sample Data (first 10 rows):")
            :: map (fun p => sample_row_line (fst p) (snd p))
                   (enumerate_from 0 (firstn 10 rows)) in
          let numeric_cols := filter (is_numeric_col svc rows) hs in
          let numeric :=
            match numeric_cols with
            | [] => []
            | _ => [Py.nl ++ "Numeric columns found: "
                          ++ Py.join ", " (firstn 10 numeric_cols)]
            end in
          Py.Ok (List.app head (List.app columns (List.app count
                  (List.app analysis (List.app samples (List.app numeric tail))))))
      end
  end.

(** [process_csv_file(uri)], run when the clock reads [now]. *)
Definition process_csv_file (svc : services) (now : string) (uri : string)
  : option string * list string :=
  let attempt :=
    Py.bind (Py.index (Py.split "/" uri) 2) (fun bucket_name =>
    let blob_name := Py.join "/" (skipn 3 (Py.split "/" uri)) in
    Py.bind (download_as_text svc bucket_name blob_name) (fun csv_content =>
    Py.bind (dict_reader svc csv_content) (fun parsed =>
    Py.bind (csv_content_parts svc uri csv_content (fst parsed) (snd parsed) now)
            (fun parts => Py.Ok (Py.join Py.nl parts))))) in
  match attempt with
  | Py.Ok text => (Some text, [])
  | Py.Raise e => (None, ["Failed to process CSV " ++ uri ++ ": " ++ e])
  end.

(** The result of [insert_rows_json] (or of [get_table] before it): it
    returns no error and every row is stored, it returns errors, or it
    raises.  In the last two cases BigQuery may have stored some of the
    rows all the same: [stored] flags them, in the order of the rows (a
    row without a flag is not stored). *)
Inductive insert_outcome : Type :=
| Inserted
| Rejected (errors : string) (stored : list bool)
| InsertRaised (msg : string) (stored : list bool).

Fixpoint stored_rows (stored : list bool) (rows : list record) : list record :=
  match stored, rows with
  | flag :: flags, row :: rest =>
      if flag then row :: stored_rows flags rest else stored_rows flags rest
  | _, _ => []
  end.

(** The surroundings of one run of [main]: the rows of the two object
    tables, the services, the clock reading when a uri is processed,
    the completion order of the two thread pools and the outcome of the
    insertion. *)
Record run_env : Type := mk_run_env {
  svc : services;
  obj_json : list string;
  obj_csv : list string;
  clock : string -> string;
  json_picks : list nat;
  csv_picks : list nat;
  insert_rows_json : list record -> insert_outcome
}.

(** [insert_to_bigquery(documents)]: the table after it, the number it
    returns ([None] when it raises), its log, and the exception that
    left it, if any. *)
Definition insert_to_bigquery (env : run_env) (documents : list record)
           (corpus : table) : table * option nat * list string * option string :=
  match documents with
  | [] => (corpus, Some 0, [], None)
  | _ =>
      let rows_to_insert :=
        map (fun doc => mk_record (uri doc) (modality doc) None
                                  (text_content doc) None) documents in
      match insert_rows_json env rows_to_insert with
      | Inserted =>
          (List.app corpus rows_to_insert,
           Some (List.length rows_to_insert), [], None)
      | Rejected errors stored =>
          (List.app corpus (stored_rows stored rows_to_insert), Some 0,
           ["Failed to insert rows: " ++ errors], None)
      | InsertRaised msg stored =>
          (List.app corpus (stored_rows stored rows_to_insert), None, [],
           Some msg)
      end
  end.

(** [SELECT uri FROM search_corpus WHERE modality IN ('json', 'csv')] *)
Definition existing_uris (corpus : table) : list string :=
  map uri (filter (fun r => (modality r =? "json") || (modality r =? "csv")) corpus).

(** [[row.uri for row in results if row.uri not in existing_uris]] over
    [SELECT DISTINCT uri FROM obj ORDER BY uri]. *)
Definition new_uris (obj : list string) (existing : list string) : list string :=
  filter (fun u => negb (Py.mem u existing)) (Py.sorted_distinct obj).

(** What one thread pool leaves behind: the uris handed to the
    adapter, the documents collected and the log. *)
Record batch : Type := mk_batch {
  calls : list string;
  documents : list record;
  batch_log : list string
}.

(** The body of the loop over [as_completed(futures)]. *)
Definition collect (process : string -> string -> option string * list string)
           (clock : string -> string) (modality kind : string)
           (b : batch) (uri : string) : batch :=
  let filename := Py.last_part (Py.split "/" uri) in
  let (content, lines) := process (clock uri) uri in
  if Py.truthy content
  then mk_batch (List.app (calls b) [uri])
                (List.app (documents b) [mk_record uri modality None content None])
                (List.app (batch_log b)
                   (List.app lines ["✓ Processed " ++ kind ++ ": " ++ filename]))
  else mk_batch (List.app (calls b) [uri])
                (documents b)
                (List.app (batch_log b)
                   (List.app lines ["✗ Failed " ++ kind ++ ": " ++ filename])).

(** One pool: the first 50 uris are submitted and collected as they
    complete. *)
Definition run_pool (process : string -> string -> option string * list string)
           (clock : string -> string) (picks : list nat)
           (modality kind : string) (uris : list string) : batch :=
  fold_left (collect process clock modality kind)
            (Py.as_completed picks (firstn 50 uris))
            (mk_batch [] [] []).

(** What a run leaves: [inserted] is the number that [main] logs as
    inserted, when it logs one. *)
Record run : Type := mk_run {
  corpus_after : table;
  json_batch : batch;
  csv_batch : batch;
  inserted : option nat;
  log : list string;
  raised : option string
}.

(** [main()].  The lines that an adapter logs from its worker thread
    are placed before the line of the main thread for the same uri. *)
Definition main (env : run_env) (corpus : table) : run :=
  let banner := Py.times "=" 70 in
  let existing := existing_uris corpus in
  let json_uris := new_uris (obj_json env) existing in
  let json := run_pool (process_json_file (svc env)) (clock env) (json_picks env)
                       "json" "JSON" json_uris in
  let csv_uris := new_uris (obj_csv env) existing in
  let csv := run_pool (process_csv_file (svc env)) (clock env) (csv_picks env)
                      "csv" "CSV" csv_uris in
  let all_documents := List.app (documents json) (documents csv) in
  let '(corpus', n, insert_log, exn) := insert_to_bigquery env all_documents corpus in
  let prologue :=
    List.app [banner; "Starting JSON and CSV Ingestion"; banner]
      (match existing with
       | [] => []
       | _ => ["Found " ++ Py.str_nat (List.length (Py.sorted_distinct existing))
                        ++ " JSON/CSV files already ingested"]
       end) in
  let pools :=
    List.app
      (("Found " ++ Py.str_nat (List.length json_uris) ++ " new JSON files to process")
         :: batch_log json)
      (("Found " ++ Py.str_nat (List.length csv_uris) ++ " new CSV files to process")
         :: batch_log csv) in
  let inserting :=
    match all_documents with
    | [] => []
    | _ => (Py.nl ++ "Inserting " ++ Py.str_nat (List.length all_documents)
                  ++ " documents to BigQuery...") :: insert_log
    end in
  match exn with
  | Some msg =>
      mk_run corpus' json csv None
             (List.app prologue (List.app pools inserting)) (Some msg)
  | None =>
      let epilogue :=
        List.app
          (match all_documents with
           | [] => []
           | _ => ["Successfully inserted "
                     ++ Py.str_nat (match n with Some k => k | None => 0 end)
                     ++ " documents"]
           end)
          (List.app
             [banner; "JSON/CSV Ingestion Complete!"; banner;
              "JSON files processed: " ++ Py.str_nat (List.length (documents json));
              "CSV files processed: " ++ Py.str_nat (List.length (documents csv));
              "Total new documents: " ++ Py.str_nat (List.length all_documents)]
             (match all_documents with
              | [] => []
              | _ => [Py.nl ++ "Next: Run 'uv run bq-semgrep index --update' to generate embeddings"]
              end)) in
      mk_run corpus' json csv
             (match all_documents with [] => None | _ => n end)
             (List.app prologue (List.app pools (List.app inserting epilogue))) None
  end.

End IngestJsonCsv.
(** ** obsolete/ingest_json_csv_simple.py *)

Module IngestJsonCsvSimple.
Import Store Json.

(** The surroundings of one run of [main]: the services of the
    adapters, the names that [list_blobs] yields for a prefix, whether
    the query that counts the existing files raises and in which order
    it returns its two groups, and the outcome of the insertion. *)
Record run_env : Type := mk_run_env {
  svc : IngestJsonCsv.services;
  list_blobs : string -> list string;
  check_raises : bool;
  csv_group_first : bool;
  insert_rows_json : list record -> IngestJsonCsv.insert_outcome
}.

(** [list_files(prefix, extension)] *)
Definition list_files (env : run_env) (prefix extension : string) : list string :=
  map (fun name => "gs://gcm-data-lake/" ++ name)
      (filter (Py.endswith extension)
              (list_blobs env ("multimodal-dataset/" ++ prefix ++ "/"))).

(** The body of the loop over [list(data.items())[:10]]. *)
Definition sample_line (kv : string * json) : list string :=
  let (k, v) := kv in
  match v with
  | JStr _ | JInt _ | JFloat _ | JBool _ =>
      ["  " ++ k ++ ": " ++ Py.slice_to 100 (str v)]
  | _ => []
  end.

(** [text_parts] of [process_json_file] once the file is parsed. *)
Definition json_text_parts (uri : string) (data : json) : list string :=
  let filename := Py.last_part (Py.split "/" uri) in
  let header := ["JSON File: " ++ filename;
                 "Location: " ++ uri;
                 "Type: JSON Document";
                 EmptyString] in
  let body :=
    match data with
    | JDict members =>
        List.app
          ["Root type: Object with " ++ Py.str_nat (List.length members) ++ " keys";
           "Keys: " ++ Py.join ", " (firstn 20 (map fst members));
           Py.nl ++ "Sample content:"]
          (flat_map sample_line (firstn 10 members))
    | JList items =>
        ("Root type: Array with " ++ Py.str_nat (List.length items) ++ " items")
        :: match items with
           | [] => []
           | first :: _ => ["First item type: " ++ type_name first]
           end
    | _ => []
    end in
  List.app header
    (List.app body
       [Py.nl ++ "Data preview:" ++ Py.nl
              ++ Py.slice_to 2000 (dumps_indent 2 0 data)]).

(** [process_json_file(uri)]: the text, or [None] with the logged
    error. *)
Definition process_json_file (svc : IngestJsonCsv.services) (uri : string)
  : option string * list string :=
  let attempt :=
    Py.bind (Py.index (Py.split "/" uri) 2) (fun bucket_name =>
    let blob_path := Py.join "/" (skipn 3 (Py.split "/" uri)) in
    Py.bind (IngestJsonCsv.download_as_text svc bucket_name blob_path) (fun content =>
    Py.bind (IngestJsonCsv.json_loads svc content) (fun data =>
    Py.Ok (Py.join Py.nl (json_text_parts uri data))))) in
  match attempt with
  | Py.Ok text => (Some text, [])
  | Py.Raise e => (None, ["Error processing " ++ uri ++ ": " ++ e])
  end.

(** [v[:20]] inside the f-string of a sample row: a field is cut, the
    surplus fields of a long row are cut as a list and written as one,
    the [None] of a short row cannot be sliced. *)
Definition cell_preview (c : IngestJsonCsv.cell) : Py.result string :=
  match c with
  | IngestJsonCsv.CellStr s => Py.Ok (Py.slice_to 20 s)
  | IngestJsonCsv.CellNone => Py.Raise "'NoneType' object is not subscriptable"
  | IngestJsonCsv.CellList fields =>
      Py.Ok ("[" ++ Py.join ", " (map repr_str (firstn 20 fields)) ++ "]")
  end.

Definition row_line (i : nat) (row : IngestJsonCsv.csv_row) : Py.result string :=
  Py.bind
    (Py.traverse
       (fun kv => Py.bind (cell_preview (snd kv))
                    (fun v => Py.Ok (IngestJsonCsv.key_str (fst kv) ++ ":" ++ v)))
       (firstn 5 row))
    (fun cells => Py.Ok ("  Row " ++ Py.str_nat i ++ ": " ++ Py.join " | " cells)).

(** [text_parts] of [process_csv_file] once the file is read. *)
Definition csv_text_parts (uri content : string)
           (fieldnames : option (list string))
           (rows : list IngestJsonCsv.csv_row) : Py.result (list string) :=
  let filename := Py.last_part (Py.split "/" uri) in
  let header := ["CSV File: " ++ filename;
                 "Location: " ++ uri;
                 "Type: CSV Spreadsheet";
                 EmptyString] in
  let preview :=
    [Py.nl ++ "Data preview:" ++ Py.nl
           ++ Py.join Py.nl (firstn 30 (Py.split (ascii_of_nat 10) content))] in
  match fieldnames with
  | Some ((_ :: _) as names) =>
      Py.bind
        (Py.traverse (fun p => row_line (fst p) (snd p))
                     (IngestJsonCsv.enumerate_from 1 (firstn 5 rows)))
        (fun lines =>
           Py.Ok (List.app header
                    (List.app
                       ["Columns (" ++ Py.str_nat (List.length names) ++ "): "
                                    ++ Py.join ", " names;
                        "Rows: " ++ Py.str_nat (List.length rows);
                        Py.nl ++ "Sample data (first 5 rows):"]
                       (List.app lines preview))))
  | _ => Py.Ok (List.app header preview)
  end.

(** [process_csv_file(uri)] *)
Definition process_csv_file (svc : IngestJsonCsv.services) (uri : string)
  : option string * list string :=
  let attempt :=
    Py.bind (Py.index (Py.split "/" uri) 2) (fun bucket_name =>
    let blob_path := Py.join "/" (skipn 3 (Py.split "/" uri)) in
    Py.bind (IngestJsonCsv.download_as_text svc bucket_name blob_path) (fun content =>
    Py.bind (IngestJsonCsv.dict_reader svc content) (fun parsed =>
    Py.bind (csv_text_parts uri content (fst parsed) (snd parsed))
            (fun parts => Py.Ok (Py.join Py.nl parts))))) in
  match attempt with
  | Py.Ok text => (Some text, [])
  | Py.Raise e => (None, ["Error processing " ++ uri ++ ": " ++ e])
  end.

(** What the two loops of [main] leave behind. *)
Record collected : Type := mk_collected {
  documents : list record;
  loop_log : list string
}.

(** The body of the loops over [json_files[:20]] and [csv_files[:20]]. *)
Definition collect (process : string -> option string * list string)
           (modality : string) (c : collected) (uri : string) : collected :=
  let (content, lines) := process uri in
  if Py.truthy content
  then mk_collected
         (List.app (documents c) [mk_record uri modality None content None])
         (List.app (loop_log c)
            (List.app lines
               ["✓ Processed " ++ Py.last_part (Py.split "/" uri)]))
  else mk_collected (documents c) (List.app (loop_log c) lines).

(** The lines of the query that counts the existing files. *)
Definition check_existing (env : run_env) (corpus : table) : list string :=
  if check_raises env then ["No existing JSON/CSV files found"]
  else
    let line (m : string) : list string :=
      match List.length (filter (fun r => modality r =? m) corpus) with
      | O => []
      | n => ["Already have " ++ Py.str_nat n ++ " " ++ m ++ " files"]
      end in
    if csv_group_first env
    then List.app (line "csv") (line "json")
    else List.app (line "json") (line "csv").

Record run : Type := mk_run {
  corpus_after : table;
  inserted_documents : list record;
  log : list string;
  raised : option string
}.

(** [main()]: the rows are inserted as they were collected, without a
    look at the uris that the corpus holds. *)
Definition main (env : run_env) (corpus : table) : run :=
  let json_files := list_files env "json" ".json" in
  let csv_files := list_files env "csv" ".csv" in
  let start :=
    List.app ("Starting JSON and CSV ingestion..." :: check_existing env corpus)
      ["Found " ++ Py.str_nat (List.length json_files) ++ " JSON files";
       "Found " ++ Py.str_nat (List.length csv_files) ++ " CSV files"] in
  let with_json :=
    fold_left (collect (process_json_file (svc env)) "json")
              (firstn 20 json_files) (mk_collected [] start) in
  let with_csv :=
    fold_left (collect (process_csv_file (svc env)) "csv")
              (firstn 20 csv_files) with_json in
  let docs := documents with_csv in
  let summary :=
    [Py.nl ++ "Ingestion complete!";
     "  JSON: " ++ Py.str_nat (List.length (filter (fun d => modality d =? "json") docs));
     "  CSV: " ++ Py.str_nat (List.length (filter (fun d => modality d =? "csv") docs));
     Py.nl ++ "Next: Run 'uv run bq-semgrep index --update' to generate embeddings"] in
  match docs with
  | [] => mk_run corpus [] (List.app (loop_log with_csv) summary) None
  | _ =>
      match insert_rows_json env docs with
      | IngestJsonCsv.Inserted =>
          mk_run (List.app corpus docs) docs
                 (List.app (loop_log with_csv)
                    (("✅ Successfully inserted " ++ Py.str_nat (List.length docs)
                        ++ " documents") :: summary))
                 None
      | IngestJsonCsv.Rejected errors stored =>
          mk_run (List.app corpus (IngestJsonCsv.stored_rows stored docs))
                 (IngestJsonCsv.stored_rows stored docs)
                 (List.app (loop_log with_csv)
                    (("Insert errors: " ++ errors) :: summary))
                 None
      | IngestJsonCsv.InsertRaised msg stored =>
          mk_run (List.app corpus (IngestJsonCsv.stored_rows stored docs))
                 (IngestJsonCsv.stored_rows stored docs)
                 (loop_log with_csv) (Some msg)
      end
  end.

End IngestJsonCsvSimple.


(** ** complete_vision_analysis.py *)

Module CompleteVisionAnalysis.
Import Store.

(** A label annotation: its description and its score as
    [f"{score:.1%}"] writes it. *)
Record label : Type := mk_label {
  description : string;
  score_percent : string
}.

(** A dominant colour: [int()] of its three channels. *)
Record color : Type := mk_color {
  red : Z;
  green : Z;
  blue : Z
}.

(** The four Vision API responses for one image. *)
Record annotations : Type := mk_annotations {
  labels : list label;
  objects : list string;
  texts : list string;
  colors : list color
}.

(** The services the script calls: the Vision API, the UPDATE job of one
    uri (the error text when it fails), and the rendering
    [f"{100*analyzed/total:.1f}"] of the success rate.  The outcome of a
    call is given by the uri it is made for: two calls for one uri, which
    [main] makes when the uri is on two image rows, end alike. *)
Record services : Type := mk_services {
  annotate : string -> Py.result annotations;
  update_job : string -> option string;
  format_rate : nat -> nat -> string
}.

Definition any_in (words : list string) (s : string) : bool :=
  existsb (fun w => Py.contains w s) words.

(** The if/elif chain that files a label under a category. *)
Definition category (l : label) : list string :=
  let label_lower := Py.lower (description l) in
  if any_in ["animal"; "bird"; "dog"; "cat"] label_lower then ["Animals"]
  else if any_in ["person"; "people"; "face"] label_lower then ["People"]
  else if any_in ["food"; "cuisine"; "meal"] label_lower then ["Food"]
  else if any_in ["building"; "architecture"] label_lower then ["Architecture"]
  else if any_in ["plant"; "tree"; "flower"] label_lower then ["Nature"]
  else [].

Definition hex_color (c : color) : string :=
  "#" ++ Py.format_02x (red c) ++ Py.format_02x (green c) ++ Py.format_02x (blue c).

(** [description_parts] once the image is annotated. *)
Definition description_parts (image_uri : string) (a : annotations)
           (now : string) : list string :=
  let filename := Py.last_part (Py.split "/" image_uri) in
  let head := ["Image File: " ++ filename; "Location: " ++ image_uri] in
  let label_part :=
    match labels a with
    | [] => []
    | _ =>
        ["Visual Content: "
           ++ Py.join ", " (firstn 10 (map description (labels a)));
         "Top Labels: "
           ++ Py.join ", "
                (map (fun l => description l ++ " (" ++ score_percent l ++ ")")
                     (firstn 5 (labels a)))]
    end in
  let object_part :=
    match objects a with
    | [] => []
    | _ => ["Detected Objects: " ++ Py.join ", " (firstn 5 (objects a))]
    end in
  let text_part :=
    match texts a with
    | [] => []
    | first :: _ =>
        let text_content :=
          Py.strip (Py.replace (ascii_of_nat 10) " " first) in
        if text_content =? EmptyString then []
        else ["Detected Text: "
                ++ (if Nat.ltb 200 (Py.len text_content)
                    then Py.slice_to 200 text_content ++ "..."
                    else text_content)]
    end in
  let color_part :=
    match colors a with
    | [] => []
    | _ => ["Dominant Colors: "
              ++ Py.join ", " (map hex_color (firstn 3 (colors a)))]
    end in
  let categories := Py.sorted_distinct (flat_map category (firstn 15 (labels a))) in
  let category_part :=
    match categories with
    | [] => []
    | _ => ["Categories: " ++ Py.join ", " categories]
    end in
  List.app head
    (List.app label_part
       (List.app object_part
          (List.app text_part
             (List.app color_part
                (List.app category_part
                   ["Analysis: Complete Vision API content extraction";
                    "Indexed: " ++ now]))))).

(** [analyze_and_update_image(image_uri)], run when the clock reads
    [now]: the corpus after it, its return value and what it logged. *)
Definition analyze_and_update_image (svc : services) (now : string)
           (image_uri : string) (corpus : table) : table * bool * list string :=
  let filename := Py.last_part (Py.split "/" image_uri) in
  match annotate svc image_uri with
  | Py.Raise e => (corpus, false, ["✗ " ++ filename ++ ": " ++ e])
  | Py.Ok a =>
      let text_content := Py.join Py.nl (description_parts image_uri a now) in
      match update_job svc image_uri with
      | Some e => (corpus, false, ["✗ " ++ filename ++ ": " ++ e])
      | None =>
          (update_text_where_uri image_uri text_content corpus, true,
           ["✓ " ++ filename ++ " - " ++ Py.str_nat (List.length (labels a))
                 ++ " labels, " ++ Py.str_nat (List.length (objects a))
                 ++ " objects"])
      end
  end.

Definition vision_marker : string := "Vision API content extraction".

(** The WHERE clause of the query of [main]: images not analysed yet. *)
Definition not_analyzed (r : record) : bool :=
  (modality r =? "image")
  && match text_content r with
     | None => true
     | Some t => negb (Py.contains vision_marker t)
     end.

Definition remaining_uris (corpus : table) : list string :=
  Py.sorted (map uri (filter not_analyzed corpus)).

Record run : Type := mk_run {
  corpus_after : table;
  success_count : nat;
  log : list string
}.

(** The loop of [main] over the remaining uris, from position [i]
    of [total]. *)
Fixpoint analyze_all (svc : services) (clock : string -> string)
         (total i : nat) (uris : list string) (st : run) : run :=
  match uris with
  | [] => st
  | uri :: rest =>
      let filename := Py.last_part (Py.split "/" uri) in
      let announce := "[" ++ Py.str_nat i ++ "/" ++ Py.str_nat total
                          ++ "] Processing " ++ filename ++ "..." in
      let '(corpus', ok, lines) :=
        analyze_and_update_image svc (clock uri) uri (corpus_after st) in
      analyze_all svc clock total (S i) rest
        (mk_run corpus'
                (if ok then S (success_count st) else success_count st)
                (List.app (log st) (announce :: lines)))
  end.

(** The final check of [main]: the images and the analysed images of the
    corpus. *)
Definition final_check (svc : services) (corpus : table) : list string :=
  let images := filter (fun r => modality r =? "image") corpus in
  let total := List.length images in
  let analyzed :=
    List.length (filter (fun r => match text_content r with
                                  | Some t => Py.contains vision_marker t
                                  | None => false
                                  end) images) in
  [Py.nl ++ Py.times "=" 60;
   "Vision API Analysis Complete!";
   "Total images: " ++ Py.str_nat total;
   "Analyzed with Vision API: " ++ Py.str_nat analyzed;
   "Success rate: " ++ Py.str_nat analyzed ++ "/" ++ Py.str_nat total
                    ++ " (" ++ format_rate svc analyzed total ++ "%)"].

(** [main()] *)
Definition main (svc : services) (clock : string -> string) (corpus : table)
  : run :=
  let uris := remaining_uris corpus in
  let start := ["Completing Vision API analysis for remaining images...";
                "Found " ++ Py.str_nat (List.length uris) ++ " images to analyze"] in
  match uris with
  | [] => mk_run corpus 0 (List.app start ["All images already analyzed!"])
  | _ =>
      let looped := analyze_all svc clock (List.length uris) 1 uris
                                (mk_run corpus 0 start) in
      mk_run (corpus_after looped) (success_count looped)
             (List.app (log looped)
                (List.app (final_check svc (corpus_after looped))
                   [Py.nl ++ "Next: Run 'uv run bq-semgrep index --update' to regenerate embeddings"]))
  end.

End CompleteVisionAnalysis.

(** ** obsolete/update_all_images_vision.py: the writers *)

Module UpdateAllImagesVision.
Import Store.

(** The dict returned by [analyze_image], by the keys the writers read. *)
Record analysis : Type := mk_analysis {
  a_uri : string;
  a_text_content : option string;
  a_success : bool
}.

(** The BigQuery jobs of the writers: the combined UPDATE built from the
    VALUES of a batch, which raises or returns the rows (uri,
    text_content) of [updates] as BigQuery read them from the statement,
    and the UPDATE of one uri, which may raise. *)
Record jobs : Type := mk_jobs {
  batch_job : list string -> Py.result (list (string * string));
  individual_job : string -> option string
}.

(** [UPDATE search_corpus sc SET sc.text_content = updates.text_content
     FROM updates WHERE sc.uri = updates.uri] *)
Definition update_from (updates : list (string * string)) (t : table) : table :=
  map (fun r => match find (fun u => fst u =? uri r) updates with
                | Some u => set_text_content (Some (snd u)) r
                | None => r
                end) t.

Record state : Type := mk_state {
  corpus : table;
  log : list string
}.

(** [update_individual(uri, text_content)] *)
Definition update_individual (j : jobs) (uri text_content : string)
           (st : state) : state :=
  match individual_job j uri with
  | None => mk_state (update_text_where_uri uri text_content (corpus st)) (log st)
  | Some e => mk_state (corpus st)
                       (List.app (log st) ["Failed to update " ++ uri ++ ": " ++ e])
  end.

Definition successful_results (results : list analysis) : list analysis :=
  filter (fun r => a_success r && Py.truthy (a_text_content r)) results.

Definition text_of (r : analysis) : string :=
  match a_text_content r with
  | Some t => t
  | None => EmptyString
  end.

(** One entry of the VALUES of the combined UPDATE. *)
Definition value_of (r : analysis) : string :=
  "('" ++ a_uri r ++ "', '''"
       ++ Py.replace (ascii_of_nat 39) "''" (text_of r) ++ "''')".

(** [update_batch_in_bigquery(results)] *)
Definition update_batch_in_bigquery (j : jobs) (results : list analysis)
           (st : state) : state :=
  match successful_results results with
  | [] => st
  | successful =>
      match batch_job j (map value_of successful) with
      | Py.Ok updates =>
          mk_state (update_from updates (corpus st))
            (List.app (log st)
               ["Batch updated " ++ Py.str_nat (List.length successful)
                                 ++ " images in search_corpus"])
      | Py.Raise e =>
          fold_left (fun s r => update_individual j (a_uri r) (text_of r) s)
                    successful
                    (mk_state (corpus st)
                       (List.app (log st)
                          ["Batch update failed, falling back to individual updates: "
                             ++ e]))
      end
  end.

(** *** analyze_image, process_batch and main *)

(** An object annotation: its name and its score as [f"{score:.1%}"]
    writes it. *)
Record detected_object : Type := mk_detected_object {
  object_name : string;
  object_score_percent : string
}.

(** A dominant colour: its channels and its pixel fraction as
    [f"{pixel_fraction:.1%}"] writes it ([None] when the attribute is
    missing). *)
Record dominant_color : Type := mk_dominant_color {
  channels : CompleteVisionAnalysis.color;
  coverage : option string
}.

(** The six Vision API responses for one image. *)
Record responses : Type := mk_responses {
  labels : list CompleteVisionAnalysis.label;
  objects : list detected_object;
  texts : list string;
  colors : list dominant_color;
  landmarks : list string;
  faces : nat
}.

(** The other keys of the dict returned by [analyze_image]. *)
Record details : Type := mk_details {
  label_count : nat;
  object_count : nat;
  has_text : bool;
  has_faces : bool;
  error : option string
}.

Definition scene_words : list string :=
  ["outdoor"; "indoor"; "nature"; "city"; "urban";
   "forest"; "beach"; "mountain"; "office"; "home"].

(** The if/elif chain of the semantic categories. *)
Definition semantic_category (l : CompleteVisionAnalysis.label) : list string :=
  let label_lower := Py.lower (CompleteVisionAnalysis.description l) in
  let any_in := CompleteVisionAnalysis.any_in in
  if any_in ["animal"; "bird"; "dog"; "cat"; "wildlife"] label_lower
  then ["Animals"]
  else if any_in ["person"; "people"; "human"; "face"; "man"; "woman"] label_lower
  then ["People"]
  else if any_in ["food"; "cuisine"; "meal"; "drink"] label_lower
  then ["Food & Drink"]
  else if any_in ["car"; "vehicle"; "transport"; "airplane"; "train"] label_lower
  then ["Transportation"]
  else if any_in ["building"; "architecture"; "house"; "structure"] label_lower
  then ["Architecture"]
  else if any_in ["plant"; "tree"; "flower"; "vegetation"] label_lower
  then ["Nature & Plants"]
  else if any_in ["technology"; "computer"; "device"; "electronic"] label_lower
  then ["Technology"]
  else if any_in ["sport"; "game"; "fitness"; "recreation"] label_lower
  then ["Sports & Recreation"]
  else [].

Definition analysis_line : string :=
  "Analysis: Complete Vision API content extraction with labels, objects, colors, text, and scene understanding".

(** [description_parts] of [analyze_image] once the image is annotated. *)
Definition description_parts (image_uri : string) (a : responses) (now : string)
  : list string :=
  let filename := Py.last_part (Py.split "/" image_uri) in
  let head := ["Image File: " ++ filename; "Location: " ++ image_uri] in
  let label_part :=
    match labels a with
    | [] => []
    | _ =>
        ["Visual Content: "
           ++ Py.join ", " (firstn 10 (map CompleteVisionAnalysis.description (labels a)));
         "Top Labels: "
           ++ Py.join ", "
                (map (fun l => CompleteVisionAnalysis.description l ++ " ("
                                 ++ CompleteVisionAnalysis.score_percent l ++ ")")
                     (firstn 5 (labels a)))]
    end in
  let object_part :=
    match objects a with
    | [] => []
    | _ =>
        ["Detected Objects: " ++ Py.join ", " (map object_name (firstn 5 (objects a)));
         "Object Details: "
           ++ Py.join ", "
                (map (fun o => object_name o ++ " (" ++ object_score_percent o ++ ")")
                     (firstn 3 (objects a)))]
    end in
  let text_part :=
    match texts a with
    | [] => []
    | first :: _ =>
        let text_content := Py.strip (Py.replace (ascii_of_nat 10) " " first) in
        if text_content =? EmptyString then []
        else ["Detected Text: "
                ++ (if Nat.ltb 200 (Py.len text_content)
                    then Py.slice_to 200 text_content ++ "..."
                    else text_content)]
    end in
  let color_part :=
    match colors a with
    | [] => []
    | _ =>
        ["Dominant Colors: "
           ++ Py.join ", "
                (firstn 3
                   (map (fun c => CompleteVisionAnalysis.hex_color (channels c) ++ " ("
                                    ++ match coverage c with
                                       | Some p => p
                                       | None => "N/A"
                                       end ++ ")")
                        (firstn 5 (colors a))))]
    end in
  let landmark_part :=
    match landmarks a with
    | [] => []
    | _ => ["Landmarks: " ++ Py.join ", " (firstn 3 (landmarks a))]
    end in
  let face_part :=
    match faces a with
    | O => []
    | n => ["People Detected: " ++ Py.str_nat n ++ " face(s)"]
    end in
  let scene_labels :=
    map CompleteVisionAnalysis.description
        (filter (fun l => CompleteVisionAnalysis.any_in scene_words
                            (Py.lower (CompleteVisionAnalysis.description l)))
                (firstn 20 (labels a))) in
  let scene_part :=
    match scene_labels with
    | [] => []
    | _ => ["Scene Type: " ++ Py.join ", " (firstn 3 scene_labels)]
    end in
  let categories :=
    Py.sorted_distinct (flat_map semantic_category (firstn 15 (labels a))) in
  let category_part :=
    match categories with
    | [] => []
    | _ => ["Categories: " ++ Py.join ", " categories]
    end in
  List.app head
    (List.app label_part
       (List.app object_part
          (List.app text_part
             (List.app color_part
                (List.app landmark_part
                   (List.app face_part
                      (List.app scene_part
                         (List.app category_part
                            [analysis_line; "Indexed: " ++ now])))))))).

(** [analyze_image(image_uri)], run when the clock reads [now]: the
    result and what it logged. *)
Definition analyze_image (annotate : string -> Py.result responses)
           (now : string) (image_uri : string)
  : analysis * details * list string :=
  match annotate image_uri with
  | Py.Ok a =>
      (mk_analysis image_uri
                   (Some (Py.join Py.nl (description_parts image_uri a now))) true,
       mk_details (List.length (labels a)) (List.length (objects a))
                  (Nat.ltb 0 (List.length (texts a))) (Nat.ltb 0 (faces a)) None,
       [])
  | Py.Raise e =>
      (mk_analysis image_uri None false,
       mk_details 0 0 false false (Some e),
       ["Error analyzing " ++ image_uri ++ ": " ++ e])
  end.

(** [get_image_uris()]:
    [SELECT DISTINCT uri ... WHERE modality = 'image' ORDER BY uri] *)
Definition get_image_uris (corpus : table) : list string :=
  Py.sorted_distinct (map uri (filter (fun r => modality r =? "image") corpus)).

(** [range(start, stop, step)] for a positive step; [fuel] bounds the
    number of elements. *)
Fixpoint range_from (fuel start stop step : nat) : list nat :=
  match fuel with
  | O => []
  | S k => if Nat.ltb start stop
           then start :: range_from k (start + step) stop step
           else []
  end.

Definition batch_size : nat := 10.

(** [[image_uris[i:i + batch_size] for i in range(0, len(image_uris), batch_size)]] *)
Definition batches (image_uris : list string) : list (list string) :=
  map (fun i => firstn batch_size (skipn i image_uris))
      (range_from (List.length image_uris) 0 (List.length image_uris) batch_size).

(** The line that [process_batch] logs for a result. *)
Definition result_line (r : analysis) (d : details) : string :=
  let filename := Py.last_part (Py.split "/" (a_uri r)) in
  if a_success r
  then let stats :=
         List.app (if Nat.ltb 0 (label_count d)
                   then [Py.str_nat (label_count d) ++ " labels"] else [])
           (List.app (if Nat.ltb 0 (object_count d)
                      then [Py.str_nat (object_count d) ++ " objects"] else [])
              (List.app (if has_text d then ["text"] else [])
                        (if has_faces d then ["faces"] else []))) in
       "✓ Analyzed: " ++ filename
         ++ match stats with
            | [] => EmptyString
            | _ => " [" ++ Py.join ", " stats ++ "]"
            end
  else "✗ Failed: " ++ filename ++ " - "
         ++ match error d with
            | Some e => e
            | None => "Unknown error"
            end.

(** [process_batch(image_uris, batch_num, total_batches)]: the results in
    the order of completion, and the log (the lines of a worker before
    the line of the main thread for the same image). *)
Definition process_batch (annotate : string -> Py.result responses)
           (clock : string -> string) (picks : list nat)
           (image_uris : list string) (batch_num total_batches : nat)
  : list analysis * list string :=
  let outcomes :=
    map (fun u => analyze_image annotate (clock u) u)
        (Py.as_completed picks image_uris) in
  (map (fun o => fst (fst o)) outcomes,
   ("Processing batch " ++ Py.str_nat batch_num ++ "/" ++ Py.str_nat total_batches
      ++ " (" ++ Py.str_nat (List.length image_uris) ++ " images)")
   :: flat_map (fun o => List.app (snd o) [result_line (fst (fst o)) (snd (fst o))])
               outcomes).

(** The surroundings of one run of [main]. *)
Record run_env : Type := mk_run_env {
  annotate : string -> Py.result responses;
  clock : string -> string;
  picks : nat -> list nat;
  bq_jobs : jobs
}.

(** The variables of the loop of [main]. *)
Record progress : Type := mk_progress {
  store : state;
  all_results : list analysis;
  successful_count : nat;
  failed_count : nat
}.

(** The body of the loop over [enumerate(batches, 1)].  The progress line,
    which prints wall-clock rates, is left out of the log. *)
Definition main_step (env : run_env) (total_batches : nat)
           (p : progress) (numbered : nat * list string) : progress :=
  let (i, batch) := numbered in
  let (batch_results, lines) :=
    process_batch (annotate env) (clock env) (picks env i) batch i total_batches in
  let written :=
    update_batch_in_bigquery (bq_jobs env) batch_results
      (mk_state (corpus (store p)) (List.app (log (store p)) lines)) in
  let batch_successful := List.length (filter a_success batch_results) in
  let batch_failed := List.length batch_results - batch_successful in
  mk_progress written
              (List.app (all_results p) batch_results)
              (successful_count p + batch_successful)
              (failed_count p + batch_failed).

(** [SELECT COUNT( * ) ... WHERE modality = 'image'
     AND text_content LIKE '%Vision API content extraction%'] *)
Definition analyzed_count (corpus0 : table) : nat :=
  List.length
    (filter (fun r => (modality r =? "image")
                      && match text_content r with
                         | Some t => Py.contains "Vision API content extraction" t
                         | None => false
                         end) corpus0).

(** [main()] up to the final statistics, which print wall-clock
    times; its two SELECT queries are taken to return. *)
Definition main (env : run_env) (corpus0 : table) : progress :=
  let banner := Py.times "=" 70 in
  let image_uris := get_image_uris corpus0 in
  let bs := batches image_uris in
  fold_left (main_step env (List.length bs))
            (combine (seq 1 (List.length bs)) bs)
            (mk_progress
               (mk_state corpus0
                  (List.app
                     [banner;
                      "Starting comprehensive Vision API analysis for ALL images...";
                      banner;
                      "Found " ++ Py.str_nat (List.length image_uris)
                               ++ " total images to analyze";
                      "Already analyzed with Vision API: "
                        ++ Py.str_nat (analyzed_count corpus0) ++ " images"]
                     (if Nat.ltb 0 (analyzed_count corpus0)
                      then ["Will analyze remaining "
                              ++ Py.str_int (Z.of_nat (List.length image_uris)
                                             - Z.of_nat (analyzed_count corpus0))
                              ++ " images"]
                      else [])))
               [] 0 0).

End UpdateAllImagesVision.

(** ** setup_mmgrep.py: external tables, text ingestion, search corpus *)

Module SetupMmgrep.
Import Store.

(** The part of [MMGrepSetup] that the modelled steps read. *)
Record config : Type := mk_config {
  gcs_bucket : string;
  gcs_prefix : string
}.

(** A row of an object table: the object's uri and
    [SAFE_CAST(data AS STRING)]. *)
Record gcs_object : Type := mk_gcs_object {
  object_uri : string;
  data : option string
}.

(** The [uris] option of [obj_<modality>], up to its final star. *)
Definition uris_pattern (cfg : config) (modality : string) : string :=
  "gs://" ++ gcs_bucket cfg ++ "/" ++ gcs_prefix cfg ++ "/" ++ modality ++ "/".

(** The rows of [obj_<modality>] for a listing of the bucket. *)
Definition obj_table (cfg : config) (modality : string)
           (listing : list gcs_object) : list gcs_object :=
  filter (fun o => String.prefix (uris_pattern cfg modality) (object_uri o)) listing.

Record store : Type := mk_store {
  documents : table;
  search_corpus : table
}.

(** [INSERT INTO documents SELECT ... FROM obj_text
     WHERE uri NOT IN (SELECT DISTINCT uri FROM documents WHERE modality = 'text')] *)
Definition text_query (cfg : config) (listing : list gcs_object)
           (docs : table) : table :=
  let present := map uri (filter (fun r => modality r =? "text") docs) in
  List.app docs
    (map (fun o => mk_record (object_uri o) "text" (Some "file") (data o) None)
         (filter (fun o => negb (Py.mem (object_uri o) present))
                 (obj_table cfg "text" listing))).

(** [INSERT INTO documents SELECT ... FROM obj_markdown
     WHERE uri NOT IN (SELECT DISTINCT uri FROM documents WHERE source = 'markdown')] *)
Definition markdown_query (cfg : config) (listing : list gcs_object)
           (docs : table) : table :=
  let present :=
    map uri (filter (fun r => match source r with
                              | Some s => s =? "markdown"
                              | None => false
                              end) docs) in
  List.app docs
    (map (fun o => mk_record (object_uri o) "text" (Some "markdown") (data o) None)
         (filter (fun o => negb (Py.mem (object_uri o) present))
                 (obj_table cfg "markdown" listing))).

(** [ingest_simple_data]: the two statements, each on the listing of the
    bucket at its time.  [run_command] hands a statement to the shell
    between double quotes, where the table names, written between back
    quotes, are command substitutions: [text_ok] and [markdown_ok] tell
    whether the statement reached BigQuery as it is written and was
    executed (it does not, where the shell finds no command of these
    names).  A statement that was not executed changes nothing. *)
Definition ingest_simple_data (cfg : config)
           (text_listing markdown_listing : list gcs_object)
           (text_ok markdown_ok : bool) (s : store) : store :=
  let docs1 := if text_ok then text_query cfg text_listing (documents s)
               else documents s in
  let docs2 := if markdown_ok then markdown_query cfg markdown_listing docs1
               else docs1 in
  mk_store docs2 (search_corpus s).

(** [CREATE OR REPLACE TABLE search_corpus AS SELECT ...,
     CAST(NULL AS ARRAY<FLOAT64>) AS embedding FROM documents
     WHERE text_content IS NOT NULL] *)
Definition search_corpus_query (docs : table) : table :=
  map (set_embedding None)
      (filter (fun r => match text_content r with
                        | Some _ => true
                        | None => false
                        end) docs).

(** [create_search_corpus]: [ok] tells whether the statement reached
    BigQuery as it is written and was executed, as for
    [ingest_simple_data]. *)
Definition create_search_corpus (ok : bool) (s : store) : store :=
  if ok then mk_store (documents s) (search_corpus_query (documents s)) else s.

(** [create_core_tables]: [CREATE OR REPLACE TABLE] for [documents] and
    [search_corpus] ([document_chunks] is not part of the store); a
    statement that was executed leaves its table empty. *)
Definition create_core_tables (ok_documents ok_search_corpus : bool) (s : store)
  : store :=
  mk_store (if ok_documents then [] else documents s)
           (if ok_search_corpus then [] else search_corpus s).

End SetupMmgrep.

(** ** obsolete/update_images_with_vision.py: the writer *)

Module UpdateImagesWithVision.
Import Store.

(** The two UPDATE jobs of [update_image_in_bigquery], by the uri they
    are run for: the exception, if the job raises. *)
Record jobs : Type := mk_jobs {
  corpus_job : string -> option string;
  documents_job : string -> option string
}.

(** [update_image_in_bigquery(uri, text_content)]: the UPDATE of the
    search corpus, then that of the documents; the store after it and
    the exception that left it, if any. *)
Definition update_image_in_bigquery (j : jobs) (uri text_content : string)
           (s : SetupMmgrep.store) : SetupMmgrep.store * option string :=
  match corpus_job j uri with
  | Some e => (s, Some e)
  | None =>
      let corpus1 :=
        update_text_where_uri uri text_content (SetupMmgrep.search_corpus s) in
      match documents_job j uri with
      | Some e => (SetupMmgrep.mk_store (SetupMmgrep.documents s) corpus1, Some e)
      | None =>
          (SetupMmgrep.mk_store
             (update_text_where_uri uri text_content (SetupMmgrep.documents s))
             corpus1,
           None)
      end
  end.

End UpdateImagesWithVision.

(** ** The operations on the store, as one transition system *)

Module Pipeline.
Import Store.

(** One constructor per writer of the sources.  [ClearStuck] is the
    UPDATE of [fix_stuck], by the rows that its WHERE clause selects,
    whatever the clause; an option value that turns the text of
    [fix_stuck] into another statement than this UPDATE is not an
    operation of the system. *)
Inductive op : Type :=
| CreateCoreTables (ok_documents ok_search_corpus : bool)
| IngestSimpleData (text_listing markdown_listing : list SetupMmgrep.gcs_object)
                   (text_ok markdown_ok : bool)
| CreateSearchCorpus (ok : bool)
| IngestJsonCsvMain (env : IngestJsonCsv.run_env)
| IngestJsonCsvSimpleMain (env : IngestJsonCsvSimple.run_env)
| VisionMain (svc : CompleteVisionAnalysis.services) (clock : string -> string)
| UpdateBatch (j : UpdateAllImagesVision.jobs)
              (results : list UpdateAllImagesVision.analysis)
| UpdateImage (j : UpdateImagesWithVision.jobs) (uri text_content : string)
| ClearStuck (selected : record -> bool).

Definition on_corpus (f : table -> table) (s : SetupMmgrep.store)
  : SetupMmgrep.store :=
  SetupMmgrep.mk_store (SetupMmgrep.documents s) (f (SetupMmgrep.search_corpus s)).

Definition step (cfg : SetupMmgrep.config) (s : SetupMmgrep.store) (o : op)
  : SetupMmgrep.store :=
  match o with
  | CreateCoreTables okd okc => SetupMmgrep.create_core_tables okd okc s
  | IngestSimpleData lt lm okt okm =>
      SetupMmgrep.ingest_simple_data cfg lt lm okt okm s
  | CreateSearchCorpus ok => SetupMmgrep.create_search_corpus ok s
  | IngestJsonCsvMain env =>
      on_corpus (fun c => IngestJsonCsv.corpus_after (IngestJsonCsv.main env c)) s
  | IngestJsonCsvSimpleMain env =>
      on_corpus (fun c => IngestJsonCsvSimple.corpus_after
                            (IngestJsonCsvSimple.main env c)) s
  | VisionMain svc clock =>
      on_corpus (fun c => CompleteVisionAnalysis.corpus_after
                            (CompleteVisionAnalysis.main svc clock c)) s
  | UpdateBatch j results =>
      on_corpus (fun c => UpdateAllImagesVision.corpus
                            (UpdateAllImagesVision.update_batch_in_bigquery j results
                               (UpdateAllImagesVision.mk_state c []))) s
  | UpdateImage j uri text_content =>
      fst (UpdateImagesWithVision.update_image_in_bigquery j uri text_content s)
  | ClearStuck selected => on_corpus (Grepctl.clear_where selected) s
  end.

Definition run (cfg : SetupMmgrep.config) (ops : list op) (s : SetupMmgrep.store)
  : SetupMmgrep.store :=
  fold_left (step cfg) ops s.

End Pipeline.

(** ** The embedding writer *)

Module Embedding.
Import Store.

(** Modelled from the spec: the script that generates the embeddings
    ([fix_embeddings.py]) is not among the sources.  Section 4.3 and 4.5
    of the specification: a record is a candidate for embedding when its
    embedding is absent and its canonical text is present; the client is
    not called on a null or empty text; a failed call leaves the record
    with its text and no vector. *)
Definition embed_record (client : string -> option (list float64))
           (r : record) : record :=
  match embedding r, text_content r with
  | None, Some text =>
      if text =? EmptyString then r
      else match client text with
           | Some v => set_embedding (Some v) r
           | None => r
           end
  | _, _ => r
  end.

Definition embed_pass (client : string -> option (list float64))
           (corpus : table) : table :=
  map (embed_record client) corpus.

(** The operations of the sources, and the embedding pass. *)
Inductive op : Type :=
| Source (o : Pipeline.op)
| Embed (client : string -> option (list float64)).

Definition step (cfg : SetupMmgrep.config) (s : SetupMmgrep.store) (o : op)
  : SetupMmgrep.store :=
  match o with
  | Source o => Pipeline.step cfg s o
  | Embed client => Pipeline.on_corpus (embed_pass client) s
  end.

Definition run (cfg : SetupMmgrep.config) (ops : list op) (s : SetupMmgrep.store)
  : SetupMmgrep.store :=
  fold_left (step cfg) ops s.

End Embedding.



(** * Properties *)

(** ** Facts about lists *)

Module ListFacts.


Lemma in_skipn {A} (n : nat) (l : list A) (x : A) :
  In x (skipn n l) -> In x l.
Proof.
  intros H. rewrite <- (firstn_skipn n l). apply in_or_app. now right.
Qed.

Lemma mem_true (x : string) (l : list string) : Py.mem x l = true <-> In x l.
Proof.
  unfold Py.mem. rewrite existsb_exists. split.
  - intros (y & Hy & Heq). apply String.eqb_eq in Heq. now subst.
  - intros H. exists x. split; [exact H|apply String.eqb_refl].
Qed.

Lemma mem_false (x : string) (l : list string) : Py.mem x l = false <-> ~ In x l.
Proof.
  rewrite <- mem_true. destruct (Py.mem x l); split; congruence.
Qed.

(** The completion order of a pool is a permutation of its futures. *)
Lemma as_completed_perm {A} (picks : list nat) :
  forall futures : list A, Permutation (Py.as_completed picks futures) futures.
Proof.
  induction picks as [|p picks IH]; intros futures; simpl; [reflexivity|].
  destruct futures as [|f futures]; [reflexivity|].
  set (l := f :: futures).
  set (i := Nat.modulo p (List.length l)).
  destruct (nth_error l i) as [x|] eqn:Hnth; [|reflexivity].
  rewrite IH.
  assert (Hskip : forall (k : nat) (l0 : list A),
             nth_error l0 k = Some x -> skipn k l0 = x :: skipn (S k) l0).
  { induction k as [|k IHk]; intros [|y l0] Hk; simpl in *; try discriminate.
    - now inversion Hk.
    - now apply IHk. }
  transitivity (List.app (firstn i l) (x :: skipn (S i) l)).
  - apply Permutation_middle.
  - rewrite <- (Hskip i l Hnth). now rewrite firstn_skipn.
Qed.

End ListFacts.

(** ** Facts about the string order used by ORDER BY *)

Module StringOrder.

Lemma ascii_compare_refl (a : ascii) : Ascii.compare a a = Eq.
Proof. unfold Ascii.compare. apply N.compare_refl. Qed.

Lemma ascii_compare_lt_trans (a b c : ascii) :
  Ascii.compare a b = Lt -> Ascii.compare b c = Lt -> Ascii.compare a c = Lt.
Proof.
  unfold Ascii.compare. rewrite !N.compare_lt_iff. apply N.lt_trans.
Qed.

Lemma compare_refl (s : string) : String.compare s s = Eq.
Proof.
  induction s as [|a s IH]; simpl; [reflexivity|].
  now rewrite ascii_compare_refl.
Qed.

Lemma compare_lt_trans (s1 : string) :
  forall s2 s3, String.compare s1 s2 = Lt -> String.compare s2 s3 = Lt ->
                String.compare s1 s3 = Lt.
Proof.
  induction s1 as [|a s1 IH]; intros [|b s2] [|c s3]; simpl;
    try discriminate; try reflexivity.
  destruct (Ascii.compare a b) eqn:Hab; try discriminate;
    destruct (Ascii.compare b c) eqn:Hbc; try discriminate; intros H1 H2.
  - apply Ascii.compare_eq_iff in Hab, Hbc. subst.
    rewrite ascii_compare_refl. eauto.
  - apply Ascii.compare_eq_iff in Hab. subst. now rewrite Hbc.
  - apply Ascii.compare_eq_iff in Hbc. subst. now rewrite Hab.
  - now rewrite (ascii_compare_lt_trans _ _ _ Hab Hbc).
Qed.

Lemma compare_gt_lt (s1 s2 : string) :
  String.compare s1 s2 = Gt -> String.compare s2 s1 = Lt.
Proof.
  intros H. rewrite String.compare_antisym, H. reflexivity.
Qed.

Lemma compare_lt_neq (s1 s2 : string) : String.compare s1 s2 = Lt -> s1 <> s2.
Proof.
  intros H ->. rewrite compare_refl in H. discriminate.
Qed.

(** Strictly ascending: no key is repeated. *)
Definition lt (s1 s2 : string) : Prop := String.compare s1 s2 = Lt.

Lemma lt_trans (s1 s2 s3 : string) : lt s1 s2 -> lt s2 s3 -> lt s1 s3.
Proof. apply compare_lt_trans. Qed.

Lemma strongly_sorted_nodup (l : list string) :
  StronglySorted lt l -> NoDup l.
Proof.
  induction 1 as [|a l Hs IH Hall]; constructor; auto.
  intros Hin. rewrite Forall_forall in Hall.
  apply (compare_lt_neq a a); auto. now apply Hall.
Qed.

End StringOrder.

(** ** index verify *)

Module VerifyFacts.
Import Store Grepctl StringOrder.

(** The three classes of the health report. *)
Definition has_dimension (n : nat) (r : record) : bool :=
  match embedding r with
  | Some e => Nat.eqb (List.length e) n
  | None => false
  end.

Definition is_null (r : record) : bool :=
  match embedding r with
  | Some _ => false
  | None => true
  end.

Definition of_modality (m : string) (r : record) : bool := modality r =? m.

Definition count (p : record -> bool) (t : table) : nat :=
  List.length (filter p t).

(** The report line that the claim describes for modality [m]. *)
Definition summarize (m : string) (t : table) : verify_row :=
  mk_verify_row m
    (count (of_modality m) t)
    (count (fun r => of_modality m r && has_dimension 768 r) t)
    (count (fun r => of_modality m r && is_null r) t)
    (count (fun r => of_modality m r && has_dimension 0 r) t).

Definition keys (rows : list verify_row) : list string := map v_modality rows.

Lemma count_app p t1 t2 : count p (t1 ++ t2)%list = count p t1 + count p t2.
Proof. unfold count. now rewrite filter_app, length_app. Qed.

Lemma count_false p t :
  (forall r, In r t -> p r = false) -> count p t = 0.
Proof.
  unfold count. induction t as [|r t IH]; intros H; simpl; [reflexivity|].
  rewrite (H r (or_introl eq_refl)). apply IH. intros; apply H; now right.
Qed.

Lemma row_of_summarize (r : record) :
  row_of r = summarize (modality r) [r].
Proof.
  unfold row_of, summarize, count, of_modality, has_dimension, is_null.
  simpl. rewrite String.eqb_refl. simpl.
  destruct (embedding r) as [e|]; simpl; [|reflexivity].
  destruct (Nat.eqb (List.length e) 768), (Nat.eqb (List.length e) 0);
    reflexivity.
Qed.

Lemma summarize_other (m : string) (t : table) (r : record) :
  modality r <> m -> summarize m (t ++ [r])%list = summarize m t.
Proof.
  intros Hne. unfold summarize. rewrite !count_app.
  assert (Hf : of_modality m r = false) by (now apply String.eqb_neq).
  unfold count at 2 4 6 8. simpl. rewrite Hf. simpl.
  now rewrite !Nat.add_0_r.
Qed.

Lemma accumulate_summarize (m : string) (t : table) (r : record) :
  modality r = m ->
  accumulate (summarize m t) r = summarize m (t ++ [r])%list.
Proof.
  intros <-. unfold accumulate. rewrite row_of_summarize.
  unfold summarize at 1 2 3 4 5 6 7 8 9. simpl.
  unfold summarize. now rewrite !count_app.
Qed.

Lemma keys_group_add (r : record) (rows : list verify_row) (m : string) :
  In m (keys (group_add r rows)) <-> m = modality r \/ In m (keys rows).
Proof.
  induction rows as [|g rows IH]; simpl.
  - intuition.
  - destruct (String.compare (modality r) (v_modality g)) eqn:Hc; simpl.
    + apply String.compare_eq_iff in Hc. rewrite Hc. intuition.
    + intuition.
    + rewrite IH. intuition.
Qed.

Lemma sorted_group_add (r : record) (rows : list verify_row) :
  StronglySorted lt (keys rows) ->
  StronglySorted lt (keys (group_add r rows)).
Proof.
  induction rows as [|g rows IH]; simpl; intros Hs.
  - repeat constructor.
  - inversion Hs as [|? ? Hs' Hall]; subst.
    destruct (String.compare (modality r) (v_modality g)) eqn:Hc; simpl.
    + now constructor.
    + constructor; [assumption|]. constructor; [exact Hc|].
      eapply Forall_impl; [|exact Hall]. intros k Hk.
      now apply (lt_trans _ (v_modality g)).
    + constructor; [now apply IH|].
      rewrite Forall_forall in *. intros k Hk.
      apply keys_group_add in Hk. destruct Hk as [->|Hk]; auto.
      now apply compare_gt_lt.
Qed.

(** Every row is the summary of the records of its modality seen so
    far. *)
Definition summarizes (seen : table) (rows : list verify_row) : Prop :=
  Forall (fun g => g = summarize (v_modality g) seen) rows.

Lemma count_and_zero (m : string) (q : record -> bool) (seen : table) :
  count (of_modality m) seen = 0 ->
  count (fun x => of_modality m x && q x) seen = 0.
Proof.
  unfold count. induction seen as [|x seen IH]; simpl; [reflexivity|].
  destruct (of_modality m x); simpl; [discriminate|exact IH].
Qed.

Lemma summarize_fresh (seen : table) (r : record) :
  count (of_modality (modality r)) seen = 0 ->
  row_of r = summarize (modality r) (seen ++ [r])%list.
Proof.
  intros Hz. rewrite row_of_summarize. unfold summarize.
  rewrite !count_app, Hz.
  now rewrite !(fun q => count_and_zero (modality r) q seen Hz).
Qed.

(** One more record: its group is updated or created, the other groups
    are unchanged. *)
Lemma summarizes_group_add (seen : table) (r : record) (rows : list verify_row) :
  StronglySorted lt (keys rows) ->
  summarizes seen rows ->
  In (modality r) (keys rows) \/ count (of_modality (modality r)) seen = 0 ->
  summarizes (seen ++ [r])%list (group_add r rows).
Proof.
  unfold summarizes.
  induction rows as [|g rows IH]; simpl; intros Hs Hsum Hcase.
  - destruct Hcase as [[]|Hz].
    constructor; [now apply summarize_fresh|constructor].
  - inversion Hs as [|? ? Hs' Hall]; subst.
    inversion Hsum as [|? ? Hg Hrest]; subst.
    rewrite Forall_forall in Hall, Hrest.
    destruct (String.compare (modality r) (v_modality g)) eqn:Hc.
    + apply String.compare_eq_iff in Hc.
      constructor.
      * simpl. rewrite Hg at 1. now apply accumulate_summarize.
      * rewrite Forall_forall. intros g' Hg'.
        rewrite summarize_other; [now apply Hrest|].
        rewrite Hc. apply compare_lt_neq.
        apply Hall. now apply in_map.
    + assert (Hz : count (of_modality (modality r)) seen = 0).
      { destruct Hcase as [[Heq|Hin]|Hz]; [| |exact Hz]; exfalso.
        - apply (compare_lt_neq _ _ Hc). now symmetry.
        - apply (compare_lt_neq (modality r) (modality r)); [|reflexivity].
          eapply lt_trans; [exact Hc|]. now apply Hall. }
      constructor; [now apply summarize_fresh|].
      rewrite Forall_forall. intros g' [<-|Hg'].
      * rewrite summarize_other; [exact Hg|]. now apply compare_lt_neq.
      * rewrite summarize_other; [now apply Hrest|].
        apply compare_lt_neq. eapply lt_trans; [exact Hc|].
        apply Hall. now apply in_map.
    + constructor.
      * simpl. rewrite summarize_other; [exact Hg|].
        apply not_eq_sym, compare_lt_neq. now apply compare_gt_lt.
      * apply IH; auto.
        -- now apply Forall_forall.
        -- destruct Hcase as [[Heq|Hin]|Hz]; auto.
           exfalso. rewrite Heq, compare_refl in Hc. discriminate.
Qed.

(** The state of the scan: the groups are in strictly ascending order of
    modality, there is one per modality seen, and each holds the counts
    of its modality. *)
Definition scan_inv (seen : table) (rows : list verify_row) : Prop :=
  StronglySorted lt (keys rows)
  /\ (forall m, In m (keys rows) <-> exists r, In r seen /\ modality r = m)
  /\ summarizes seen rows.

Lemma scan_inv_step (seen : table) (r : record) (rows : list verify_row) :
  scan_inv seen rows -> scan_inv (seen ++ [r])%list (group_add r rows).
Proof.
  intros (Hs & Hk & Hsum). split; [|split].
  - now apply sorted_group_add.
  - intros m. rewrite keys_group_add, Hk. split.
    + intros [->|(r0 & Hin & Hm)].
      * exists r. split; [apply in_or_app; right; now left|reflexivity].
      * exists r0. split; [apply in_or_app; now left|exact Hm].
    + intros (r0 & Hin & Hm). apply in_app_or in Hin.
      destruct Hin as [Hin|[<-|[]]]; [right; now exists r0|now left].
  - apply summarizes_group_add; auto.
    destruct (in_dec string_dec (modality r) (keys rows)) as [Hin|Hnin];
      [now left|right].
    apply count_false. intros r0 Hr0. apply String.eqb_neq. intros Heq.
    apply Hnin, Hk. now exists r0.
Qed.

Lemma scan_inv_fold (todo : table) :
  forall seen rows,
    scan_inv seen rows ->
    scan_inv (seen ++ todo)%list
             (fold_left (fun groups r => group_add r groups) todo rows).
Proof.
  induction todo as [|r todo IH]; intros seen rows Hinv; simpl.
  - now rewrite app_nil_r.
  - replace (seen ++ r :: todo)%list with ((seen ++ [r]) ++ todo)%list
      by (now rewrite <- app_assoc).
    apply IH. now apply scan_inv_step.
Qed.

(** C3: the health query returns one row per modality present in the
    corpus, in strictly ascending order of modality, and the row of a
    modality holds exactly four counts: its records, those whose
    embedding has length 768, those whose embedding is NULL and those
    whose embedding is present with length 0; [index_verify] prints the
    modality and these four counts, one line per row. *)
Theorem verify_reports_four_counts_per_modality (corpus : table) :
  StronglySorted lt (keys (verify_query corpus))
  /\ (forall m, In m (keys (verify_query corpus))
                <-> exists r, In r corpus /\ modality r = m)
  /\ (forall g, In g (verify_query corpus) ->
        total_docs g = count (of_modality (v_modality g)) corpus
        /\ valid_embeddings g
           = count (fun r => of_modality (v_modality g) r && has_dimension 768 r) corpus
        /\ null_embeddings g
           = count (fun r => of_modality (v_modality g) r && is_null r) corpus
        /\ empty_embeddings g
           = count (fun r => of_modality (v_modality g) r && has_dimension 0 r) corpus)
  /\ index_verify corpus
     = map (fun m => [m;
                      Py.str_nat (count (of_modality m) corpus);
                      Py.str_nat (count (fun r => of_modality m r && has_dimension 768 r) corpus);
                      Py.str_nat (count (fun r => of_modality m r && is_null r) corpus);
                      Py.str_nat (count (fun r => of_modality m r && has_dimension 0 r) corpus)])
           (keys (verify_query corpus)).
Proof.
  assert (Hinv : scan_inv corpus (verify_query corpus)).
  { unfold verify_query. apply (scan_inv_fold corpus [] []).
    split; [constructor|split; [|constructor]].
    intros m. simpl. split; [intros []|intros (r & [] & _)]. }
  destruct Hinv as (Hs & Hk & Hsum).
  unfold summarizes in Hsum. rewrite Forall_forall in Hsum.
  repeat split; try (apply Hk; assumption); try assumption.
  - now rewrite (Hsum g H) at 1.
  - now rewrite (Hsum g H) at 1.
  - now rewrite (Hsum g H) at 1.
  - now rewrite (Hsum g H) at 1.
  - unfold index_verify, keys. rewrite map_map. apply map_ext_in.
    intros g Hg. now rewrite (Hsum g Hg) at 2 3 4 5.
Qed.

End VerifyFacts.
(** ** fix stuck *)

Module FixStuckFacts.
Import Store Grepctl.

(** The record is within the modality filter of the command: every
    record when no (or an empty) modality was given. *)
Definition in_scope (m : option string) (r : record) : Prop :=
  match m with
  | Some s => s <> EmptyString -> modality r = s
  | None => True
  end.

Definition empty_embedding (r : record) : Prop := embedding r = Some [].

(** What the clearing phase does to one record. *)
Definition cleared_from (m : option string) (r r' : record) : Prop :=
  (empty_embedding r /\ in_scope m r -> r' = set_embedding None r)
  /\ (~ (empty_embedding r /\ in_scope m r) -> r' = r).

Lemma stuck_where_spec (m : option string) (r : record) :
  stuck_where m r = true <-> empty_embedding r /\ in_scope m r.
Proof.
  unfold stuck_where, empty_embedding, in_scope, array_length, sql_eq_nat.
  rewrite andb_true_iff.
  assert (H1 : sql_true
                 (option_map (fun v => Nat.eqb v 0)
                    (option_map (@List.length float64) (embedding r))) = true
               <-> embedding r = Some []).
  { destruct (embedding r) as [[|x e]|]; simpl; split;
      congruence || discriminate. }
  assert (H2 : (if Py.truthy m
                then match m with Some s => modality r =? s | None => true end
                else true) = true
               <-> match m with
                   | Some s => s <> EmptyString -> modality r = s
                   | None => True
                   end).
  { destruct m as [s|]; simpl; [|tauto].
    destruct (String.eqb_spec s EmptyString) as [->|Hne]; simpl.
    - split; [intros _ H; now destruct H|reflexivity].
    - rewrite String.eqb_eq. tauto. }
  tauto.
Qed.

Lemma clear_stuck_pointwise (m : option string) (t : table) :
  Forall2 (cleared_from m) t (clear_stuck m t).
Proof.
  unfold clear_stuck, clear_where.
  induction t as [|r t IH]; simpl; constructor; auto.
  unfold cleared_from. rewrite <- stuck_where_spec.
  destruct (stuck_where m r); split; congruence.
Qed.

Lemma clear_stuck_leaves_none (m : option string) (t : table) (r : record) :
  In r (clear_stuck m t) -> in_scope m r -> embedding r <> Some [].
Proof.
  unfold clear_stuck, clear_where. rewrite in_map_iff.
  intros (r0 & <- & _) Hscope.
  destruct (stuck_where m r0) eqn:Hw; simpl; [discriminate|].
  intros He. assert (stuck_where m r0 = true); [|congruence].
  apply stuck_where_spec. now split.
Qed.

(** How the command ends after the clearing, on the cleared corpus. *)
Definition ends_after_clearing (env : fix_env) (m : option string)
           (st : fix_state) (cleared : table)
           (st' : fix_state) (raised : option string) : Prop :=
  match script_exists env, launch env with
  | true, Exited _ =>
      corpus st' = fix_embeddings env cleared
      /\ trace st' = List.app (trace st)
                       [UpdateJob m; RunScript fix_embeddings_script]
      /\ raised = None
  | true, LaunchRaised e =>
      corpus st' = cleared
      /\ trace st' = List.app (trace st) [UpdateJob m]
      /\ raised = Some e
  | false, _ =>
      corpus st' = cleared
      /\ trace st' = List.app (trace st) [UpdateJob m]
      /\ raised = None
  end.

(** A corpus with a record that holds an embedding and a record whose
    embedding is empty. *)
Definition stuck_corpus : table :=
  [mk_record "gs://gcm-data-lake/multimodal-dataset/text/notes.txt" "text"
             (Some "file") (Some "notes") (Some [1%Z; 2%Z]);
   mk_record "gs://gcm-data-lake/multimodal-dataset/json/a.json" "json"
             None (Some "JSON File: a.json") (Some [])].

Definition or_true : string := "x' OR '1'='1".

(** The WHERE clause of the statement that [fix_stuck] builds from the
    option value [x' OR '1'='1]:
    [ARRAY_LENGTH(embedding) = 0 AND modality = 'x' OR '1'='1'].  AND
    binds tighter than OR, and a row on which the conjunction is false
    or NULL is selected by the comparison of the two literals. *)
Definition or_true_where (r : record) : bool :=
  (sql_true (sql_eq_nat (array_length (embedding r)) 0) && (modality r =? "x"))
  || ("1" =? "1").

(** BigQuery on that statement: the UPDATE sets the embedding of every
    row that the clause selects to NULL and reports these rows as
    affected. *)
Definition or_true_env : fix_env :=
  mk_fix_env None
             (fun filter corpus0 =>
                if filter =? "AND modality = 'x' OR '1'='1'"
                then Py.Ok (clear_where or_true_where corpus0,
                            Some (List.length (List.filter or_true_where corpus0)))
                else Py.Raise "Syntax error")
             false EmptyString (Exited true) (fun corpus0 => corpus0).

(** C4, at the input where the code departs from it: [fix_stuck] writes
    the option value [x' OR '1'='1] into the statement without escaping;
    the filter it builds is [AND modality = 'x' OR '1'='1'], and the
    record that holds a non-empty embedding loses it like the record
    whose embedding is empty: both are reported as reset. *)
Theorem quoted_modality_clears_every_embedding :
  modality_filter (Some or_true) = "AND modality = 'x' OR '1'='1'"
  /\ plain_modality (Some or_true) = false
  /\ map embedding stuck_corpus = [Some [1%Z; 2%Z]; Some []]
  /\ map embedding
         (corpus (fst (fix_stuck or_true_env (Some or_true)
                                 (mk_fix_state stuck_corpus [] []))))
     = [None; None]
  /\ In "âœ“ Reset 2 stuck embeddings"
        (console (fst (fix_stuck or_true_env (Some or_true)
                                 (mk_fix_state stuck_corpus [] [])))).
Proof.
  vm_compute. repeat split. right. left. reflexivity.
Qed.

(** X27: the two-phase repair for a plain option value: when the UPDATE job
    raises, the command raises with the corpus as it was and the script
    is not started; otherwise every record of the corpus whose
    embedding is present with length 0 (and whose modality is the given
    one, when a modality is given) has its embedding set to NULL, every
    other record is left as it is, and only then is the repair script
    started, on the cleared corpus; a launch that raises leaves the
    cleared corpus. *)
Theorem fix_stuck_clears_then_reembeds
        (env : fix_env) (m : option string) (st : fix_state) :
  plain_modality m = true ->
  match update_error env with
  | Some e =>
      snd (fix_stuck env m st) = Some e
      /\ corpus (fst (fix_stuck env m st)) = corpus st
      /\ trace (fst (fix_stuck env m st)) = trace st
  | None =>
      exists cleared,
        Forall2 (cleared_from m) (corpus st) cleared
        /\ (forall r, In r cleared -> in_scope m r -> embedding r <> Some [])
        /\ ends_after_clearing env m st cleared
             (fst (fix_stuck env m st)) (snd (fix_stuck env m st))
  end.
Proof.
  intros Hplain. unfold fix_stuck, update_job. rewrite Hplain.
  cbn [corpus trace console].
  destruct (update_error env) as [e|]; [repeat split|].
  exists (clear_stuck m (corpus st)).
  split; [apply clear_stuck_pointwise|].
  split; [apply clear_stuck_leaves_none|].
  unfold ends_after_clearing, run_python_script.
  destruct (script_exists env); [|cbn; repeat split].
  destruct (launch env) as [code|e]; cbn; repeat split.
  now rewrite <- List.app_assoc.
Qed.

(** The repair of the sample corpus for the modality [json], with the
    script on disk and [uv] missing. *)
Definition uv_missing : fix_env :=
  mk_fix_env None (fun _ _ => Py.Raise "not reached") true
             "/opt/grepctl/src/grepctl/scripts/fix_embeddings.py"
             (LaunchRaised "[Errno 2] No such file or directory: 'uv'")
             (fun corpus0 => corpus0).

Lemma fix_stuck_clears_then_reembeds_witness :
  exists cleared,
    Forall2 (cleared_from (Some "json")) stuck_corpus cleared
    /\ (forall r, In r cleared -> in_scope (Some "json") r ->
                  embedding r <> Some [])
    /\ ends_after_clearing uv_missing (Some "json")
         (mk_fix_state stuck_corpus [] []) cleared
         (fst (fix_stuck uv_missing (Some "json")
                         (mk_fix_state stuck_corpus [] [])))
         (snd (fix_stuck uv_missing (Some "json")
                         (mk_fix_state stuck_corpus [] []))).
Proof.
  apply (fix_stuck_clears_then_reembeds uv_missing (Some "json")
           (mk_fix_state stuck_corpus [] [])).
  reflexivity.
Defined.

End FixStuckFacts.

(** ** Facts about Python strings *)

Module PyFacts.

Lemma len_app (a b : string) : Py.len (a ++ b) = Py.len a + Py.len b.
Proof.
  unfold Py.len. induction a as [|c a IH]; simpl; [reflexivity|].
  now rewrite IH.
Qed.

Lemma len_slice_to (n : nat) (s : string) :
  Py.len (Py.slice_to n s) = Nat.min n (Py.len s).
Proof.
  unfold Py.len, Py.slice_to. revert s.
  induction n as [|n IH]; intros [|c s]; simpl; try reflexivity.
  now rewrite IH.
Qed.


Lemma slice_to_all (n : nat) (s : string) :
  Py.len s <= n -> Py.slice_to n s = s.
Proof.
  unfold Py.len, Py.slice_to. revert s.
  induction n as [|n IH]; intros [|c s]; simpl; intros H;
    try reflexivity; [lia|].
  rewrite IH; [reflexivity|lia].
Qed.

Lemma app_empty_r (s : string) : s ++ EmptyString = s.
Proof. induction s as [|c s IH]; simpl; [reflexivity|now rewrite IH]. Qed.

Lemma app_assoc (a b c : string) : (a ++ b) ++ c = a ++ b ++ c.
Proof. induction a as [|x a IH]; simpl; [reflexivity|now rewrite IH]. Qed.

(** [join] when one more part is appended to a list that is not
    empty. *)
Lemma join_snoc (sep : string) (parts : list string) (x : string) :
  parts <> [] ->
  Py.join sep (List.app parts [x]) = Py.join sep parts ++ sep ++ x.
Proof.
  unfold Py.join.
  induction parts as [|p parts IH]; intros Hne; [congruence|].
  destruct parts as [|q parts].
  - simpl. reflexivity.
  - change (List.app (p :: q :: parts) [x])
      with (p :: List.app (q :: parts) [x]).
    change (String.concat sep (p :: q :: parts))
      with (p ++ sep ++ String.concat sep (q :: parts)).
    assert (Hc : forall l, String.concat sep (p :: List.app (q :: parts) l)
                   = p ++ sep ++ String.concat sep (List.app (q :: parts) l))
      by reflexivity.
    rewrite Hc, IH by congruence.
    now rewrite !app_assoc.
Qed.



End PyFacts.

(** ** The extraction adapters *)

Module AdapterFacts.
Import Store Json IngestJsonCsv PyFacts.

Lemma len_truncated_marker : Py.len truncated_marker = 16.
Proof. reflexivity. Qed.

(** The CSV preview carries the marker exactly when the content was
    cut. *)
Lemma csv_preview_marker (csv_content : string) :
  csv_preview csv_content
  = if Nat.ltb 3000 (Py.len csv_content)
    then Py.slice_to 3000 csv_content ++ truncated_marker
    else csv_content.
Proof.
  unfold csv_preview. rewrite len_slice_to.
  destruct (Nat.ltb_spec 3000 (Py.len csv_content)) as [Hlt|Hle].
  - rewrite Nat.min_l by lia.
    destruct (Nat.ltb_spec 3000 (Py.len csv_content)); [reflexivity|lia].
  - rewrite Nat.min_r by lia. rewrite Nat.ltb_irrefl.
    now apply slice_to_all.
Qed.

(** The JSON dump carries the marker when its first 5000 characters are
    fewer than the characters of the dump without indentation. *)
Lemma json_str_marker (data : json) :
  json_str data
  = if Nat.ltb (Nat.min 5000 (Py.len (dumps_indent 2 0 data))) (Py.len (dumps data))
    then Py.slice_to 5000 (dumps_indent 2 0 data) ++ truncated_marker
    else Py.slice_to 5000 (dumps_indent 2 0 data).
Proof. unfold json_str. now rewrite len_slice_to. Qed.

(** The document of the failing input of C6: an array of 1000 zeros. *)
Definition thousand_zeros : json := JList (repeat (JInt 0) 1000).

(** C6, at the input where the code departs from it: the indented dump
    of an array of 1000 zeros has 5002 characters and is cut to 5000,
    the dump without indentation has 3000, and the text kept for search
    is the cut dump with no marker. *)
Theorem json_dump_cut_without_marker :
  Py.len (dumps_indent 2 0 thousand_zeros) = 5002
  /\ Py.len (dumps thousand_zeros) = 3000
  /\ json_str thousand_zeros = Py.slice_to 5000 (dumps_indent 2 0 thousand_zeros)
  /\ Py.len (json_str thousand_zeros) = 5000
  /\ Py.contains "[truncated]" (json_str thousand_zeros) = false.
Proof. vm_compute. repeat split. Qed.

(** *** Dependence on the clock *)

(** A store whose objects all hold the two characters [{}]: as JSON the
    empty object, as CSV a header line with the one column [{}] and no
    row. *)
Definition sample_services : services :=
  mk_services (fun _ _ => Py.Ok "{}") (fun _ => Py.Ok (JDict []))
              (fun _ => Py.Ok (Some ["{}"], [])) (fun _ => false).

(** C5 as stated fails: the same uri with the same content, read at two
    clock seconds, gives two different canonical texts. *)
Lemma canonical_text_depends_on_clock :
  fst (process_json_file sample_services "2025-01-01 00:00:00 UTC"
                         "gs://bucket/data/a.json")
  <> fst (process_json_file sample_services "2025-01-01 00:00:01 UTC"
                            "gs://bucket/data/a.json").
Proof.
  intros H.
  apply (f_equal (fun o => match o with
                           | Some t => Py.contains "00:00:01" t
                           | None => false
                           end)) in H.
  vm_compute in H. discriminate H.
Qed.

Lemma join_parts_then_indexed (parts : list string) (now : string) :
  parts <> [] ->
  Py.join Py.nl (List.app parts ["Indexed: " ++ now])
  = (Py.join Py.nl parts ++ Py.nl) ++ "Indexed: " ++ now.
Proof.
  intros Hne. rewrite join_snoc by exact Hne. now rewrite PyFacts.app_assoc.
Qed.

Lemma json_parts_split (uri : string) (data : json) :
  exists parts, parts <> [] /\
    forall now, json_content_parts uri data now
                = List.app parts ["Indexed: " ++ now].
Proof.
  unfold json_content_parts.
  match goal with
  | |- context [List.app ?h (List.app ?b [?x; ?y; ?z; _])] =>
      exists (List.app h (List.app b [x; y; z]))
  end.
  split; [discriminate|].
  intros now. rewrite <- !List.app_assoc. reflexivity.
Qed.

Lemma csv_parts_split (svc : services) (uri csv_content : string)
      (headers : option (list string)) (rows : list csv_row) :
  (exists e, forall now,
      csv_content_parts svc uri csv_content headers rows now = Py.Raise e)
  \/ (exists parts, parts <> [] /\
        forall now, csv_content_parts svc uri csv_content headers rows now
                    = Py.Ok (List.app parts ["Indexed: " ++ now])).
Proof.
  unfold csv_content_parts.
  destruct rows as [|row rows].
  - right.
    match goal with
    | |- context [Py.Ok (List.app ?h (List.app ?c (List.app ?n [?x; ?y; ?z; _])))] =>
        exists (List.app h (List.app c (List.app n [x; y; z])))
    end.
    split; [discriminate|].
    intros now. rewrite <- !List.app_assoc. reflexivity.
  - destruct headers as [hs|].
    + right.
      match goal with
      | |- context [Py.Ok (List.app ?h (List.app ?c (List.app ?n
                      (List.app ?a (List.app ?sm (List.app ?nu [?x; ?y; ?z; _]))))))] =>
          exists (List.app h (List.app c (List.app n
                    (List.app a (List.app sm (List.app nu [x; y; z]))))))
      end.
      split; [destruct hs; discriminate|].
      intros now. rewrite <- !List.app_assoc. reflexivity.
    + left. eexists. intros now. reflexivity.
Qed.

Lemma vision_parts_split (uri : string) (a : CompleteVisionAnalysis.annotations) :
  exists parts, parts <> [] /\
    forall now, CompleteVisionAnalysis.description_parts uri a now
                = List.app parts ["Indexed: " ++ now].
Proof.
  unfold CompleteVisionAnalysis.description_parts.
  match goal with
  | |- context [List.app ?h (List.app ?l (List.app ?o (List.app ?t
                  (List.app ?c (List.app ?g [?x; _])))))] =>
      exists (List.app h (List.app l (List.app o (List.app t
                (List.app c (List.app g [x]))))))
  end.
  split; [discriminate|].
  intros now. rewrite <- !List.app_assoc. reflexivity.
Qed.

(** C5 as amended: for a uri and its raw content, the outcome of an
    adapter is fixed up to the clock: it fails at every clock reading
    with the same log, or it succeeds at every clock reading with one
    and the same text followed by the line "Indexed: " and the clock
    reading, which ends the text.  This holds for the JSON adapter, the
    CSV adapter and the image description. *)
Theorem canonical_text_fixed_up_to_indexed_line :
  (forall svc uri, exists (body : option string) (logged : list string),
      forall now, process_json_file svc now uri
                  = (option_map (fun b => b ++ "Indexed: " ++ now) body, logged))
  /\ (forall svc uri, exists (body : option string) (logged : list string),
        forall now, process_csv_file svc now uri
                    = (option_map (fun b => b ++ "Indexed: " ++ now) body, logged))
  /\ (forall uri a, exists body : string,
        forall now,
          Py.join Py.nl (CompleteVisionAnalysis.description_parts uri a now)
          = body ++ "Indexed: " ++ now).
Proof.
  split; [|split].
  - intros svc uri. unfold process_json_file.
    destruct (Py.index (Py.split "/" uri) 2) as [bucket_name|e]; cbn [Py.bind];
      [|exists None; eexists; reflexivity].
    destruct (download_as_text svc bucket_name _) as [content|e]; cbn [Py.bind];
      [|exists None; eexists; reflexivity].
    destruct (json_loads svc content) as [data|e]; cbn [Py.bind];
      [|exists None; eexists; reflexivity].
    destruct (json_parts_split uri data) as (parts & Hne & Hparts).
    exists (Some (Py.join Py.nl parts ++ Py.nl)), [].
    intros now. rewrite Hparts, join_parts_then_indexed by exact Hne.
    reflexivity.
  - intros svc uri. unfold process_csv_file.
    destruct (Py.index (Py.split "/" uri) 2) as [bucket_name|e]; cbn [Py.bind];
      [|exists None; eexists; reflexivity].
    destruct (download_as_text svc bucket_name _) as [content|e]; cbn [Py.bind];
      [|exists None; eexists; reflexivity].
    destruct (dict_reader svc content) as [[headers rows]|e]; cbn [Py.bind fst snd];
      [|exists None; eexists; reflexivity].
    destruct (csv_parts_split svc uri content headers rows)
      as [(e & He)|(parts & Hne & Hparts)].
    + exists None. eexists. intros now. rewrite He. reflexivity.
    + exists (Some (Py.join Py.nl parts ++ Py.nl)), [].
      intros now. rewrite Hparts. cbn [Py.bind].
      rewrite join_parts_then_indexed by exact Hne. reflexivity.
  - intros uri a.
    destruct (vision_parts_split uri a) as (parts & Hne & Hparts).
    exists (Py.join Py.nl parts ++ Py.nl).
    intros now. rewrite Hparts. now apply join_parts_then_indexed.
Qed.

(** *** Length of the canonical text *)
















End AdapterFacts.

(** ** SELECT DISTINCT ... ORDER BY *)

Module OrderFacts.
Import StringOrder.

Lemma in_insert_distinct (x y : string) (l : list string) :
  In y (Py.insert_distinct x l) <-> y = x \/ In y l.
Proof.
  induction l as [|z l IH]; simpl.
  - intuition.
  - destruct (String.compare x z) eqn:Hc; simpl.
    + apply String.compare_eq_iff in Hc. subst. intuition.
    + intuition.
    + rewrite IH. intuition.
Qed.

Lemma sorted_insert_distinct (x : string) (l : list string) :
  StronglySorted lt l -> StronglySorted lt (Py.insert_distinct x l).
Proof.
  induction l as [|z l IH]; simpl; intros Hs.
  - repeat constructor.
  - inversion Hs as [|? ? Hs' Hall]; subst.
    destruct (String.compare x z) eqn:Hc.
    + exact Hs.
    + constructor; [exact Hs|]. constructor; [exact Hc|].
      eapply Forall_impl; [|exact Hall]. intros k Hk.
      now apply (lt_trans _ z).
    + constructor; [now apply IH|].
      rewrite Forall_forall in *. intros k Hk.
      apply in_insert_distinct in Hk. destruct Hk as [->|Hk]; auto.
      now apply compare_gt_lt.
Qed.

Lemma in_sorted_distinct (y : string) (l : list string) :
  In y (Py.sorted_distinct l) <-> In y l.
Proof.
  unfold Py.sorted_distinct. induction l as [|x l IH]; simpl; [tauto|].
  rewrite in_insert_distinct, IH. intuition.
Qed.

Lemma sorted_sorted_distinct (l : list string) :
  StronglySorted lt (Py.sorted_distinct l).
Proof.
  unfold Py.sorted_distinct. induction l as [|x l IH]; simpl.
  - constructor.
  - now apply sorted_insert_distinct.
Qed.

Lemma sorted_filter (p : string -> bool) (l : list string) :
  StronglySorted lt l -> StronglySorted lt (filter p l).
Proof.
  induction 1 as [|x l Hs IH Hall]; simpl; [constructor|].
  destruct (p x); [|exact IH].
  constructor; [exact IH|].
  rewrite Forall_forall in *. intros y Hy. apply filter_In in Hy.
  now apply Hall.
Qed.

(** In a strictly ascending list, what comes first is below what comes
    after. *)
Lemma sorted_firstn_skipn (n : nat) (l : list string) :
  StronglySorted lt l ->
  forall u v, In u (firstn n l) -> In v (skipn n l) -> lt u v.
Proof.
  intros Hs. revert n.
  induction Hs as [|x l Hs IH Hall]; intros n u v Hu Hv.
  - rewrite firstn_nil in Hu. destruct Hu.
  - destruct n as [|n]; [destruct Hu|]. simpl in Hu, Hv.
    destruct Hu as [<-|Hu].
    + rewrite Forall_forall in Hall. apply Hall.
      now apply (ListFacts.in_skipn n).
    + now apply (IH n).
Qed.

Lemma in_insert_sorted (x y : string) (l : list string) :
  In y (Py.insert_sorted x l) <-> y = x \/ In y l.
Proof.
  induction l as [|z l IH]; simpl.
  - intuition.
  - destruct (String.leb x z); simpl; [intuition|].
    rewrite IH. intuition.
Qed.

Lemma in_sorted (y : string) (l : list string) : In y (Py.sorted l) <-> In y l.
Proof.
  unfold Py.sorted. induction l as [|x l IH]; simpl; [tauto|].
  rewrite in_insert_sorted, IH. intuition.
Qed.

End OrderFacts.

(** ** The thread pools of ingest_json_csv.py *)

Module PoolFacts.
Import Store IngestJsonCsv ListFacts.

Section Pool.
Variable process : string -> string -> option string * list string.
Variable clock : string -> string.
Variables modality kind : string.

  (** The adapter returned a text for this uri. *)
Definition succeeded (uri : string) : bool :=
    Py.truthy (fst (process (clock uri) uri)).

Definition document_of (uri : string) : record :=
    mk_record uri modality None (fst (process (clock uri) uri)) None.

  (** What the main thread logs for a uri. *)
Definition lines_of (uri : string) : list string :=
    List.app (snd (process (clock uri) uri))
      [(if succeeded uri then "✓ Processed " else "✗ Failed ")
         ++ kind ++ ": " ++ Py.last_part (Py.split "/" uri)].

Lemma collect_step (b : batch) (u : string) :
    collect process clock modality kind b u
    = mk_batch (List.app (calls b) [u])
               (List.app (documents b)
                  (if succeeded u then [document_of u] else []))
               (List.app (batch_log b) (lines_of u)).
  Proof.
    unfold collect, succeeded, lines_of, document_of, succeeded.
    destruct (process (clock u) u) as [content lines]. simpl.
    destruct (Py.truthy content); simpl; [reflexivity|].
    now rewrite app_nil_r.
  Qed.

Lemma collect_fold (uris : list string) :
    forall b,
      fold_left (collect process clock modality kind) uris b
      = mk_batch (List.app (calls b) uris)
                 (List.app (documents b) (map document_of (filter succeeded uris)))
                 (List.app (batch_log b) (flat_map lines_of uris)).
  Proof.
    induction uris as [|u uris IH]; intros b.
    - simpl. rewrite !app_nil_r. now destruct b.
    - cbn [fold_left]. rewrite IH, collect_step. cbn [calls documents batch_log].
      rewrite <- !List.app_assoc. cbn [filter flat_map].
      destruct (succeeded u); reflexivity.
  Qed.

Lemma run_pool_spec (picks : list nat) (uris : list string) :
    run_pool process clock picks modality kind uris
    = mk_batch (Py.as_completed picks (firstn 50 uris))
               (map document_of
                    (filter succeeded (Py.as_completed picks (firstn 50 uris))))
               (flat_map lines_of (Py.as_completed picks (firstn 50 uris))).
  Proof. unfold run_pool. now rewrite collect_fold. Qed.

End Pool.

End PoolFacts.

(** ** ingest_json_csv.py: main *)

Module MainFacts.
Import Store IngestJsonCsv ListFacts OrderFacts PoolFacts StringOrder.

Definition json_pool (env : run_env) (corpus : table) : batch :=
  run_pool (process_json_file (svc env)) (clock env) (json_picks env)
           "json" "JSON" (new_uris (obj_json env) (existing_uris corpus)).

Definition csv_pool (env : run_env) (corpus : table) : batch :=
  run_pool (process_csv_file (svc env)) (clock env) (csv_picks env)
           "csv" "CSV" (new_uris (obj_csv env) (existing_uris corpus)).

Lemma main_json_batch env corpus : json_batch (main env corpus) = json_pool env corpus.
Proof.
  unfold main, json_pool.
  destruct (insert_to_bigquery _ _ _) as [[[c n] l] [e|]]; reflexivity.
Qed.

Lemma main_csv_batch env corpus : csv_batch (main env corpus) = csv_pool env corpus.
Proof.
  unfold main, csv_pool.
  destruct (insert_to_bigquery _ _ _) as [[[c n] l] [e|]]; reflexivity.
Qed.

Lemma main_corpus_after env corpus :
  corpus_after (main env corpus)
  = fst (fst (fst (insert_to_bigquery env
                     (List.app (documents (json_pool env corpus))
                               (documents (csv_pool env corpus)))
                     corpus))).
Proof.
  unfold main, json_pool, csv_pool.
  destruct (insert_to_bigquery _ _ _) as [[[c n] l] [e|]]; reflexivity.
Qed.

Lemma in_stored_rows (flags : list bool) (rows : list record) (r : record) :
  In r (stored_rows flags rows) -> In r rows.
Proof.
  revert rows. induction flags as [|flag flags IH]; intros [|row rows] Hin;
    cbn [stored_rows] in Hin; try (now destruct Hin).
  destruct flag; [destruct Hin as [<-|Hin]; [now left|]|];
    right; now apply IH.
Qed.

Lemma length_stored_rows (flags : list bool) (rows : list record) :
  List.length (stored_rows flags rows) <= List.length rows.
Proof.
  revert rows. induction flags as [|flag flags IH]; intros [|row rows];
    cbn [stored_rows List.length]; try lia.
  specialize (IH rows). destruct flag; cbn [List.length]; lia.
Qed.

Lemma stored_rows_all (rows : list record) :
  stored_rows (repeat true (List.length rows)) rows = rows.
Proof.
  induction rows as [|row rows IH]; [reflexivity|].
  cbn [List.length repeat stored_rows]. now rewrite IH.
Qed.

(** The insertion appends rows that it was given, in their order. *)
Lemma insert_appends env docs corpus :
  exists flags,
    fst (fst (fst (insert_to_bigquery env docs corpus)))
    = List.app corpus
        (stored_rows flags
           (map (fun doc => mk_record (uri doc) (modality doc) None
                                      (text_content doc) None) docs)).
Proof.
  unfold insert_to_bigquery. destruct docs as [|d docs].
  - exists []. cbn. now rewrite app_nil_r.
  - destruct (insert_rows_json env _) as [|errors flags|msg flags];
      cbn [fst]; [|now exists flags|now exists flags].
    eexists. now rewrite stored_rows_all.
Qed.

(** The uri is the uri of a JSON or CSV record of the corpus. *)
Definition ingested (corpus : table) (u : string) : Prop :=
  exists r, In r corpus /\ uri r = u
            /\ (modality r = "json" \/ modality r = "csv").

Lemma in_existing_uris (corpus : table) (u : string) :
  In u (existing_uris corpus) <-> ingested corpus u.
Proof.
  unfold existing_uris, ingested. rewrite in_map_iff. split.
  - intros (r & Hu & Hr). apply filter_In in Hr. destruct Hr as [Hr Hm].
    exists r. split; [exact Hr|]. split; [exact Hu|].
    apply orb_true_iff in Hm. now rewrite !String.eqb_eq in Hm.
  - intros (r & Hr & Hu & Hm). exists r. split; [exact Hu|].
    apply filter_In. split; [exact Hr|].
    apply orb_true_iff. now rewrite !String.eqb_eq.
Qed.

Lemma in_new_uris (obj existing : list string) (u : string) :
  In u (new_uris obj existing) <-> In u obj /\ ~ In u existing.
Proof.
  unfold new_uris. rewrite filter_In, in_sorted_distinct.
  rewrite Bool.negb_true_iff, mem_false. tauto.
Qed.

Lemma sorted_new_uris (obj existing : list string) :
  StronglySorted lt (new_uris obj existing).
Proof. apply sorted_filter, sorted_sorted_distinct. Qed.

Section OnePool.
Variable process : string -> string -> option string * list string.
Variable clock : string -> string.
Variables (picks : list nat) (modality kind : string) (uris : list string).

Let pool := run_pool process clock picks modality kind uris.

Lemma pool_calls : Permutation (calls pool) (firstn 50 uris).
  Proof.
    unfold pool. rewrite run_pool_spec. cbn [calls]. apply as_completed_perm.
  Qed.

Lemma pool_documents_length : List.length (documents pool) <= 50.
  Proof.
    unfold pool. rewrite run_pool_spec. cbn [documents]. rewrite length_map.
    etransitivity; [apply filter_length_le|].
    rewrite (Permutation_length (as_completed_perm picks (firstn 50 uris))).
    apply firstn_le_length.
  Qed.

Lemma pool_documents_in (d : record) :
    In d (documents pool) ->
    Store.modality d = modality /\ In (uri d) (firstn 50 uris)
    /\ source d = None /\ embedding d = None
    /\ Py.truthy (text_content d) = true.
  Proof.
    unfold pool. rewrite run_pool_spec. cbn [documents]. rewrite in_map_iff.
    intros (u & <- & Hu). apply filter_In in Hu. destruct Hu as [Hu Hok].
    simpl. repeat split; try exact Hok.
    eapply Permutation_in; [apply as_completed_perm|exact Hu].
  Qed.

End OnePool.

(** C9: one run of [main] hands to the JSON adapter the first 50 of the
    JSON uris that are not ingested yet (no JSON or CSV record of the
    corpus has the uri), taken in ascending order without repetition,
    and to the CSV adapter the first 50 such CSV uris; every uri past
    the first 50 is above the ones handed over, is not handed over and
    gets no record; the run appends at most 100 records to the
    corpus. *)
Theorem main_processes_first_50_of_each (env : run_env) (corpus : table) :
  let pending_json := new_uris (obj_json env) (existing_uris corpus) in
  let pending_csv := new_uris (obj_csv env) (existing_uris corpus) in
  let r := main env corpus in
  (forall u, In u pending_json
             <-> In u (obj_json env) /\ ~ ingested corpus u)
  /\ (forall u, In u pending_csv
                <-> In u (obj_csv env) /\ ~ ingested corpus u)
  /\ StronglySorted lt pending_json
  /\ StronglySorted lt pending_csv
  /\ Permutation (calls (json_batch r)) (firstn 50 pending_json)
  /\ Permutation (calls (csv_batch r)) (firstn 50 pending_csv)
  /\ (forall u v, In u (calls (json_batch r)) -> In v (skipn 50 pending_json) -> lt u v)
  /\ (forall u v, In u (calls (csv_batch r)) -> In v (skipn 50 pending_csv) -> lt u v)
  /\ exists added,
      corpus_after r = List.app corpus added
      /\ List.length added <= 100
      /\ (forall d, In d added ->
            (modality d = "json" /\ In (uri d) (firstn 50 pending_json))
            \/ (modality d = "csv" /\ In (uri d) (firstn 50 pending_csv)))
      /\ (forall v d, In v (skipn 50 pending_json) -> In d added ->
            modality d = "json" -> uri d <> v)
      /\ (forall v d, In v (skipn 50 pending_csv) -> In d added ->
            modality d = "csv" -> uri d <> v).
Proof.
  intros pending_json pending_csv r.
  assert (Hsj : StronglySorted lt pending_json) by apply sorted_new_uris.
  assert (Hsc : StronglySorted lt pending_csv) by apply sorted_new_uris.
  assert (Hpj : Permutation (calls (json_batch r)) (firstn 50 pending_json)).
  { unfold r. rewrite main_json_batch. apply pool_calls. }
  assert (Hpc : Permutation (calls (csv_batch r)) (firstn 50 pending_csv)).
  { unfold r. rewrite main_csv_batch. apply pool_calls. }
  split.
  { intros u. unfold pending_json. rewrite in_new_uris, in_existing_uris.
    reflexivity. }
  split.
  { intros u. unfold pending_csv. rewrite in_new_uris, in_existing_uris.
    reflexivity. }
  split; [exact Hsj|]. split; [exact Hsc|].
  split; [exact Hpj|]. split; [exact Hpc|].
  split.
  { intros u v Hu Hv. apply (sorted_firstn_skipn 50 pending_json Hsj); auto.
    eapply Permutation_in; eassumption. }
  split.
  { intros u v Hu Hv. apply (sorted_firstn_skipn 50 pending_csv Hsc); auto.
    eapply Permutation_in; eassumption. }
  set (docs := List.app (documents (json_pool env corpus))
                        (documents (csv_pool env corpus))).
  assert (Hdocs : forall d, In d docs ->
            (modality d = "json" /\ In (uri d) (firstn 50 pending_json))
            \/ (modality d = "csv" /\ In (uri d) (firstn 50 pending_csv))).
  { intros d Hd. apply in_app_or in Hd. destruct Hd as [Hd|Hd].
    - left. apply pool_documents_in in Hd. tauto.
    - right. apply pool_documents_in in Hd. tauto. }
  assert (Hlen : List.length docs <= 100).
  { unfold docs. rewrite length_app.
    pose proof (pool_documents_length (process_json_file (svc env)) (clock env)
                  (json_picks env) "json" "JSON" pending_json).
    pose proof (pool_documents_length (process_csv_file (svc env)) (clock env)
                  (csv_picks env) "csv" "CSV" pending_csv).
    unfold json_pool, csv_pool. fold pending_json pending_csv. lia. }
  set (rows := map (fun doc => mk_record (uri doc) (modality doc) None
                                         (text_content doc) None) docs).
  assert (Hrows : forall d, In d rows ->
            (modality d = "json" /\ In (uri d) (firstn 50 pending_json))
            \/ (modality d = "csv" /\ In (uri d) (firstn 50 pending_csv))).
  { intros d Hd. apply in_map_iff in Hd. destruct Hd as (d0 & <- & Hd0).
    simpl. now apply Hdocs. }
  assert (Hfar : forall pend kind (added : list record),
            StronglySorted lt pend ->
            (forall d, In d added -> modality d = kind -> In (uri d) (firstn 50 pend)) ->
            forall v d, In v (skipn 50 pend) -> In d added ->
                        modality d = kind -> uri d <> v).
  { intros pend kind added Hs Hin v d Hv Hd Hk.
    apply compare_lt_neq.
    apply (sorted_firstn_skipn 50 pend Hs); auto. }
  destruct (insert_appends env docs corpus) as (flags & Hins).
  fold rows in Hins.
  assert (Hadded : forall d, In d (stored_rows flags rows) ->
            (modality d = "json" /\ In (uri d) (firstn 50 pending_json))
            \/ (modality d = "csv" /\ In (uri d) (firstn 50 pending_csv))).
  { intros d Hd. apply Hrows. now apply (in_stored_rows flags). }
  exists (stored_rows flags rows). unfold r. rewrite main_corpus_after. fold docs.
  split; [exact Hins|].
  split.
  { pose proof (length_stored_rows flags rows) as Hl.
    unfold rows in Hl at 2. rewrite length_map in Hl. lia. }
  split; [exact Hadded|].
  split; apply Hfar; auto; intros d Hd Hk;
    destruct (Hadded d Hd) as [[Hm Hu]|[Hm Hu]]; auto; congruence.
Qed.

End MainFacts.

(** ** UPDATE ... SET text_content ... WHERE uri = ... *)

Module StoreFacts.
Import Store.

(** The key of the claim of uniqueness. *)
Definition key (r : record) : string * string := (uri r, modality r).

(** A record with an embedding has a text. *)
Definition embedded_has_text (r : record) : Prop :=
  embedding r <> None -> text_content r <> None.

(** A sequence of single-uri updates, applied in order. *)
Definition apply_updates (updates : list (string * string)) (t : table) : table :=
  fold_left (fun c up => update_text_where_uri (fst up) (snd up) c) updates t.

(** The same sequence seen from one record. *)
Definition update_record (updates : list (string * string)) (r : record) : record :=
  fold_left (fun r0 up => if uri r0 =? fst up
                          then set_text_content (Some (snd up)) r0 else r0)
            updates r.

Lemma apply_updates_map (updates : list (string * string)) :
  forall t, apply_updates updates t = map (update_record updates) t.
Proof.
  unfold apply_updates, update_record.
  induction updates as [|up updates IH]; intros t; simpl.
  - now rewrite map_id.
  - rewrite IH. unfold update_text_where_uri. now rewrite map_map.
Qed.

Lemma update_record_fields (updates : list (string * string)) :
  forall r, uri (update_record updates r) = uri r
            /\ modality (update_record updates r) = modality r
            /\ source (update_record updates r) = source r
            /\ embedding (update_record updates r) = embedding r.
Proof.
  unfold update_record.
  induction updates as [|up updates IH]; intros r; simpl; [tauto|].
  destruct (IH (if uri r =? fst up then set_text_content (Some (snd up)) r else r))
    as (H1 & H2 & H3 & H4).
  rewrite H1, H2, H3, H4. destruct (uri r =? fst up); simpl; tauto.
Qed.

Lemma update_record_untouched (updates : list (string * string)) :
  forall r, ~ In (uri r) (map fst updates) -> update_record updates r = r.
Proof.
  unfold update_record.
  induction updates as [|up updates IH]; intros r Hnin; simpl; [reflexivity|].
  simpl in Hnin.
  destruct (String.eqb_spec (uri r) (fst up)) as [Heq|Hne].
  - exfalso. apply Hnin. left. now symmetry.
  - apply IH. tauto.
Qed.

(** When every update of its uri carries the same text, the record of an
    updated uri ends with that text. *)
Lemma update_record_text (updates : list (string * string)) :
  forall r text,
    (forall text', In (uri r, text') updates -> text' = text) ->
    In (uri r, text) updates ->
    text_content (update_record updates r) = Some text.
Proof.
  induction updates as [|up updates IH]; intros r text Hsame Hin; [destruct Hin|].
  change (update_record (up :: updates) r)
    with (update_record updates
            (if uri r =? fst up then set_text_content (Some (snd up)) r else r)).
  destruct (in_dec string_dec (uri r) (map fst updates)) as [Hlater|Hlast].
  - apply in_map_iff in Hlater. destruct Hlater as ([u t] & Hu & Hlater).
    simpl in Hu. subst u.
    assert (t = text) by (apply Hsame; now right). subst t.
    destruct (uri r =? fst up) eqn:Heq.
    + apply (IH (set_text_content (Some (snd up)) r)); simpl; auto.
      intros t' Ht'. apply Hsame. now right.
    + apply IH; auto. intros t' Ht'. apply Hsame. now right.
  - destruct Hin as [->|Hin].
    + simpl. rewrite String.eqb_refl.
      rewrite update_record_untouched; [reflexivity|exact Hlast].
    + exfalso. apply Hlast.
      change (uri r) with (fst (uri r, text)). now apply in_map.
Qed.

Lemma nodup_same_text (updates : list (string * string)) (u text text' : string) :
  NoDup (map fst updates) ->
  In (u, text) updates -> In (u, text') updates -> text' = text.
Proof.
  induction updates as [|up updates IH]; intros Hnd H1 H2; [destruct H1|].
  simpl in Hnd. inversion Hnd as [|? ? Hfresh Hnd']; subst.
  destruct H1 as [->|H1], H2 as [H2|H2].
  - now inversion H2.
  - exfalso. apply Hfresh. simpl.
    change u with (fst (u, text')). now apply in_map.
  - exfalso. apply Hfresh. rewrite H2. simpl.
    change u with (fst (u, text)). now apply in_map.
  - now apply IH.
Qed.

Lemma update_record_has_text (updates : list (string * string)) (r : record) :
  embedded_has_text r -> embedded_has_text (update_record updates r).
Proof.
  unfold update_record. revert r.
  induction updates as [|up updates IH]; intros r Hr; simpl; [exact Hr|].
  apply IH. destruct (uri r =? fst up); [|exact Hr].
  intros _. discriminate.
Qed.


End StoreFacts.

(** ** update_batch_in_bigquery and update_individual *)

Module UpdateFacts.
Import Store UpdateAllImagesVision StoreFacts.

(** The single-uri UPDATE of this result goes through. *)
Definition persisted (j : jobs) (r : analysis) : bool :=
  match individual_job j (a_uri r) with
  | None => true
  | Some _ => false
  end.

Definition update_of (r : analysis) : string * string := (a_uri r, text_of r).

Lemma fallback_corpus (j : jobs) (rs : list analysis) :
  forall st,
    corpus (fold_left (fun s r => update_individual j (a_uri r) (text_of r) s) rs st)
    = apply_updates (map update_of (filter (persisted j) rs)) (corpus st).
Proof.
  induction rs as [|r rs IH]; intros st; simpl; [reflexivity|].
  rewrite IH. unfold update_individual, persisted.
  destruct (individual_job j (a_uri r)); reflexivity.
Qed.

(** What the fallback leaves of one record of the corpus. *)
Definition fallback_outcome (j : jobs) (results : list analysis)
           (before after : record) : Prop :=
  uri after = uri before
  /\ modality after = modality before
  /\ source after = source before
  /\ embedding after = embedding before
  /\ (forall r, In r results ->
                a_success r = true ->
                Py.truthy (a_text_content r) = true ->
                a_uri r = uri before ->
                persisted j r = true ->
                text_content after = a_text_content r)
  /\ ((forall r, In r (successful_results results) ->
                 persisted j r = true -> a_uri r <> uri before) ->
      after = before).

(** C10: when the combined UPDATE of a batch raises, the writer issues
    the single-uri UPDATE of every successfully analysed result of the
    batch, and every record of the corpus whose uri is that of such a
    result, and whose own UPDATE goes through, holds the text of that
    result afterwards; the other columns of every record, and the records
    of other uris, are as before. *)
Theorem batch_failure_falls_back_to_individual_updates
        (j : jobs) (results : list analysis) (st : state) (e : string) :
  batch_job j (map value_of (successful_results results)) = Py.Raise e ->
  NoDup (map a_uri (successful_results results)) ->
  Forall2 (fallback_outcome j results)
          (corpus st) (corpus (update_batch_in_bigquery j results st)).
Proof.
  intros Hraise Hnd. unfold update_batch_in_bigquery, fallback_outcome.
  destruct (successful_results results) as [|r0 rs] eqn:Hsucc.
  - (* no successful result: nothing to write *)
    clear - Hsucc. induction (corpus st) as [|r t IH]; constructor; auto.
    repeat split; auto.
    intros r0 Hin Hs Ht. exfalso.
    assert (H : In r0 (successful_results results)).
    { apply filter_In. split; [exact Hin|]. now rewrite Hs, Ht. }
    rewrite Hsucc in H. destruct H.
  - rewrite Hraise, fallback_corpus. cbn [corpus].
    rewrite apply_updates_map.
    set (ups := map update_of (filter (persisted j) (r0 :: rs))).
    assert (Hups : NoDup (map fst ups)).
    { unfold ups. rewrite map_map. cbn [update_of fst].
      clear - Hnd. induction (r0 :: rs) as [|a l IH]; [constructor|].
      simpl in Hnd. inversion Hnd as [|? ? Hfresh Hnd']; subst.
      cbn [filter]. destruct (persisted j a); [|now apply IH].
      cbn [map]. constructor; [|now apply IH].
      intros Hin. apply Hfresh. apply in_map_iff in Hin.
      destruct Hin as (b & Hb & Hin). apply filter_In in Hin.
      rewrite <- Hb. apply in_map. tauto. }
    induction (corpus st) as [|r t IH]; constructor; auto.
    destruct (update_record_fields ups r) as (H1 & H2 & H3 & H4).
    repeat split; auto.
    + intros a Hin Hs Ht Hu Hp.
      assert (Ha : In a (r0 :: rs)).
      { rewrite <- Hsucc. apply filter_In. split; [exact Hin|]. now rewrite Hs, Ht. }
      assert (Htext : a_text_content a = Some (text_of a)).
      { unfold text_of. destruct (a_text_content a); [reflexivity|discriminate Ht]. }
      assert (Hin' : In (uri r, text_of a) ups).
      { unfold ups. rewrite <- Hu.
        change (a_uri a, text_of a) with (update_of a). apply in_map.
        apply filter_In. tauto. }
      rewrite Htext. apply update_record_text; [|exact Hin'].
      intros text' Ht'. now apply (nodup_same_text ups (uri r)).
    + intros Hnone. apply update_record_untouched.
      unfold ups. rewrite map_map. intros Hin. apply in_map_iff in Hin.
      destruct Hin as (a & Ha & Hin). apply filter_In in Hin.
      apply (Hnone a); tauto.
Qed.

(** A batch of two analysed images and one failed analysis, a combined
    UPDATE that raises, and a single-uri UPDATE that fails for one of the
    two. *)
Definition sample_jobs : jobs :=
  mk_jobs (fun _ => Py.Raise "Syntax error: Unexpected string literal")
          (fun u => if u =? "gs://bucket/images/b.png" then Some "timeout" else None).

Definition sample_results : list analysis :=
  [mk_analysis "gs://bucket/images/a.png" (Some "Image File: a.png") true;
   mk_analysis "gs://bucket/images/b.png" (Some "Image File: b.png") true;
   mk_analysis "gs://bucket/images/c.png" None false].

Definition sample_state : state :=
  mk_state [mk_record "gs://bucket/images/a.png" "image" None None None;
            mk_record "gs://bucket/images/b.png" "image" None None None;
            mk_record "gs://bucket/images/c.png" "image" None None None]
           [].

(** The fallback at the sample batch. *)
Lemma batch_failure_falls_back_witness :
  Forall2 (fallback_outcome sample_jobs sample_results)
          (corpus sample_state)
          (corpus (update_batch_in_bigquery sample_jobs sample_results sample_state)).
Proof.
  apply (batch_failure_falls_back_to_individual_updates
           sample_jobs sample_results sample_state
           "Syntax error: Unexpected string literal").
  - reflexivity.
  - simpl. repeat constructor; simpl; intuition discriminate.
Defined.

End UpdateFacts.

(** ** complete_vision_analysis.py: the loop of main *)

Module VisionFacts.
Import Store CompleteVisionAnalysis StoreFacts.

(** The exception that ends the work on one image, if any. *)
Definition failure (svc : services) (uri : string) : option string :=
  match annotate svc uri with
  | Py.Raise e => Some e
  | Py.Ok _ => update_job svc uri
  end.

Definition analyzed (svc : services) (uri : string) : bool :=
  match failure svc uri with
  | None => true
  | Some _ => false
  end.

(** The text written for an analysed image. *)
Definition text_for (svc : services) (clock : string -> string) (uri : string)
  : string :=
  match annotate svc uri with
  | Py.Ok a => Py.join Py.nl (description_parts uri a (clock uri))
  | Py.Raise _ => EmptyString
  end.

Definition file_name (uri : string) : string := Py.last_part (Py.split "/" uri).

Lemma analyze_corpus (svc : services) (now uri : string) (corpus : table) :
  fst (fst (analyze_and_update_image svc now uri corpus))
  = if analyzed svc uri
    then update_text_where_uri uri
           (match annotate svc uri with
            | Py.Ok a => Py.join Py.nl (description_parts uri a now)
            | Py.Raise _ => EmptyString
            end) corpus
    else corpus.
Proof.
  unfold analyze_and_update_image, analyzed, failure.
  destruct (annotate svc uri) as [a|e]; [|reflexivity].
  destruct (update_job svc uri); reflexivity.
Qed.

Lemma analyze_result (svc : services) (now uri : string) (corpus : table) :
  snd (fst (analyze_and_update_image svc now uri corpus)) = analyzed svc uri.
Proof.
  unfold analyze_and_update_image, analyzed, failure.
  destruct (annotate svc uri) as [a|e]; [|reflexivity].
  destruct (update_job svc uri); reflexivity.
Qed.

Lemma analyze_failure_logged (svc : services) (now uri : string) (corpus : table)
      (e : string) :
  failure svc uri = Some e ->
  snd (analyze_and_update_image svc now uri corpus)
  = ["✗ " ++ file_name uri ++ ": " ++ e].
Proof.
  unfold analyze_and_update_image, failure, file_name.
  destruct (annotate svc uri) as [a|e0].
  - intros ->. reflexivity.
  - intros H. inversion H. reflexivity.
Qed.

Definition updates_of (svc : services) (clock : string -> string)
           (uris : list string) : list (string * string) :=
  map (fun u => (u, text_for svc clock u)) (filter (analyzed svc) uris).

Lemma analyze_all_corpus (svc : services) (clock : string -> string) (total : nat)
      (uris : list string) :
  forall i st,
    corpus_after (analyze_all svc clock total i uris st)
    = apply_updates (updates_of svc clock uris) (corpus_after st).
Proof.
  induction uris as [|u uris IH]; intros i st; [reflexivity|].
  cbn [analyze_all].
  pose proof (analyze_corpus svc (clock u) u (corpus_after st)) as Hc.
  destruct (analyze_and_update_image svc (clock u) u (corpus_after st))
    as [[c ok] lines].
  rewrite IH. cbn [corpus_after fst] in *. subst c.
  unfold updates_of, text_for. cbn [filter].
  destruct (analyzed svc u); reflexivity.
Qed.

Lemma analyze_all_count (svc : services) (clock : string -> string) (total : nat)
      (uris : list string) :
  forall i st,
    success_count (analyze_all svc clock total i uris st)
    = success_count st + List.length (filter (analyzed svc) uris).
Proof.
  induction uris as [|u uris IH]; intros i st; [simpl; lia|].
  cbn [analyze_all].
  pose proof (analyze_result svc (clock u) u (corpus_after st)) as Hr.
  destruct (analyze_and_update_image svc (clock u) u (corpus_after st))
    as [[c ok] lines].
  rewrite IH. cbn [success_count snd fst] in *. subst ok. cbn [filter].
  destruct (analyzed svc u); simpl; lia.
Qed.

Lemma analyze_all_log_grows (svc : services) (clock : string -> string)
      (total : nat) (uris : list string) :
  forall i st line,
    In line (log st) -> In line (log (analyze_all svc clock total i uris st)).
Proof.
  induction uris as [|u uris IH]; intros i st line Hin; [exact Hin|].
  cbn [analyze_all].
  destruct (analyze_and_update_image svc (clock u) u (corpus_after st))
    as [[c ok] lines].
  apply IH. cbn [log]. apply in_or_app. now left.
Qed.

Lemma analyze_all_failure_logged (svc : services) (clock : string -> string)
      (total : nat) (uris : list string) :
  forall i st u e,
    In u uris -> failure svc u = Some e ->
    In ("✗ " ++ file_name u ++ ": " ++ e)
       (log (analyze_all svc clock total i uris st)).
Proof.
  induction uris as [|u0 uris IH]; intros i st u e Hin Hf; [destruct Hin|].
  cbn [analyze_all].
  pose proof (analyze_failure_logged svc (clock u0) u0 (corpus_after st)) as Hl.
  destruct (analyze_and_update_image svc (clock u0) u0 (corpus_after st))
    as [[c ok] lines].
  destruct Hin as [->|Hin].
  - apply analyze_all_log_grows. cbn [log snd] in *.
    rewrite (Hl e Hf). apply in_or_app. right. right. now left.
  - now apply IH.
Qed.

Lemma main_spec (svc : services) (clock : string -> string) (corpus : table) :
  corpus_after (main svc clock corpus)
  = apply_updates (updates_of svc clock (remaining_uris corpus)) corpus
  /\ success_count (main svc clock corpus)
     = List.length (filter (analyzed svc) (remaining_uris corpus))
  /\ forall u e, In u (remaining_uris corpus) -> failure svc u = Some e ->
                 In ("✗ " ++ file_name u ++ ": " ++ e) (log (main svc clock corpus)).
Proof.
  unfold main. destruct (remaining_uris corpus) as [|u uris] eqn:Hu.
  - repeat split. intros u e [].
  - cbn [corpus_after success_count log].
    rewrite analyze_all_corpus, analyze_all_count.
    repeat split. intros u0 e Hin Hf. apply in_or_app. left.
    now apply analyze_all_failure_logged.
Qed.

End VisionFacts.

(** ** Failures of single documents *)

Module FailureFacts.
Import Store StoreFacts ListFacts.

(** A run of the image analysis in which the Vision API refuses the one
    image left to analyse. *)
Definition refusing_vision : CompleteVisionAnalysis.services :=
  CompleteVisionAnalysis.mk_services (fun _ => Py.Raise "quota exceeded")
                                     (fun _ => None)
                                     (fun _ _ => "0.0").

Definition one_image : table :=
  [mk_record "gs://bucket/images/cat.jpg" "image" None None None].

(** C8 as stated fails for the analysis pass: the failure of an image is
    logged with the file name of the image, and no line of the log of the
    run holds its uri. *)
Lemma image_failure_logged_without_uri :
  let r := CompleteVisionAnalysis.main refusing_vision
             (fun _ => "2025-01-01 00:00:00 UTC") one_image in
  In "✗ cat.jpg: quota exceeded" (CompleteVisionAnalysis.log r)
  /\ existsb (Py.contains "gs://bucket/images/cat.jpg")
             (CompleteVisionAnalysis.log r) = false.
Proof. vm_compute. split; [do 3 right; now left|reflexivity]. Qed.

Section Pools.
Import IngestJsonCsv PoolFacts MainFacts.

Lemma main_log_json env corpus line :
  In line (batch_log (json_pool env corpus)) -> In line (log (main env corpus)).
Proof.
  intros Hin. unfold main.
  fold (json_pool env corpus). fold (csv_pool env corpus).
  destruct (insert_to_bigquery _ _ _) as [[[c n] l] [e|]]; cbn [log];
    apply in_or_app; right; apply in_or_app; left;
    apply in_or_app; left; now right.
Qed.

Lemma main_log_csv env corpus line :
  In line (batch_log (csv_pool env corpus)) -> In line (log (main env corpus)).
Proof.
  intros Hin. unfold main.
  fold (json_pool env corpus). fold (csv_pool env corpus).
  destruct (insert_to_bigquery _ _ _) as [[[c n] l] [e|]]; cbn [log];
    apply in_or_app; right; apply in_or_app; left;
    apply in_or_app; right; now right.
Qed.

Lemma json_failure_line svc now uri :
  fst (process_json_file svc now uri) = None ->
  exists e, snd (process_json_file svc now uri)
            = ["Failed to process JSON " ++ uri ++ ": " ++ e].
Proof.
  unfold process_json_file.
  match goal with |- context [match ?a with Py.Ok _ => _ | Py.Raise _ => _ end] =>
    destruct a as [text|e] end; simpl; [discriminate|].
  intros _. now exists e.
Qed.

Lemma csv_failure_line svc now uri :
  fst (process_csv_file svc now uri) = None ->
  exists e, snd (process_csv_file svc now uri)
            = ["Failed to process CSV " ++ uri ++ ": " ++ e].
Proof.
  unfold process_csv_file.
  match goal with |- context [match ?a with Py.Ok _ => _ | Py.Raise _ => _ end] =>
    destruct a as [text|e] end; simpl; [discriminate|].
  intros _. now exists e.
Qed.

Variable process : string -> string -> option string * list string.
Variable clock : string -> string.
Variables (picks : list nat) (modality kind : string) (uris : list string).

Let pool := run_pool process clock picks modality kind uris.

Lemma pool_counts :
  List.length (documents pool)
  = List.length (filter (succeeded process clock) (calls pool))
  /\ List.length (documents pool)
     + List.length (filter (fun u => negb (succeeded process clock u)) (calls pool))
     = List.length (calls pool).
Proof.
  unfold pool. rewrite run_pool_spec. cbn [documents calls].
  rewrite length_map. split; [reflexivity|].
  induction (Py.as_completed picks (firstn 50 uris)) as [|u l IH]; simpl;
    [reflexivity|].
  destruct (succeeded process clock u); simpl; lia.
Qed.

Lemma pool_success (u : string) :
  In u (calls pool) -> succeeded process clock u = true ->
  In (mk_record u modality None (fst (process (clock u) u)) None) (documents pool).
Proof.
  unfold pool. rewrite run_pool_spec. cbn [documents calls]. intros Hin Hok.
  apply in_map_iff. exists u. split; [reflexivity|]. now apply filter_In.
Qed.

Lemma pool_failure (u : string) :
  In u (calls pool) -> fst (process (clock u) u) = None ->
  (forall line, In line (snd (process (clock u) u)) -> In line (batch_log pool))
  /\ (forall d, In d (documents pool) -> uri d <> u).
Proof.
  unfold pool. rewrite run_pool_spec. cbn [documents calls batch_log].
  intros Hin Hnone. split.
  - intros line Hline. apply in_flat_map. exists u. split; [exact Hin|].
    unfold lines_of. apply in_or_app. now left.
  - intros d Hd Heq. apply in_map_iff in Hd. destruct Hd as (u0 & <- & Hu0).
    simpl in Heq. subst u0. apply filter_In in Hu0. destruct Hu0 as [_ Hok].
    unfold succeeded in Hok. rewrite Hnone in Hok. discriminate.
Qed.

End Pools.

(** What a thread pool of [ingest_json_csv.main] does with the outcomes of
    its documents: a uri whose adapter fails has its error line, which
    holds the uri, in the log and no document; a uri whose adapter
    returns a text has its document; successes and failures add up to
    the uris handed over. *)
Definition isolated_in_pool
           (process : string -> string -> option string * list string)
           (clock : string -> string) (error_prefix modality : string)
           (b : IngestJsonCsv.batch) (log : list string) : Prop :=
  (forall u, In u (IngestJsonCsv.calls b) ->
             fst (process (clock u) u) = None ->
             (exists e, In (error_prefix ++ u ++ ": " ++ e) log)
             /\ (forall d, In d (IngestJsonCsv.documents b) -> uri d <> u))
  /\ (forall u, In u (IngestJsonCsv.calls b) ->
                Py.truthy (fst (process (clock u) u)) = true ->
                In (mk_record u modality None (fst (process (clock u) u)) None)
                   (IngestJsonCsv.documents b))
  /\ List.length (IngestJsonCsv.documents b)
     + List.length (filter (fun u => negb (Py.truthy (fst (process (clock u) u))))
                           (IngestJsonCsv.calls b))
     = List.length (IngestJsonCsv.calls b).

(** What the image analysis does to one record of the corpus. *)
Definition isolated_in_analysis
           (svc : CompleteVisionAnalysis.services) (clock : string -> string)
           (uris : list string) (before after : record) : Prop :=
  uri after = uri before
  /\ modality after = modality before
  /\ embedding after = embedding before
  /\ ((forall u, In u uris -> VisionFacts.analyzed svc u = true -> u <> uri before) ->
      after = before)
  /\ (forall u, In u uris -> VisionFacts.analyzed svc u = true -> u = uri before ->
                text_content after = Some (VisionFacts.text_for svc clock u)).

(** C8 as amended: in a run of the JSON/CSV ingestion every uri of a
    batch is handed to its adapter; a failure of the adapter on one uri
    is logged with that uri and leaves no document for it, and the
    documents of all other uris are collected, successes and failures
    adding up to the batch.  In a run of the image analysis every
    remaining image is attempted; a failure on one image is logged with
    the last path segment of its uri (not the uri) and writes nothing,
    every image analysed without failure has its text written, and the
    success count is the number of those images. *)
Theorem failures_are_isolated_per_document :
  (forall env corpus,
      let r := IngestJsonCsv.main env corpus in
      Permutation (IngestJsonCsv.calls (IngestJsonCsv.json_batch r))
                  (firstn 50 (IngestJsonCsv.new_uris (IngestJsonCsv.obj_json env)
                                (IngestJsonCsv.existing_uris corpus)))
      /\ Permutation (IngestJsonCsv.calls (IngestJsonCsv.csv_batch r))
                     (firstn 50 (IngestJsonCsv.new_uris (IngestJsonCsv.obj_csv env)
                                   (IngestJsonCsv.existing_uris corpus)))
      /\ isolated_in_pool (IngestJsonCsv.process_json_file (IngestJsonCsv.svc env))
                          (IngestJsonCsv.clock env) "Failed to process JSON " "json"
                          (IngestJsonCsv.json_batch r) (IngestJsonCsv.log r)
      /\ isolated_in_pool (IngestJsonCsv.process_csv_file (IngestJsonCsv.svc env))
                          (IngestJsonCsv.clock env) "Failed to process CSV " "csv"
                          (IngestJsonCsv.csv_batch r) (IngestJsonCsv.log r))
  /\ (forall svc clock corpus,
        let r := CompleteVisionAnalysis.main svc clock corpus in
        let uris := CompleteVisionAnalysis.remaining_uris corpus in
        CompleteVisionAnalysis.success_count r
        = List.length (filter (VisionFacts.analyzed svc) uris)
        /\ (forall u e, In u uris -> VisionFacts.failure svc u = Some e ->
                        In ("✗ " ++ VisionFacts.file_name u ++ ": " ++ e)
                           (CompleteVisionAnalysis.log r))
        /\ Forall2 (isolated_in_analysis svc clock uris)
                   corpus (CompleteVisionAnalysis.corpus_after r)).
Proof.
  split.
  - intros env corpus r.
    split; [unfold r; rewrite MainFacts.main_json_batch; apply MainFacts.pool_calls|].
    split; [unfold r; rewrite MainFacts.main_csv_batch; apply MainFacts.pool_calls|].
    split.
    + unfold r. rewrite MainFacts.main_json_batch.
      unfold isolated_in_pool. split; [|split].
      * intros u Hu Hnone.
        destruct (pool_failure _ _ _ _ _ _ u Hu Hnone) as [Hlines Hdocs].
        split; [|exact Hdocs].
        destruct (json_failure_line _ _ _ Hnone) as [e He].
        exists e. apply main_log_json. unfold MainFacts.json_pool.
        apply Hlines. rewrite He. now left.
      * intros u Hu Hok. now apply pool_success.
      * apply pool_counts.
    + unfold r. rewrite MainFacts.main_csv_batch.
      unfold isolated_in_pool. split; [|split].
      * intros u Hu Hnone.
        destruct (pool_failure _ _ _ _ _ _ u Hu Hnone) as [Hlines Hdocs].
        split; [|exact Hdocs].
        destruct (csv_failure_line _ _ _ Hnone) as [e He].
        exists e. apply main_log_csv. unfold MainFacts.csv_pool.
        apply Hlines. rewrite He. now left.
      * intros u Hu Hok. now apply pool_success.
      * apply pool_counts.
  - intros svc clock corpus r uris.
    destruct (VisionFacts.main_spec svc clock corpus) as (Hc & Hn & Hl).
    split; [exact Hn|]. split; [exact Hl|].
    unfold r. rewrite Hc, apply_updates_map. fold uris.
    set (ups := VisionFacts.updates_of svc clock uris).
    assert (Hups : forall u t, In (u, t) ups <->
                In u uris /\ VisionFacts.analyzed svc u = true
                /\ t = VisionFacts.text_for svc clock u).
    { intros u t. unfold ups, VisionFacts.updates_of. rewrite in_map_iff. split.
      - intros (u0 & Heq & Hin). inversion Heq; subst.
        apply filter_In in Hin. tauto.
      - intros (Hin & Hok & ->). exists u. split; [reflexivity|].
        now apply filter_In. }
    clear Hc Hn Hl. clearbody ups. clearbody uris. clear r.
    induction corpus as [|rec t IH]; constructor; [|exact IH].
    destruct (update_record_fields ups rec) as (H1 & H2 & H3 & H4).
    unfold isolated_in_analysis. repeat split; auto.
    + intros Hnone. apply update_record_untouched. intros Hin.
      apply in_map_iff in Hin. destruct Hin as ([u t0] & Hu & Hin).
      simpl in Hu. subst u. apply Hups in Hin.
      destruct Hin as (Hin & Hok & _). now apply (Hnone (uri rec)).
    + intros u Hin Hok ->. apply update_record_text.
      * intros t' Ht'. apply Hups in Ht'. tauto.
      * apply Hups. tauto.
Qed.

End FailureFacts.

(** ** obsolete/ingest_json_csv_simple.py: what main inserts *)

Module SimpleFacts.
Import Store IngestJsonCsvSimple.

Section Loop.
Variable process : string -> option string * list string.
Variable kind : string.

Definition succeeded (uri : string) : bool := Py.truthy (fst (process uri)).

Definition document_of (uri : string) : record :=
  mk_record uri kind None (fst (process uri)) None.

Lemma collect_documents (uris : list string) :
  forall c,
    documents (fold_left (collect process kind) uris c)
    = List.app (documents c) (map document_of (filter succeeded uris)).
Proof.
  induction uris as [|u uris IH]; intros c; cbn [fold_left filter map].
  - now rewrite app_nil_r.
  - assert (Hstep : documents (collect process kind c u)
                    = List.app (documents c)
                        (if succeeded u then [document_of u] else [])).
    { unfold collect, succeeded, document_of.
      destruct (process u) as [content lines]. cbn [fst].
      destruct (Py.truthy content); cbn [documents];
        [reflexivity|now rewrite app_nil_r]. }
    rewrite IH, Hstep.
    destruct (succeeded u); cbn [map]; rewrite <- List.app_assoc; reflexivity.
Qed.

End Loop.

(** The documents that the two loops of [main] collect. *)
Definition json_documents (env : run_env) : list record :=
  map (document_of (process_json_file (svc env)) "json")
      (filter (succeeded (process_json_file (svc env)))
              (firstn 20 (list_files env "json" ".json"))).

Definition csv_documents (env : run_env) : list record :=
  map (document_of (process_csv_file (svc env)) "csv")
      (filter (succeeded (process_csv_file (svc env)))
              (firstn 20 (list_files env "csv" ".csv"))).

Definition collected_documents (env : run_env) : list record :=
  List.app (json_documents env) (csv_documents env).

Lemma main_appends (env : run_env) (corpus : table) :
  exists flags,
    corpus_after (main env corpus)
    = List.app corpus
        (IngestJsonCsv.stored_rows flags (collected_documents env)).
Proof.
  unfold main, collected_documents, json_documents, csv_documents.
  rewrite !collect_documents. cbn [documents List.app].
  match goal with
  | |- context [match ?d with [] => _ | _ :: _ => _ end] =>
      destruct d as [|d0 docs] eqn:Hd
  end.
  - exists []. cbn. now rewrite app_nil_r.
  - destruct (insert_rows_json env (d0 :: docs)) as [|errors flags|msg flags];
      cbn [corpus_after]; [|now exists flags|now exists flags].
    eexists. now rewrite MainFacts.stored_rows_all.
Qed.

Lemma main_inserts_all (env : run_env) (corpus : table) :
  insert_rows_json env (collected_documents env) = IngestJsonCsv.Inserted ->
  corpus_after (main env corpus)
  = List.app corpus (collected_documents env).
Proof.
  unfold main, collected_documents, json_documents, csv_documents.
  rewrite !collect_documents. cbn [documents List.app]. intros Hins.
  match goal with
  | |- context [match ?d with [] => _ | _ :: _ => _ end] =>
      destruct d as [|d0 docs] eqn:Hd
  end.
  - cbn. now rewrite app_nil_r.
  - rewrite Hins. reflexivity.
Qed.

Lemma collected_document (env : run_env) (d : record) :
  In d (collected_documents env) ->
  source d = None /\ embedding d = None
  /\ ((modality d = "json"
       /\ In (uri d) (firstn 20 (list_files env "json" ".json")))
      \/ (modality d = "csv"
          /\ In (uri d) (firstn 20 (list_files env "csv" ".csv")))).
Proof.
  unfold collected_documents, json_documents, csv_documents. intros Hd.
  apply in_app_or in Hd.
  destruct Hd as [Hd|Hd]; apply in_map_iff in Hd;
    destruct Hd as (u & <- & Hu); apply filter_In in Hu;
    destruct Hu as [Hu _]; cbn; auto.
Qed.

End SimpleFacts.

(** ** No embedding without text *)

Module EmbeddingFacts.
Import Store StoreFacts SetupMmgrep Pipeline.

(** The invariant of the two tables. *)
Definition no_premature_embedding (s : store) : Prop :=
  Forall embedded_has_text (documents s)
  /\ Forall embedded_has_text (search_corpus s).

Lemma created_without_embedding (r : record) :
  embedding r = None -> embedded_has_text r.
Proof. intros H Hne. congruence. Qed.

Lemma forall_app_created (t added : table) :
  Forall embedded_has_text t ->
  Forall (fun r => embedding r = None) added ->
  Forall embedded_has_text (List.app t added).
Proof.
  intros Ht Ha. apply Forall_app. split; [exact Ht|].
  eapply Forall_impl; [|exact Ha]. exact created_without_embedding.
Qed.

Lemma text_query_inv cfg listing docs :
  Forall embedded_has_text docs ->
  Forall embedded_has_text (text_query cfg listing docs).
Proof.
  intros H. unfold text_query. apply forall_app_created; [exact H|].
  apply Forall_forall. intros r Hr. apply in_map_iff in Hr.
  now destruct Hr as (o & <- & _).
Qed.

Lemma markdown_query_inv cfg listing docs :
  Forall embedded_has_text docs ->
  Forall embedded_has_text (markdown_query cfg listing docs).
Proof.
  intros H. unfold markdown_query. apply forall_app_created; [exact H|].
  apply Forall_forall. intros r Hr. apply in_map_iff in Hr.
  now destruct Hr as (o & <- & _).
Qed.

Lemma search_corpus_query_inv docs :
  Forall embedded_has_text (search_corpus_query docs).
Proof.
  unfold search_corpus_query. apply Forall_forall. intros r Hr.
  apply in_map_iff in Hr. destruct Hr as (r0 & <- & _).
  now apply created_without_embedding.
Qed.

Lemma stored_rows_created (flags : list bool) (rows : list record) :
  Forall (fun r => embedding r = None) rows ->
  Forall (fun r => embedding r = None) (IngestJsonCsv.stored_rows flags rows).
Proof.
  intros H. apply Forall_forall. intros r Hr.
  apply MainFacts.in_stored_rows in Hr. rewrite Forall_forall in H. now apply H.
Qed.

Lemma json_csv_main_inv env corpus :
  Forall embedded_has_text corpus ->
  Forall embedded_has_text (IngestJsonCsv.corpus_after (IngestJsonCsv.main env corpus)).
Proof.
  intros H. rewrite MainFacts.main_corpus_after.
  destruct (MainFacts.insert_appends env
              (List.app (IngestJsonCsv.documents (MainFacts.json_pool env corpus))
                        (IngestJsonCsv.documents (MainFacts.csv_pool env corpus)))
              corpus) as (flags & ->).
  apply forall_app_created; [exact H|]. apply stored_rows_created.
  apply Forall_forall. intros r Hr. apply in_map_iff in Hr.
  now destruct Hr as (d & <- & _).
Qed.

Lemma json_csv_simple_main_inv env corpus :
  Forall embedded_has_text corpus ->
  Forall embedded_has_text
         (IngestJsonCsvSimple.corpus_after (IngestJsonCsvSimple.main env corpus)).
Proof.
  intros H. destruct (SimpleFacts.main_appends env corpus) as (flags & ->).
  apply forall_app_created; [exact H|]. apply stored_rows_created.
  apply Forall_forall. intros d Hd.
  now apply SimpleFacts.collected_document in Hd.
Qed.

Lemma update_text_inv u text corpus :
  Forall embedded_has_text corpus ->
  Forall embedded_has_text (update_text_where_uri u text corpus).
Proof.
  intros H. unfold update_text_where_uri. apply Forall_forall. intros r Hr.
  apply in_map_iff in Hr. destruct Hr as (r0 & <- & Hr0).
  rewrite Forall_forall in H.
  destruct (uri r0 =? u); [|now apply H]. intros _. discriminate.
Qed.

Lemma update_image_inv j u text s :
  no_premature_embedding s ->
  no_premature_embedding
    (fst (UpdateImagesWithVision.update_image_in_bigquery j u text s)).
Proof.
  intros [Hd Hc]. unfold UpdateImagesWithVision.update_image_in_bigquery.
  destruct (UpdateImagesWithVision.corpus_job j u); [now split|].
  destruct (UpdateImagesWithVision.documents_job j u); split; cbn;
    auto using update_text_inv.
Qed.

Lemma apply_updates_inv ups corpus :
  Forall embedded_has_text corpus ->
  Forall embedded_has_text (apply_updates ups corpus).
Proof.
  intros H. rewrite apply_updates_map. apply Forall_forall. intros r Hr.
  apply in_map_iff in Hr. destruct Hr as (r0 & <- & Hr0).
  apply update_record_has_text. rewrite Forall_forall in H. now apply H.
Qed.

Lemma vision_main_inv svc clock corpus :
  Forall embedded_has_text corpus ->
  Forall embedded_has_text
         (CompleteVisionAnalysis.corpus_after (CompleteVisionAnalysis.main svc clock corpus)).
Proof.
  intros H. destruct (VisionFacts.main_spec svc clock corpus) as (-> & _).
  now apply apply_updates_inv.
Qed.

Lemma update_batch_inv j results corpus :
  Forall embedded_has_text corpus ->
  Forall embedded_has_text
         (UpdateAllImagesVision.corpus
            (UpdateAllImagesVision.update_batch_in_bigquery j results
               (UpdateAllImagesVision.mk_state corpus []))).
Proof.
  intros H. unfold UpdateAllImagesVision.update_batch_in_bigquery.
  destruct (UpdateAllImagesVision.successful_results results) as [|r0 rs];
    [exact H|].
  destruct (UpdateAllImagesVision.batch_job j _) as [updates|e].
  - cbn [UpdateAllImagesVision.corpus]. unfold UpdateAllImagesVision.update_from.
    apply Forall_forall. intros r Hr. apply in_map_iff in Hr.
    destruct Hr as (r0' & <- & Hr0). rewrite Forall_forall in H.
    destruct (find _ updates); [|now apply H].
    intros _. discriminate.
  - rewrite UpdateFacts.fallback_corpus. now apply apply_updates_inv.
Qed.

Lemma clear_where_inv selected corpus :
  Forall embedded_has_text corpus ->
  Forall embedded_has_text (Grepctl.clear_where selected corpus).
Proof.
  intros H. unfold Grepctl.clear_where. apply Forall_forall. intros r Hr.
  apply in_map_iff in Hr. destruct Hr as (r0 & <- & Hr0).
  rewrite Forall_forall in H.
  destruct (selected r0); [|now apply H].
  now apply created_without_embedding.
Qed.

Lemma embed_pass_inv client corpus :
  Forall embedded_has_text corpus ->
  Forall embedded_has_text (Embedding.embed_pass client corpus).
Proof.
  intros H. unfold Embedding.embed_pass. apply Forall_forall. intros r Hr.
  apply in_map_iff in Hr. destruct Hr as (r0 & <- & Hr0).
  rewrite Forall_forall in H. specialize (H r0 Hr0).
  unfold Embedding.embed_record.
  destruct (embedding r0) eqn:He; [exact H|].
  destruct (text_content r0) eqn:Ht; [|exact H].
  destruct (String.eqb _ _); [exact H|].
  destruct (client _); [|exact H].
  intros _. simpl. rewrite Ht. discriminate.
Qed.

Lemma source_step_inv cfg s o :
  no_premature_embedding s -> no_premature_embedding (step cfg s o).
Proof.
  intros [Hd Hc].
  destruct o as [okd okc|lt lm text_ok markdown_ok|ok|env|env|svc clock
                |j results|j u text|selected];
    cbn [step]; unfold on_corpus.
  - unfold create_core_tables. split; cbn.
    + destruct okd; [constructor|exact Hd].
    + destruct okc; [constructor|exact Hc].
  - split; cbn; [|exact Hc].
    destruct text_ok, markdown_ok; auto using text_query_inv, markdown_query_inv.
  - unfold create_search_corpus. destruct ok; [|now split].
    split; cbn; [exact Hd|apply search_corpus_query_inv].
  - split; cbn; [exact Hd|now apply json_csv_main_inv].
  - split; cbn; [exact Hd|now apply json_csv_simple_main_inv].
  - split; cbn; [exact Hd|now apply vision_main_inv].
  - split; cbn; [exact Hd|now apply update_batch_inv].
  - apply update_image_inv. now split.
  - split; cbn; [exact Hd|now apply clear_where_inv].
Qed.

Lemma step_inv cfg s o :
  no_premature_embedding s -> no_premature_embedding (Embedding.step cfg s o).
Proof.
  intros Hs. destruct o as [o|client]; simpl; [now apply source_step_inv|].
  destruct Hs as [Hd Hc]. split; simpl; [exact Hd|now apply embed_pass_inv].
Qed.

(** C2: from a store in which every record with an embedding has a text,
    any sequence of the operations (creation of the tables, text and
    markdown insertion, creation of the search corpus, JSON/CSV
    ingestion by either script, image analysis, batch and single updates
    of image texts, clearing of embeddings, embedding) leaves a store in
    which every record with an embedding has a text, in [documents] and
    in [search_corpus]. *)
Theorem no_embedding_without_text
        (cfg : config) (ops : list Embedding.op) (s : store) :
  no_premature_embedding s -> no_premature_embedding (Embedding.run cfg ops s).
Proof.
  unfold Embedding.run. revert s.
  induction ops as [|o ops IH]; intros s Hs; simpl; [exact Hs|].
  apply IH. now apply step_inv.
Qed.

End EmbeddingFacts.

(** ** One record per uri and modality *)

Module UniqueFacts.
Import Store StoreFacts SetupMmgrep Pipeline ListFacts.

(** No two records of the table have the same uri and modality. *)
Definition unique (t : table) : Prop := NoDup (map key t).



(** The number of records of a uri and modality. *)
Definition records_of (u m : string) (t : table) : nat :=
  List.length (filter (fun r => (uri r =? u) && (modality r =? m)) t).



Lemma prefix_app_inv (a x : string) :
  forall u, String.prefix (a ++ x) u = true ->
            exists v, u = a ++ v /\ String.prefix x v = true.
Proof.
  induction a as [|c a IH]; intros u H; simpl in *.
  - now exists u.
  - destruct u as [|d u]; [destruct x; discriminate|].
    simpl in H. destruct (ascii_dec c d) as [->|]; [|discriminate].
    destruct (IH u H) as (v & -> & Hv). now exists v.
Qed.

Lemma app_inj_l (a v w : string) : a ++ v = a ++ w -> v = w.
Proof.
  induction a as [|c a IH]; simpl; intros H; [exact H|].
  inversion H. now apply IH.
Qed.


(** A WHERE clause keeps a column free of repetition. *)
Lemma distinct_after_where {Row Col} (column : Row -> Col) (kept : Row -> bool) :
  forall rows : list Row,
    NoDup (map column rows) -> NoDup (map column (filter kept rows)).
Proof.
  intros rows. induction rows as [|row rows IH]; cbn [filter map].
  - intros _. apply NoDup_nil.
  - rewrite NoDup_cons_iff. intros [Hfresh Hrest].
    destruct (kept row); [|exact (IH Hrest)].
    cbn [map]. apply NoDup_cons; [|exact (IH Hrest)].
    intros Hin. apply Hfresh. apply in_map_iff in Hin.
    destruct Hin as (other & Hsame & Hother). apply filter_In in Hother.
    rewrite <- Hsame. apply in_map. exact (proj1 Hother).
Qed.



(** *** Text and markdown insertion *)





(** *** Creation of the search corpus *)


(** *** JSON/CSV ingestion *)

Lemma nodup_firstn {A} (n : nat) (l : list A) : NoDup l -> NoDup (firstn n l).
Proof.
  intros H. rewrite <- (firstn_skipn n l) in H.
  now apply NoDup_app_remove_r in H.
Qed.




(** *** The obsolete JSON/CSV ingestion *)




(** *** Operations that keep the keys *)









(** A bucket with one JSON file, and a run of the obsolete script on it
    whose insertion succeeds. *)
Definition one_json_file : IngestJsonCsvSimple.run_env :=
  IngestJsonCsvSimple.mk_run_env
    AdapterFacts.sample_services
    (fun prefix => if prefix =? "multimodal-dataset/json/"
                   then ["multimodal-dataset/json/a.json"] else [])
    false false
    (fun _ => IngestJsonCsv.Inserted).

(** C1, at the input where the code departs from it: the obsolete
    script inserts the files it lists without a look at the uris that the
    corpus holds, so its second run over the same bucket inserts the
    same JSON file again and the corpus then holds two records with that
    uri and modality. *)
Theorem simple_ingestion_rerun_duplicates :
  let empty := mk_store [] [] in
  let cfg := mk_config "gcm-data-lake" "multimodal-dataset" in
  let u := "gs://gcm-data-lake/multimodal-dataset/json/a.json" in
  records_of u "json"
    (search_corpus (run cfg [IngestJsonCsvSimpleMain one_json_file] empty)) = 1
  /\ records_of u "json"
       (search_corpus (run cfg [IngestJsonCsvSimpleMain one_json_file;
                                IngestJsonCsvSimpleMain one_json_file] empty)) = 2.
Proof. vm_compute. split; reflexivity. Qed.


End UniqueFacts.

(** ** A small deployment *)

Module Deployment.
Import Store StoreFacts SetupMmgrep Pipeline.

Definition sample_config : config := mk_config "gcm-data-lake" "multimodal-dataset".

Definition sample_listing : list gcs_object :=
  [mk_gcs_object "gs://gcm-data-lake/multimodal-dataset/text/notes.txt" (Some "notes");
   mk_gcs_object "gs://gcm-data-lake/multimodal-dataset/markdown/readme.md" (Some "# readme");
   mk_gcs_object "gs://gcm-data-lake/multimodal-dataset/text/binary.txt" None].

Definition sample_env : IngestJsonCsv.run_env :=
  IngestJsonCsv.mk_run_env
    AdapterFacts.sample_services
    ["gs://gcm-data-lake/multimodal-dataset/json/b.json";
     "gs://gcm-data-lake/multimodal-dataset/json/a.json";
     "gs://gcm-data-lake/multimodal-dataset/json/b.json"]
    ["gs://gcm-data-lake/multimodal-dataset/csv/t.csv"]
    (fun _ => "2025-01-01 00:00:00 UTC")
    [1] []
    (fun _ => IngestJsonCsv.Inserted).

Definition sample_client (text : string) : option (list float64) :=
  Some [0%Z; 0%Z; 0%Z].

Definition sample_image_jobs : UpdateImagesWithVision.jobs :=
  UpdateImagesWithVision.mk_jobs (fun _ => None)
                                 (fun _ => Some "404 Not found: Table documents").

(** Setup, a re-run of the text ingestion, the obsolete JSON/CSV script
    on a bucket whose file the corpus does not hold, two runs of the
    JSON/CSV ingestion, an update of a text and a repair. *)
Definition sample_ops : list op :=
  [CreateCoreTables true true;
   IngestSimpleData sample_listing sample_listing true true;
   IngestSimpleData sample_listing sample_listing true true;
   CreateSearchCorpus true;
   IngestJsonCsvSimpleMain UniqueFacts.one_json_file;
   IngestJsonCsvMain sample_env;
   IngestJsonCsvMain sample_env;
   UpdateImage sample_image_jobs
               "gs://gcm-data-lake/multimodal-dataset/text/notes.txt"
               "Image File: notes.txt";
   ClearStuck (Grepctl.stuck_where (Some "json"))].

(** The same with embedding passes in between. *)
Definition sample_ops_with_embedding : list Embedding.op :=
  List.app (map Embedding.Source sample_ops)
    [Embedding.Embed sample_client;
     Embedding.Source (ClearStuck (Grepctl.stuck_where None));
     Embedding.Embed sample_client].

Definition empty_store : store := mk_store [] [].

(** A store with an embedded record, a record with an empty embedding and
    a record without text. *)
Definition sample_store : store :=
  mk_store
    [mk_record "gs://gcm-data-lake/multimodal-dataset/text/binary.txt" "text"
               (Some "file") None None]
    [mk_record "gs://gcm-data-lake/multimodal-dataset/text/notes.txt" "text"
               (Some "file") (Some "notes") (Some [1%Z; 2%Z]);
     mk_record "gs://gcm-data-lake/multimodal-dataset/json/a.json" "json"
               None (Some "JSON File: a.json") (Some [])].

(** The keys of the search corpus after the sample operations: the
    re-runs add nothing. *)
Lemma sample_run_records :
  map key (search_corpus (run sample_config sample_ops empty_store))
  = [("gs://gcm-data-lake/multimodal-dataset/text/notes.txt", "text");
     ("gs://gcm-data-lake/multimodal-dataset/markdown/readme.md", "text");
     ("gs://gcm-data-lake/multimodal-dataset/json/a.json", "json");
     ("gs://gcm-data-lake/multimodal-dataset/json/b.json", "json");
     ("gs://gcm-data-lake/multimodal-dataset/csv/t.csv", "csv")].
Proof. vm_compute. reflexivity. Qed.




Lemma sample_store_no_premature_embedding :
  EmbeddingFacts.no_premature_embedding sample_store.
Proof.
  split; repeat constructor; unfold embedded_has_text; simpl; congruence.
Defined.

(** The invariant of embeddings at the sample store, through the sample
    operations and embedding passes. *)
Lemma no_embedding_without_text_witness :
  EmbeddingFacts.no_premature_embedding sample_store
  /\ EmbeddingFacts.no_premature_embedding
       (Embedding.run sample_config sample_ops_with_embedding sample_store).
Proof.
  split; [exact sample_store_no_premature_embedding|].
  apply (EmbeddingFacts.no_embedding_without_text
           sample_config sample_ops_with_embedding sample_store).
  exact sample_store_no_premature_embedding.
Defined.

End Deployment.

(** ** The operations on small inputs *)

Module Examples.
Import Store.

Definition vec (n : nat) : list float64 := repeat 0%Z n.

Definition health_corpus : table :=
  [mk_record "gs://b/p/text/a.txt" "text" None (Some "a") (Some (vec 768));
   mk_record "gs://b/p/images/x.png" "image" None (Some "x") (Some []);
   mk_record "gs://b/p/text/b.txt" "text" None (Some "b") None;
   mk_record "gs://b/p/text/c.txt" "text" None (Some "c") (Some (vec 3));
   mk_record "gs://b/p/images/y.png" "image" None None None].

Example verify_health_corpus :
  Grepctl.index_verify health_corpus
  = [["image"; "2"; "0"; "1"; "1"]; ["text"; "3"; "1"; "1"; "0"]].
Proof. vm_compute. reflexivity. Qed.

Example clear_stuck_health_corpus :
  map embedding (Grepctl.clear_stuck (Some "text") health_corpus)
  = map embedding health_corpus
  /\ map (fun r => array_length (embedding r)) (Grepctl.clear_stuck None health_corpus)
     = [Some 768; None; None; Some 3; None].
Proof. vm_compute. split; reflexivity. Qed.

Definition repair_env : Grepctl.fix_env :=
  Grepctl.mk_fix_env None (fun _ _ => Py.Raise "not reached") true
    "/opt/grepctl/src/grepctl/scripts/fix_embeddings.py" (Grepctl.Exited true)
    (fun corpus0 => corpus0).

Example fix_stuck_health_corpus :
  Grepctl.console
    (fst (Grepctl.fix_stuck repair_env (Some "image")
            (Grepctl.mk_fix_state health_corpus [] [])))
  = ["Fixing stuck processing for image...";
     "âœ“ Reset 1 stuck embeddings";
     "Running: uv run python /opt/grepctl/src/grepctl/scripts/fix_embeddings.py";
     "âœ“ src/grepctl/scripts/fix_embeddings.py completed successfully"]
  /\ snd (Grepctl.fix_stuck repair_env (Some "image")
            (Grepctl.mk_fix_state health_corpus [] [])) = None.
Proof. vm_compute. split; reflexivity. Qed.

Example fallback_sample :
  map text_content
      (UpdateAllImagesVision.corpus
         (UpdateAllImagesVision.update_batch_in_bigquery
            UpdateFacts.sample_jobs UpdateFacts.sample_results UpdateFacts.sample_state))
  = [Some "Image File: a.png"; None; None].
Proof. vm_compute. reflexivity. Qed.

Example embedding_run_sample :
  map (fun r => (modality r, array_length (embedding r)))
      (SetupMmgrep.search_corpus
         (Embedding.run Deployment.sample_config Deployment.sample_ops_with_embedding
                        Deployment.sample_store))
  = [("text", Some 3); ("text", Some 3); ("json", Some 3); ("json", Some 3);
     ("csv", Some 3)].
Proof. vm_compute. reflexivity. Qed.

Example csv_preview_short :
  IngestJsonCsv.csv_preview "a,b" = "a,b".
Proof. reflexivity. Qed.

End Examples.

(** ** The health report, the stuck repair and the validation together *)

Module HealthFacts.
Import Store Grepctl StringOrder VerifyFacts.

Lemma verify_query_inv (corpus : table) : scan_inv corpus (verify_query corpus).
Proof.
  unfold verify_query. apply (scan_inv_fold corpus [] []).
  split; [constructor|split; [|constructor]].
  intros m. simpl. split; [intros []|intros (r & [] & _)].
Qed.

Definition column_sum (column : verify_row -> nat) (rows : list verify_row) : nat :=
  list_sum (map column rows).

(** A column of the report that the aggregate adds up. *)
Definition additive (column : verify_row -> nat) : Prop :=
  forall g r, column (accumulate g r) = column g + column (row_of r).

Lemma column_sum_group_add column (r : record) (rows : list verify_row) :
  additive column ->
  column_sum column (group_add r rows)
  = column_sum column rows + column (row_of r).
Proof.
  intros Hadd. unfold column_sum.
  induction rows as [|g rows IH]; simpl; [lia|].
  destruct (String.compare (modality r) (v_modality g)); simpl.
  - rewrite Hadd. lia.
  - lia.
  - rewrite IH. lia.
Qed.

Lemma column_sum_fold column (todo : table) :
  additive column ->
  forall rows,
    column_sum column (fold_left (fun groups r => group_add r groups) todo rows)
    = column_sum column rows + list_sum (map (fun r => column (row_of r)) todo).
Proof.
  intros Hadd. induction todo as [|r todo IH]; intros rows; simpl; [lia|].
  rewrite IH, column_sum_group_add by assumption. lia.
Qed.

Lemma column_sum_filter_group_add column (keep : string -> bool)
      (r : record) (rows : list verify_row) :
  additive column ->
  column_sum column (filter (fun g => keep (v_modality g)) (group_add r rows))
  = column_sum column (filter (fun g => keep (v_modality g)) rows)
    + (if keep (modality r) then column (row_of r) else 0).
Proof.
  intros Hadd. unfold column_sum, list_sum.
  assert (Hk : v_modality (row_of r) = modality r) by reflexivity.
  assert (Ha : forall g, v_modality (accumulate g r) = v_modality g)
    by reflexivity.
  induction rows as [|g rows IH]; cbn [group_add].
  - cbn [filter]. rewrite Hk. destruct (keep (modality r)); cbn [map list_sum fold_right]; lia.
  - destruct (String.compare (modality r) (v_modality g)) eqn:Hc;
      cbn [filter].
    + apply String.compare_eq_iff in Hc. rewrite Ha, Hc.
      destruct (keep (v_modality g)); cbn [map list_sum fold_right]; [|lia].
      rewrite Hadd. lia.
    + rewrite Hk.
      destruct (keep (modality r)), (keep (v_modality g));
        cbn [map list_sum fold_right]; lia.
    + destruct (keep (v_modality g)); cbn [map list_sum fold_right]; rewrite IH; lia.
Qed.

(** An embedding that is present with a length other than 0 and 768. *)
Definition has_other_dimension (r : record) : bool :=
  match embedding r with
  | Some e => negb (Nat.eqb (List.length e) 768) && negb (Nat.eqb (List.length e) 0)
  | None => false
  end.

Lemma one_class (r : record) :
  Nat.b2n (has_dimension 768 r) + Nat.b2n (is_null r)
  + Nat.b2n (has_dimension 0 r) + Nat.b2n (has_other_dimension r) = 1.
Proof.
  unfold has_dimension, is_null, has_other_dimension.
  destruct (embedding r) as [e|]; [|reflexivity].
  destruct (Nat.eqb_spec (List.length e) 768) as [H1|H1];
    destruct (Nat.eqb_spec (List.length e) 0) as [H2|H2];
    cbn; lia.
Qed.

Lemma count_classes (p : record -> bool) (t : table) :
  count p t
  = count (fun r => p r && has_dimension 768 r) t
    + count (fun r => p r && is_null r) t
    + count (fun r => p r && has_dimension 0 r) t
    + count (fun r => p r && has_other_dimension r) t.
Proof.
  unfold count. induction t as [|r t IH]; [reflexivity|].
  cbn [filter]. destruct (p r); cbn [andb]; [|exact IH].
  pose proof (one_class r) as Hone.
  destruct (has_dimension 768 r), (is_null r), (has_dimension 0 r),
    (has_other_dimension r); cbn [Nat.b2n] in Hone; cbn [List.length]; lia.
Qed.

(** The modality filter of [fix_stuck], on the key of a group. *)
Definition scope (m : option string) (k : string) : bool :=
  if Py.truthy m
  then match m with Some s => k =? s | None => true end
  else true.

(** What the clearing does to a line of the report: within the filter the
    empty embeddings are counted as missing ones. *)
Definition cleared_row (m : option string) (g : verify_row) : verify_row :=
  if scope m (v_modality g)
  then mk_verify_row (v_modality g) (total_docs g) (valid_embeddings g)
                     (null_embeddings g + empty_embeddings g) 0
  else g.

Definition clear_one (m : option string) (r : record) : record :=
  if stuck_where m r then set_embedding None r else r.

Lemma stuck_where_scope (m : option string) (r : record) :
  stuck_where m r
  = Nat.eqb (empty_embeddings (row_of r)) 1 && scope m (modality r).
Proof.
  unfold stuck_where, scope, row_of, array_length, sql_eq_nat. cbn.
  destruct (embedding r) as [[|x e]|]; reflexivity.
Qed.

Lemma row_of_clear_one (m : option string) (r : record) :
  row_of (clear_one m r) = cleared_row m (row_of r).
Proof.
  unfold clear_one, cleared_row. rewrite stuck_where_scope.
  destruct r as [u k src txt emb].
  unfold row_of, array_length, sql_eq_nat, set_embedding.
  cbn [modality embedding v_modality empty_embeddings uri source text_content].
  destruct (scope m k); [|now rewrite andb_false_r].
  destruct emb as [[|x e]|]; cbn; try reflexivity.

Qed.

Lemma modality_clear_one (m : option string) (r : record) :
  modality (clear_one m r) = modality r.
Proof. unfold clear_one. now destruct (stuck_where m r). Qed.

Lemma v_modality_cleared_row (m : option string) (g : verify_row) :
  v_modality (cleared_row m g) = v_modality g.
Proof. unfold cleared_row. now destruct (scope m (v_modality g)). Qed.

Lemma accumulate_cleared (m : option string) (g : verify_row) (r : record) :
  modality r = v_modality g ->
  accumulate (cleared_row m g) (clear_one m r)
  = cleared_row m (accumulate g r).
Proof.
  intros Hk. unfold accumulate.
  rewrite row_of_clear_one, v_modality_cleared_row.
  unfold cleared_row at 5. cbn [v_modality].
  unfold cleared_row. cbn [v_modality row_of]. rewrite Hk.
  destruct (scope m (v_modality g)); [|reflexivity].
  cbn [total_docs valid_embeddings null_embeddings empty_embeddings].
  f_equal. lia.
Qed.

Lemma group_add_cleared (m : option string) (r : record) (rows : list verify_row) :
  group_add (clear_one m r) (map (cleared_row m) rows)
  = map (cleared_row m) (group_add r rows).
Proof.
  induction rows as [|g rows IH]; cbn [map group_add].
  - now rewrite row_of_clear_one.
  - rewrite modality_clear_one, v_modality_cleared_row.
    destruct (String.compare (modality r) (v_modality g)) eqn:Hc; cbn [map].
    + apply String.compare_eq_iff in Hc. now rewrite accumulate_cleared.
    + now rewrite row_of_clear_one.
    + now rewrite IH.
Qed.

Lemma fold_cleared (m : option string) (todo : table) :
  forall rows,
    fold_left (fun groups r => group_add r groups) (clear_stuck m todo)
              (map (cleared_row m) rows)
    = map (cleared_row m)
          (fold_left (fun groups r => group_add r groups) todo rows).
Proof.
  induction todo as [|r todo IH]; intros rows; [reflexivity|].
  unfold clear_stuck, clear_where in *. cbn [map fold_left].
  change (if stuck_where m r then set_embedding None r else r)
    with (clear_one m r).
  rewrite group_add_cleared. apply IH.
Qed.

Lemma length_insert_distinct (x : string) (l : list string) :
  List.length (Py.insert_distinct x l) <= S (List.length l).
Proof.
  induction l as [|y l IH]; simpl; [lia|].
  destruct (String.compare x y); simpl; lia.
Qed.

Lemma length_sorted_distinct (l : list string) :
  List.length (Py.sorted_distinct l) <= List.length l.
Proof.
  unfold Py.sorted_distinct.
  induction l as [|x l IH]; cbn [fold_right List.length]; [lia|].
  pose proof (length_insert_distinct x (fold_right Py.insert_distinct [] l)).
  lia.
Qed.

Lemma distinct_count (l : list string) :
  List.length (Py.sorted_distinct l) = List.length l <-> NoDup l.
Proof.
  pose proof (OrderFacts.sorted_sorted_distinct l) as Hs.
  apply strongly_sorted_nodup in Hs.
  pose proof (length_sorted_distinct l) as Hle.
  split.
  - intros Heq. apply (NoDup_incl_NoDup Hs); [lia|].
    intros x Hx. now apply OrderFacts.in_sorted_distinct.
  - intros Hnd.
    assert (List.length l <= List.length (Py.sorted_distinct l)); [|lia].
    apply NoDup_incl_length; [exact Hnd|].
    intros x Hx. now apply OrderFacts.in_sorted_distinct.
Qed.

Definition has_content (r : record) : Prop :=
  exists t, text_content r = Some t /\ t <> EmptyString.

(** X1: the totals of the health report add up to the number of records
    of the corpus: every record is counted in exactly one line. *)
Theorem verify_totals_add_up_to_corpus (corpus : table) :
  column_sum total_docs (verify_query corpus) = List.length corpus.
Proof.
  unfold verify_query.
  rewrite column_sum_fold by (intros g r; reflexivity).
  cbn [column_sum map list_sum fold_right row_of total_docs].
  induction corpus as [|r t IH]; simpl in *; lia.
Qed.

(** X2: in every line of the health report the three embedding counts
    do not cover the total: the difference is the number of records of
    the modality whose embedding is present with a length other than 0
    and 768, which the report shows in no column of its own. *)
Theorem verify_total_splits_into_classes (corpus : table) :
  Forall (fun g =>
            total_docs g
            = valid_embeddings g + null_embeddings g + empty_embeddings g
              + count (fun r => of_modality (v_modality g) r
                                && has_other_dimension r) corpus)
         (verify_query corpus).
Proof.
  destruct (verify_query_inv corpus) as (_ & _ & Hsum).
  unfold summarizes in Hsum. eapply Forall_impl; [|exact Hsum].
  intros g Hg. cbv beta in Hg.
  rewrite Hg at 1 2 3 4. cbn [summarize total_docs valid_embeddings null_embeddings empty_embeddings].
  apply count_classes.
Qed.

Lemma verify_clear_stuck (m : option string) (corpus : table) :
  verify_query (clear_stuck m corpus)
  = map (cleared_row m) (verify_query corpus).
Proof.
  unfold verify_query. apply (fold_cleared m corpus []).
Qed.

Lemma affected_rows_column (m : option string) (corpus : table) :
  num_dml_affected_rows m corpus
  = column_sum empty_embeddings
      (filter (fun g => scope m (v_modality g)) (verify_query corpus)).
Proof.
  unfold verify_query, num_dml_affected_rows.
  enough (H : forall todo rows,
             column_sum empty_embeddings
               (filter (fun g => scope m (v_modality g))
                  (fold_left (fun groups r => group_add r groups) todo rows))
             = column_sum empty_embeddings
                 (filter (fun g => scope m (v_modality g)) rows)
               + List.length (filter (stuck_where m) todo)).
  { rewrite H. reflexivity. }
  induction todo as [|r todo IH]; intros rows; cbn [fold_left filter List.length];
    [lia|].
  rewrite IH, column_sum_filter_group_add by (intros g r0; reflexivity).
  rewrite stuck_where_scope.
  assert (Hone : empty_embeddings (row_of r) <= 1).
  { unfold row_of, array_length, sql_eq_nat. cbn.
    destruct (embedding r) as [[|x e]|]; cbn; lia. }
  destruct (scope m (modality r)); [|rewrite andb_false_r; lia].
  destruct (Nat.eqb_spec (empty_embeddings (row_of r)) 1);
    cbn [andb List.length]; lia.
Qed.

Lemma clear_stuck_fixed (m : option string) (corpus : table) :
  num_dml_affected_rows m (clear_stuck m corpus) = 0
  /\ clear_stuck m (clear_stuck m corpus) = clear_stuck m corpus.
Proof.
  assert (Hno : forall r, stuck_where m (clear_one m r) = false).
  { intros r. unfold clear_one. destruct (stuck_where m r) eqn:Hw; [|exact Hw].
    unfold stuck_where. reflexivity. }
  unfold num_dml_affected_rows, clear_stuck, clear_where.
  induction corpus as [|r t [IH1 IH2]]; [split; reflexivity|].
  cbn [map filter].
  change (if stuck_where m r then set_embedding None r else r)
    with (clear_one m r).
  rewrite Hno. split; [exact IH1|]. now rewrite IH2.
Qed.

(** The UPDATE job of a plain option value that returns. *)
Lemma update_job_plain (env : fix_env) (m : option string)
      (corpus cleared : table) (affected : option nat) :
  plain_modality m = true ->
  update_job env m corpus = Py.Ok (cleared, affected) ->
  update_error env = None
  /\ cleared = clear_stuck m corpus
  /\ affected = Some (num_dml_affected_rows m corpus).
Proof.
  intros Hplain. unfold update_job. rewrite Hplain.
  destruct (update_error env); [discriminate|].
  intros H. injection H as <- <-. repeat split.
Qed.

(** X3: for a plain option value, the health report after the UPDATE
    of [fix_stuck] is the report before it with, in every line within
    the modality filter, the empty count moved into the null count;
    totals, valid counts, the lines outside the filter and the order of
    the lines are unchanged. *)
Theorem verify_after_clear_stuck
        (env : fix_env) (m : option string) (corpus cleared : table)
        (affected : option nat) :
  plain_modality m = true ->
  update_job env m corpus = Py.Ok (cleared, affected) ->
  verify_query cleared = map (cleared_row m) (verify_query corpus).
Proof.
  intros Hplain Hjob.
  destruct (update_job_plain env m corpus cleared affected Hplain Hjob)
    as (_ & -> & _).
  apply verify_clear_stuck.
Qed.

Lemma verify_after_clear_stuck_witness :
  verify_query (clear_stuck (Some "json") FixStuckFacts.stuck_corpus)
  = map (cleared_row (Some "json")) (verify_query FixStuckFacts.stuck_corpus).
Proof.
  apply (verify_after_clear_stuck FixStuckFacts.uv_missing (Some "json")
           FixStuckFacts.stuck_corpus
           (clear_stuck (Some "json") FixStuckFacts.stuck_corpus) (Some 1)).
  - reflexivity.
  - reflexivity.
Defined.

(** X4: for a plain option value, the number that [fix_stuck] reports
    as reset is the sum of the empty counts of the health report over
    the lines within the modality filter. *)
Theorem reset_count_is_empty_column
        (env : fix_env) (m : option string) (corpus cleared : table)
        (affected : option nat) :
  plain_modality m = true ->
  update_job env m corpus = Py.Ok (cleared, affected) ->
  affected
  = Some (column_sum empty_embeddings
            (filter (fun g => scope m (v_modality g)) (verify_query corpus))).
Proof.
  intros Hplain Hjob.
  destruct (update_job_plain env m corpus cleared affected Hplain Hjob)
    as (_ & _ & ->).
  now rewrite affected_rows_column.
Qed.

Lemma reset_count_is_empty_column_witness :
  Some 1
  = Some (column_sum empty_embeddings
            (filter (fun g => scope (Some "json") (v_modality g))
                    (verify_query FixStuckFacts.stuck_corpus))).
Proof.
  apply (reset_count_is_empty_column FixStuckFacts.uv_missing (Some "json")
           FixStuckFacts.stuck_corpus
           (clear_stuck (Some "json") FixStuckFacts.stuck_corpus) (Some 1)).
  - reflexivity.
  - reflexivity.
Defined.

(** X5: for a plain option value, the UPDATE of [fix_stuck] is
    idempotent: run again on the corpus that it has cleared, it affects
    no row and changes nothing. *)
Theorem clear_stuck_twice
        (env : fix_env) (m : option string) (corpus cleared : table)
        (affected : option nat) :
  plain_modality m = true ->
  update_job env m corpus = Py.Ok (cleared, affected) ->
  update_job env m cleared = Py.Ok (cleared, Some 0).
Proof.
  intros Hplain Hjob.
  destruct (update_job_plain env m corpus cleared affected Hplain Hjob)
    as (Hok & -> & _).
  unfold update_job. rewrite Hplain, Hok.
  destruct (clear_stuck_fixed m corpus) as [-> ->]. reflexivity.
Qed.

Lemma clear_stuck_twice_witness :
  update_job FixStuckFacts.uv_missing (Some "json")
             (clear_stuck (Some "json") FixStuckFacts.stuck_corpus)
  = Py.Ok (clear_stuck (Some "json") FixStuckFacts.stuck_corpus, Some 0).
Proof.
  apply (clear_stuck_twice FixStuckFacts.uv_missing (Some "json")
           FixStuckFacts.stuck_corpus
           (clear_stuck (Some "json") FixStuckFacts.stuck_corpus) (Some 1)).
  - reflexivity.
  - reflexivity.
Defined.

(** X6: [fix_validate] reports no duplicate documents exactly when no
    two records of the corpus have the same uri, and that all documents
    have content exactly when every record has a text that is neither
    NULL nor the empty string. *)
Theorem fix_validate_passes_iff (corpus : table) :
  fix_validate corpus = [NoDuplicateDocuments; AllHaveContent]
  <-> NoDup (map uri corpus) /\ Forall has_content corpus.
Proof.
  unfold fix_validate.
  set (missing := filter _ corpus).
  assert (Hmiss : missing = [] <-> Forall has_content corpus).
  { unfold missing, has_content. clear missing.
    induction corpus as [|r t IH]; cbn [filter].
    - split; [constructor|reflexivity].
    - destruct (text_content r) as [s|] eqn:Ht.
      + destruct (String.eqb_spec s EmptyString) as [->|Hne].
        * split; [discriminate|]. intros H. inversion H as [|? ? (s & Hs & Hne) _].
          subst. rewrite Ht in Hs. injection Hs as <-. now destruct Hne.
        * rewrite IH. split.
          -- intros H. constructor; [|exact H]. exists s. now split.
          -- intros H. now inversion H.
      + split; [discriminate|]. intros H. inversion H as [|? ? (s & Hs & _) _].
        subst. rewrite Ht in Hs. discriminate. }
  rewrite <- Hmiss, <- distinct_count, length_map.
  destruct (Nat.eqb_spec (List.length corpus)
              (List.length (Py.sorted_distinct (map uri corpus)))) as [He|He];
    cbn [negb].
  - destruct missing as [|r0 rest]; cbn [List.length Nat.ltb Nat.leb].
    + split; [intros _; split; [now symmetry|reflexivity]|reflexivity].
    + split; [discriminate|intros [_ H]; discriminate].
  - split; [discriminate|]. intros [H _]. now destruct He.
Qed.

(** X7: a corpus for which [fix_validate] reports no duplicate documents
    has at most one record per (uri, modality): the check of the command,
    on the uri alone, is at least as strict as the key of the corpus. *)
Theorem fix_validate_no_duplicates_unique (corpus : table) :
  nth 0 (fix_validate corpus) AllHaveContent = NoDuplicateDocuments ->
  UniqueFacts.unique corpus.
Proof.
  unfold fix_validate. cbn [nth].
  destruct (Nat.eqb_spec (List.length corpus)
              (List.length (Py.sorted_distinct (map uri corpus)))) as [He|He];
    cbn [negb]; [intros _|discriminate].
  assert (Hnd : NoDup (map uri corpus)).
  { apply distinct_count. now rewrite length_map. }
  unfold UniqueFacts.unique.
  clear He. induction corpus as [|r t IH]; cbn [map] in *; [constructor|].
  inversion Hnd as [|? ? Hnin Hrest]; subst. constructor; [|now apply IH].
  intros Hin. apply Hnin. apply in_map_iff in Hin.
  destruct Hin as (r0 & Hk & Hr0). apply in_map_iff. exists r0.
  split; [|exact Hr0]. unfold StoreFacts.key in Hk. congruence.
Qed.

Lemma fix_validate_no_duplicates_witness :
  UniqueFacts.unique (SetupMmgrep.search_corpus Deployment.sample_store).
Proof.
  apply fix_validate_no_duplicates_unique. vm_compute. reflexivity.
Defined.

End HealthFacts.

(** ** setup_mmgrep.py: the object tables *)

Module SetupFacts.
Import Store Grepctl SetupMmgrep ListFacts VerifyFacts.

(** A directory name: no separator of object names in it. *)
Fixpoint slash_free (s : string) : bool :=
  match s with
  | EmptyString => true
  | String a rest => negb (Ascii.eqb a "/") && slash_free rest
  end.

Lemma same_directory (m1 : string) :
  forall m2 v,
    slash_free m1 = true -> slash_free m2 = true ->
    String.prefix (m1 ++ "/") v = true ->
    String.prefix (m2 ++ "/") v = true ->
    m1 = m2.
Proof.
  induction m1 as [|a m1 IH]; intros m2 v Ha Hb H1 H2.
  - destruct m2 as [|b m2]; [reflexivity|exfalso].
    destruct v as [|c v]; [discriminate H1|].
    cbn [String.append String.prefix slash_free] in H1, H2, Hb.
    destruct (ascii_dec "/" c) as [<-|]; [|discriminate H1].
    destruct (ascii_dec b "/") as [->|]; [|discriminate H2].
    discriminate Hb.
  - destruct v as [|c v]; [discriminate H1|].
    cbn [String.append String.prefix slash_free] in H1, Ha. destruct (ascii_dec a c) as [->|]; [|discriminate H1].
    apply andb_true_iff in Ha. destruct Ha as [Hc Ha].
    destruct m2 as [|b m2].
    + exfalso. cbn [String.append String.prefix slash_free] in H2.
      destruct (ascii_dec "/" c) as [<-|]; [|discriminate H2].
      discriminate Hc.
    + cbn [String.append String.prefix slash_free] in H2, Hb. destruct (ascii_dec b c) as [->|]; [|discriminate H2].
      apply andb_true_iff in Hb. f_equal. apply (IH m2 v); tauto.
Qed.

(** X10: the object tables of two different directory names share no
    object: a uri matches the pattern of at most one modality
    directory. *)
Theorem object_tables_are_disjoint
        (cfg : config) (m1 m2 : string) (listing : list gcs_object)
        (o : gcs_object) :
  slash_free m1 = true -> slash_free m2 = true -> m1 <> m2 ->
  In o (obj_table cfg m1 listing) -> ~ In o (obj_table cfg m2 listing).
Proof.
  intros Hs1 Hs2 Hne H1 H2. apply Hne.
  unfold obj_table in H1, H2. apply filter_In in H1, H2.
  destruct H1 as [_ H1], H2 as [_ H2]. unfold uris_pattern in H1, H2.
  apply UniqueFacts.prefix_app_inv in H1. destruct H1 as (v1 & E & H1).
  rewrite E in H2.
  apply UniqueFacts.prefix_app_inv in H2. destruct H2 as (w1 & E1 & H2).
  apply UniqueFacts.app_inj_l in E1. subst w1.
  apply UniqueFacts.prefix_app_inv in H1. destruct H1 as (v2 & -> & H1).
  apply UniqueFacts.prefix_app_inv in H2. destruct H2 as (w2 & E2 & H2).
  apply UniqueFacts.app_inj_l in E2. subst w2.
  apply UniqueFacts.prefix_app_inv in H1. destruct H1 as (v3 & -> & H1).
  apply UniqueFacts.prefix_app_inv in H2. destruct H2 as (w3 & E3 & H2).
  apply UniqueFacts.app_inj_l in E3. subst w3.
  apply UniqueFacts.prefix_app_inv in H1. destruct H1 as (v4 & -> & H1).
  apply UniqueFacts.prefix_app_inv in H2. destruct H2 as (w4 & E4 & H2).
  apply UniqueFacts.app_inj_l in E4. subst w4.
  apply UniqueFacts.prefix_app_inv in H1. destruct H1 as (v5 & -> & H1).
  apply UniqueFacts.prefix_app_inv in H2. destruct H2 as (w5 & E5 & H2).
  apply UniqueFacts.app_inj_l in E5. subst w5.
  exact (same_directory m1 m2 v5 Hs1 Hs2 H1 H2).
Qed.

Lemma object_tables_are_disjoint_witness :
  ~ In (mk_gcs_object "gs://gcm-data-lake/multimodal-dataset/text/notes.txt"
                      (Some "notes"))
       (obj_table Deployment.sample_config "markdown" Deployment.sample_listing).
Proof.
  apply (object_tables_are_disjoint Deployment.sample_config "text" "markdown").
  - reflexivity.
  - reflexivity.
  - discriminate.
  - vm_compute. left. reflexivity.
Defined.

End SetupFacts.

(** ** ingest_json_csv.py: addressing, the dump marker, the next run *)

Module IngestFacts.
Import Store Json IngestJsonCsv PyFacts ListFacts.

(** *** [uri.split('/')] and ['/'.join] *)

Lemma join_cons_char (sep : string) (a : ascii) (p : string) (ps : list string) :
  Py.join sep (String a p :: ps) = String a (Py.join sep (p :: ps)).
Proof. destruct ps; reflexivity. Qed.

Lemma split_nonempty (c : ascii) (s : string) : Py.split c s <> [].
Proof.
  destruct s as [|a s]; cbn [Py.split]; [discriminate|].
  destruct (Ascii.eqb a c); [discriminate|].
  destruct (Py.split c s); discriminate.
Qed.

Lemma join_split (c : ascii) (s : string) :
  Py.join (String c EmptyString) (Py.split c s) = s.
Proof.
  induction s as [|a s IH]; [reflexivity|]. cbn [Py.split].
  pose proof (split_nonempty c s) as Hne.
  destruct (Py.split c s) as [|p ps]; [now destruct Hne|].
  destruct (Ascii.eqb_spec a c) as [->|Hac].
  - change (Py.join (String c EmptyString) (EmptyString :: p :: ps))
      with (String c (Py.join (String c EmptyString) (p :: ps))).
    now rewrite IH.
  - now rewrite join_cons_char, IH.
Qed.

Lemma split_app (a b : string) :
  SetupFacts.slash_free a = true ->
  Py.split "/" (a ++ String "/" b) = a :: Py.split "/" b.
Proof.
  induction a as [|x a IH]; cbn [SetupFacts.slash_free String.append Py.split].
  - intros _. reflexivity.
  - intros H. apply andb_true_iff in H. destruct H as [Hx Ha].
    destruct (Ascii.eqb x "/"); [discriminate Hx|].
    now rewrite (IH Ha).
Qed.

Lemma split_gs_uri (bucket blob : string) :
  SetupFacts.slash_free bucket = true ->
  Py.split "/" ("gs://" ++ bucket ++ "/" ++ blob)
  = "gs:" :: EmptyString :: bucket :: Py.split "/" blob.
Proof.
  intros Hb.
  change ("gs://" ++ bucket ++ "/" ++ blob)
    with ("gs:" ++ String "/" (EmptyString ++ String "/" (bucket ++ String "/" blob))).
  now rewrite !split_app by (reflexivity || exact Hb).
Qed.

(** *** The two dumps of a JSON value *)

Lemma json_nested_ind (P : json -> Prop) :
  P JNull ->
  (forall b, P (JBool b)) ->
  (forall z, P (JInt z)) ->
  (forall f, P (JFloat f)) ->
  (forall s, P (JStr s)) ->
  (forall items, Forall P items -> P (JList items)) ->
  (forall members, Forall (fun kv => P (snd kv)) members -> P (JDict members)) ->
  forall j, P j.
Proof.
  intros Hnull Hbool Hint Hfloat Hstr Hlist Hdict.
  fix IH 1. intros [|b|z|f|s|items|members].
  - exact Hnull.
  - apply Hbool.
  - apply Hint.
  - apply Hfloat.
  - apply Hstr.
  - apply Hlist. induction items as [|x items IHl]; constructor.
    + apply IH.
    + exact IHl.
  - apply Hdict. induction members as [|[k v] members IHl]; constructor.
    + apply IH.
    + exact IHl.
Qed.

Lemma len_join_mono {A} (sep sep' : string) (f g : A -> string) (l : list A) :
  Py.len sep <= Py.len sep' ->
  Forall (fun x => Py.len (f x) <= Py.len (g x)) l ->
  Py.len (Py.join sep (map f l)) <= Py.len (Py.join sep' (map g l)).
Proof.
  intros Hsep. unfold Py.join.
  induction l as [|x l IH]; intros Hall; [cbn; lia|].
  inversion Hall as [|? ? Hx Hrest]; subst. specialize (IH Hrest).
  destruct l as [|y l]; [exact Hx|].
  change (String.concat sep (map f (x :: y :: l)))
    with (f x ++ sep ++ String.concat sep (map f (y :: l))).
  change (String.concat sep' (map g (x :: y :: l)))
    with (g x ++ sep' ++ String.concat sep' (map g (y :: l))).
  rewrite !len_app. lia.
Qed.

Lemma len_separator (indent level : nat) :
  Py.len ", " <= Py.len ("," ++ newline_indent indent level).
Proof.
  unfold newline_indent. rewrite !len_app. cbn. lia.
Qed.

Lemma dumps_le_dumps_indent (j : json) :
  forall indent level,
    Py.len (dumps j) <= Py.len (dumps_indent indent level j).
Proof.
  induction j as [|b|z|f|s|items IH|members IH] using json_nested_ind;
    intros indent level; try (cbn; lia).
  - destruct items as [|x items]; [cbn; lia|].
    change (dumps (JList (x :: items)))
      with ("[" ++ Py.join ", " (map dumps (x :: items)) ++ "]").
    change (dumps_indent indent level (JList (x :: items)))
      with ("[" ++ newline_indent indent (S level)
                ++ Py.join ("," ++ newline_indent indent (S level))
                           (map (dumps_indent indent (S level)) (x :: items))
                ++ newline_indent indent level ++ "]").
    rewrite !len_app.
    pose proof (len_join_mono ", " ("," ++ newline_indent indent (S level))
                  dumps (dumps_indent indent (S level)) (x :: items)
                  (len_separator indent (S level))) as Hj.
    assert (Hall : Forall (fun v => Py.len (dumps v)
                                    <= Py.len (dumps_indent indent (S level) v))
                          (x :: items)).
    { eapply Forall_impl; [|exact IH]. intros v Hv. apply Hv. }
    specialize (Hj Hall). lia.
  - destruct members as [|kv members]; [cbn; lia|].
    change (dumps (JDict (kv :: members)))
      with ("{" ++ Py.join ", "
                     (map (fun kv => dumps_str (fst kv) ++ ": " ++ dumps (snd kv))
                          (kv :: members)) ++ "}").
    change (dumps_indent indent level (JDict (kv :: members)))
      with ("{" ++ newline_indent indent (S level)
                ++ Py.join ("," ++ newline_indent indent (S level))
                     (map (fun kv => dumps_str (fst kv) ++ ": "
                                       ++ dumps_indent indent (S level) (snd kv))
                          (kv :: members))
                ++ newline_indent indent level ++ "}").
    rewrite !len_app.
    pose proof (len_join_mono ", " ("," ++ newline_indent indent (S level))
                  (fun kv => dumps_str (fst kv) ++ ": " ++ dumps (snd kv))
                  (fun kv => dumps_str (fst kv) ++ ": "
                               ++ dumps_indent indent (S level) (snd kv))
                  (kv :: members)
                  (len_separator indent (S level))) as Hj.
    assert (Hall : Forall (fun kv : string * json =>
                             Py.len (dumps_str (fst kv) ++ ": " ++ dumps (snd kv))
                             <= Py.len (dumps_str (fst kv) ++ ": "
                                          ++ dumps_indent indent (S level) (snd kv)))
                          (kv :: members)).
    { eapply Forall_impl; [|exact IH]. intros v Hv. cbv beta in Hv.
      rewrite !len_app. specialize (Hv indent (S level)). lia. }
    specialize (Hj Hall). lia.
Qed.


Lemma join_starts (sep : string) (a : ascii) (p : string) (ps : list string) :
  Py.join sep (String a p :: ps) <> EmptyString.
Proof. rewrite join_cons_char. discriminate. Qed.

Lemma json_text_truthy (uri : string) (data : json) (now : string) :
  Py.truthy (Some (Py.join Py.nl (json_content_parts uri data now))) = true.
Proof.
  unfold json_content_parts. cbn [List.app String.append Py.truthy].
  apply negb_true_iff, String.eqb_neq, join_starts.
Qed.

Lemma csv_text_truthy (svc : services) (uri csv_content : string)
      (headers : option (list string)) (rows : list csv_row) (now : string)
      (parts : list string) :
  csv_content_parts svc uri csv_content headers rows now = Py.Ok parts ->
  Py.truthy (Some (Py.join Py.nl parts)) = true.
Proof.
  unfold csv_content_parts. intros H.
  assert (Hhead : exists a p ps, parts = String a p :: ps).
  { destruct rows as [|row rows]; [|destruct headers as [hs|]; [|discriminate H]];
      injection H as <-; cbn [List.app String.append]; eauto. }
  destruct Hhead as (a & p & ps & ->). cbn [Py.truthy].
  apply negb_true_iff, String.eqb_neq, join_starts.
Qed.

Definition returned (result : option string * list string) : bool :=
  match fst result with
  | Some _ => true
  | None => false
  end.

Definition json_or_csv (r : record) : bool :=
  (modality r =? "json") || (modality r =? "csv").

Lemma existing_uris_app (corpus rows : table) :
  Forall (fun r => json_or_csv r = true) rows ->
  existing_uris (List.app corpus rows)
  = List.app (existing_uris corpus) (map uri rows).
Proof.
  intros Hall. unfold existing_uris. fold json_or_csv.
  rewrite filter_app, map_app. f_equal. f_equal.
  induction rows as [|r rows IH]; [reflexivity|].
  inversion Hall as [|? ? Hr Hrest]; subst.
  cbn [filter]. rewrite Hr. f_equal. now apply IH.
Qed.

Lemma new_uris_app (obj existing more : list string) :
  new_uris obj (List.app existing more)
  = filter (fun u => negb (Py.mem u more)) (new_uris obj existing).
Proof.
  unfold new_uris.
  induction (Py.sorted_distinct obj) as [|u l IH]; [reflexivity|].
  cbn [filter]. unfold Py.mem in *. rewrite existsb_app, negb_orb.
  destruct (existsb (String.eqb u) existing); cbn [negb andb filter];
    [exact IH|].
  destruct (existsb (String.eqb u) more); cbn [negb]; now rewrite IH.
Qed.

Lemma pools_json_or_csv env corpus :
  Forall (fun r => json_or_csv r = true)
         (List.app (documents (MainFacts.json_pool env corpus))
                   (documents (MainFacts.csv_pool env corpus))).
Proof.
  apply Forall_app. split; apply Forall_forall; intros d Hd;
    apply MainFacts.pool_documents_in in Hd; destruct Hd as (Hm & _);
    unfold json_or_csv; rewrite Hm; reflexivity.
Qed.

(** X11: on a uri with fewer than three parts between slashes both
    adapters give up before they call any service: they return no text
    and log the IndexError of [uri.split('/')[2]]. *)
Theorem adapters_give_up_on_short_uri (svc : services) (now uri : string) :
  List.length (Py.split "/" uri) <= 2 ->
  process_json_file svc now uri
  = (None, ["Failed to process JSON " ++ uri ++ ": list index out of range"])
  /\ process_csv_file svc now uri
     = (None, ["Failed to process CSV " ++ uri ++ ": list index out of range"]).
Proof.
  intros Hlen. unfold process_json_file, process_csv_file, Py.index.
  assert (Hnone : nth_error (Py.split "/" uri) 2 = None)
    by (apply nth_error_None; exact Hlen).
  rewrite Hnone. split; reflexivity.
Qed.

Lemma adapters_give_up_on_short_uri_witness :
  process_json_file AdapterFacts.sample_services "2025-01-01 00:00:00 UTC"
                    "bucket/a.json"
  = (None, ["Failed to process JSON bucket/a.json: list index out of range"]).
Proof.
  apply (adapters_give_up_on_short_uri AdapterFacts.sample_services
           "2025-01-01 00:00:00 UTC" "bucket/a.json").
  vm_compute. lia.
Defined.

(** X12: for a uri [gs://<bucket>/<blob>] whose bucket name holds no
    slash, both adapters download the object [<blob>] of the bucket
    [<bucket>], whatever slashes the object name holds, and return a text
    exactly when the download and the parsing return. *)
Theorem adapters_download_bucket_and_blob
        (svc : services) (now bucket blob : string) :
  SetupFacts.slash_free bucket = true ->
  let uri := "gs://" ++ bucket ++ "/" ++ blob in
  process_json_file svc now uri
  = match download_as_text svc bucket blob with
    | Py.Raise e => (None, ["Failed to process JSON " ++ uri ++ ": " ++ e])
    | Py.Ok json_content =>
        match json_loads svc json_content with
        | Py.Raise e => (None, ["Failed to process JSON " ++ uri ++ ": " ++ e])
        | Py.Ok data =>
            (Some (Py.join Py.nl (json_content_parts uri data now)), [])
        end
    end
  /\ process_csv_file svc now uri
     = match download_as_text svc bucket blob with
       | Py.Raise e => (None, ["Failed to process CSV " ++ uri ++ ": " ++ e])
       | Py.Ok csv_content =>
           match dict_reader svc csv_content with
           | Py.Raise e => (None, ["Failed to process CSV " ++ uri ++ ": " ++ e])
           | Py.Ok parsed =>
               match csv_content_parts svc uri csv_content
                                       (fst parsed) (snd parsed) now with
               | Py.Raise e =>
                   (None, ["Failed to process CSV " ++ uri ++ ": " ++ e])
               | Py.Ok parts => (Some (Py.join Py.nl parts), [])
               end
           end
       end.
Proof.
  intros Hb uri. unfold process_json_file, process_csv_file.
  assert (Hs : Py.split "/" uri
               = "gs:" :: EmptyString :: bucket :: Py.split "/" blob)
    by (apply split_gs_uri; exact Hb).
  rewrite !Hs. cbn [Py.index nth_error skipn Py.bind].
  change (Py.join "/" (Py.split "/" blob))
    with (Py.join (String "/" EmptyString) (Py.split "/" blob)).
  rewrite join_split. split.
  - destruct (download_as_text svc bucket blob) as [c|e]; cbn [Py.bind];
      [|reflexivity].
    destruct (json_loads svc c) as [d|e]; reflexivity.
  - destruct (download_as_text svc bucket blob) as [c|e]; cbn [Py.bind];
      [|reflexivity].
    destruct (dict_reader svc c) as [d|e]; cbn [Py.bind]; [|reflexivity].
    destruct (csv_content_parts svc uri c (fst d) (snd d) now); reflexivity.
Qed.

Lemma adapters_download_bucket_and_blob_witness :
  process_json_file AdapterFacts.sample_services "2025-01-01 00:00:00 UTC"
                    "gs://gcm-data-lake/multimodal-dataset/json/a.json"
  = (Some (Py.join Py.nl
             (json_content_parts
                "gs://gcm-data-lake/multimodal-dataset/json/a.json"
                (JDict []) "2025-01-01 00:00:00 UTC")), []).
Proof.
  apply (adapters_download_bucket_and_blob AdapterFacts.sample_services
           "2025-01-01 00:00:00 UTC" "gcm-data-lake"
           "multimodal-dataset/json/a.json").
  reflexivity.
Defined.

(** X13: the JSON adapter never marks as truncated a dump that it did
    not cut: when the indented dump has at most 5000 characters it is
    kept whole and without the marker. *)
Theorem json_dump_kept_whole_without_marker (data : json) :
  Py.len (dumps_indent 2 0 data) <= 5000 ->
  json_str data = dumps_indent 2 0 data.
Proof.
  intros Hlen. rewrite AdapterFacts.json_str_marker.
  rewrite Nat.min_r by exact Hlen.
  pose proof (dumps_le_dumps_indent data 2 0) as Hle.
  destruct (Nat.ltb_spec (Py.len (dumps_indent 2 0 data)) (Py.len (dumps data)))
    as [Hlt|_]; [lia|].
  now apply slice_to_all.
Qed.

Lemma json_dump_kept_whole_without_marker_witness :
  json_str (JList [JInt 1; JDict [("k", JStr "v")]])
  = dumps_indent 2 0 (JList [JInt 1; JDict [("k", JStr "v")]]).
Proof.
  apply (json_dump_kept_whole_without_marker
           (JList [JInt 1; JDict [("k", JStr "v")]])).
  vm_compute. lia.
Defined.

(** X14: the CSV adapter keeps a content of at most 3000 characters
    whole and without the marker, and cuts a longer one to its first
    3000 characters followed by the marker: 3016 characters in all. *)
Theorem csv_preview_cut_exactly_when_long (csv_content : string) :
  (Py.len csv_content <= 3000 /\ csv_preview csv_content = csv_content)
  \/ (3000 < Py.len csv_content
      /\ csv_preview csv_content
         = Py.slice_to 3000 csv_content ++ truncated_marker
      /\ Py.len (csv_preview csv_content) = 3016).
Proof.
  rewrite AdapterFacts.csv_preview_marker.
  destruct (Nat.ltb_spec 3000 (Py.len csv_content)) as [Hlt|Hle].
  - right. split; [exact Hlt|]. split; [reflexivity|].
    rewrite len_app, len_slice_to, AdapterFacts.len_truncated_marker. lia.
  - left. split; [exact Hle|reflexivity].
Qed.

(** X15: a text that an adapter returns is never empty, so the test
    [if content:] of [main] fails only for the uris whose adapter returned
    [None]. *)
Theorem adapter_text_is_never_empty (svc : services) (now uri : string) :
  Py.truthy (fst (process_json_file svc now uri))
  = returned (process_json_file svc now uri)
  /\ Py.truthy (fst (process_csv_file svc now uri))
     = returned (process_csv_file svc now uri).
Proof.
  unfold process_json_file, process_csv_file, returned. split.
  - destruct (Py.index (Py.split "/" uri) 2) as [b|e]; cbn [Py.bind fst];
      [|reflexivity].
    destruct (download_as_text svc b _) as [c|e]; cbn [Py.bind fst];
      [|reflexivity].
    destruct (json_loads svc c) as [d|e]; cbn [Py.bind fst]; [|reflexivity].
    apply json_text_truthy.
  - destruct (Py.index (Py.split "/" uri) 2) as [b|e]; cbn [Py.bind fst];
      [|reflexivity].
    destruct (download_as_text svc b _) as [c|e]; cbn [Py.bind fst];
      [|reflexivity].
    destruct (dict_reader svc c) as [d|e]; cbn [Py.bind fst]; [|reflexivity].
    destruct (csv_content_parts svc uri c (fst d) (snd d) now) as [parts|e] eqn:Hp;
      cbn [Py.bind fst]; [|reflexivity].
    exact (csv_text_truthy _ _ _ _ _ _ _ Hp).
Qed.

Lemma skipn_app_exact {A} (l added : list A) :
  skipn (List.length l) (List.app l added) = added.
Proof. induction l as [|x l IH]; [reflexivity|exact IH]. Qed.

(** X17: what the next run of [main] selects from an object table: the
    new uris of this run without the uris of the records that this run
    added to the corpus, whether the insertion returned, reported errors
    or raised; so a file whose row was stored is not processed again and
    every other file is. *)
Theorem next_run_selects_what_was_not_stored
        (env : run_env) (corpus : table) (obj : list string) :
  let r := main env corpus in
  let stored := skipn (List.length corpus) (corpus_after r) in
  corpus_after r = List.app corpus stored
  /\ new_uris obj (existing_uris (corpus_after r))
     = filter (fun u => negb (Py.mem u (map uri stored)))
              (new_uris obj (existing_uris corpus)).
Proof.
  cbv zeta. rewrite MainFacts.main_corpus_after.
  pose proof (pools_json_or_csv env corpus) as Hall.
  destruct (MainFacts.insert_appends env
              (List.app (documents (MainFacts.json_pool env corpus))
                        (documents (MainFacts.csv_pool env corpus)))
              corpus) as (flags & ->).
  rewrite skipn_app_exact. split; [reflexivity|].
  rewrite existing_uris_app, new_uris_app; [reflexivity|].
  apply Forall_forall. intros r Hr. apply MainFacts.in_stored_rows in Hr.
  apply in_map_iff in Hr. destruct Hr as (d0 & <- & Hd0).
  rewrite Forall_forall in Hall. exact (Hall d0 Hd0).
Qed.

End IngestFacts.

(** ** complete_vision_analysis.py: what a run leaves for the next one *)

Module ResumeFacts.
Import Store CompleteVisionAnalysis StoreFacts VisionFacts.

Lemma prefix_app (p : string) :
  forall a b, String.prefix p a = true -> String.prefix p (a ++ b) = true.
Proof.
  induction p as [|c p IH]; intros a b H.
  - now destruct (a ++ b).
  - destruct a as [|d a]; [discriminate H|].
    cbn [String.prefix String.append] in *.
    destruct (ascii_dec c d); [now apply IH|discriminate H].
Qed.

Lemma contains_app_l (sub a b : string) :
  Py.contains sub a = true -> Py.contains sub (a ++ b) = true.
Proof.
  induction a as [|c a IH]; cbn [Py.contains String.append].
  - rewrite orb_false_r. intros H. destruct sub; [|discriminate H].
    destruct b; reflexivity.
  - intros H. apply orb_true_iff in H. apply orb_true_iff.
    destruct H as [H|H]; [left|right; now apply IH].
    exact (prefix_app sub (String c a) b H).
Qed.

Lemma contains_app_r (sub a b : string) :
  Py.contains sub b = true -> Py.contains sub (a ++ b) = true.
Proof.
  intros H. induction a as [|c a IH]; cbn [Py.contains String.append];
    [exact H|].
  rewrite IH. apply orb_true_r.
Qed.

Lemma contains_join (sub sep x : string) (parts : list string) :
  In x parts -> Py.contains sub x = true ->
  Py.contains sub (Py.join sep parts) = true.
Proof.
  intros Hin Hx. unfold Py.join.
  induction parts as [|p parts IH]; [destruct Hin|].
  destruct parts as [|q parts].
  - destruct Hin as [->|[]]. exact Hx.
  - change (String.concat sep (p :: q :: parts))
      with (p ++ sep ++ String.concat sep (q :: parts)).
    destruct Hin as [->|Hin]; [now apply contains_app_l|].
    apply contains_app_r, contains_app_r. now apply IH.
Qed.

Lemma marker_in_text (uri : string) (a : annotations) (now : string) :
  Py.contains vision_marker (Py.join Py.nl (description_parts uri a now)) = true.
Proof.
  apply (contains_join _ _ "Analysis: Complete Vision API content extraction").
  - unfold description_parts. do 6 (apply in_or_app; right). now left.
  - vm_compute. reflexivity.
Qed.

Lemma updated_text (ups : list (string * string)) :
  forall r,
    In (uri r) (map fst ups) ->
    exists text, In (uri r, text) ups
                 /\ text_content (update_record ups r) = Some text.
Proof.
  induction ups as [|up ups IH]; intros r Hin; [destruct Hin|].
  change (update_record (up :: ups) r)
    with (update_record ups
            (if uri r =? fst up then set_text_content (Some (snd up)) r else r)).
  set (r1 := if uri r =? fst up then set_text_content (Some (snd up)) r else r).
  assert (Hu : uri r1 = uri r)
    by (unfold r1; destruct (uri r =? fst up); reflexivity).
  destruct (in_dec string_dec (uri r) (map fst ups)) as [Hlater|Hlast].
  - rewrite <- Hu in Hlater. destruct (IH r1 Hlater) as (text & Ht & Hc).
    exists text. rewrite <- Hu. split; [now right|exact Hc].
  - destruct Hin as [Heq|Hin]; [|contradiction].
    exists (snd up). split; [left; rewrite <- Heq; now destruct up|].
    rewrite update_record_untouched by (now rewrite Hu).
    unfold r1. rewrite <- Heq, String.eqb_refl. reflexivity.
Qed.

Lemma updates_of_marked svc clock uris u text :
  In (u, text) (updates_of svc clock uris) ->
  Py.contains vision_marker text = true.
Proof.
  unfold updates_of. rewrite in_map_iff. intros (u0 & Heq & Hin).
  injection Heq as <- <-. apply filter_In in Hin. destruct Hin as [_ Ha].
  unfold analyzed, failure in Ha. unfold text_for.
  destruct (annotate svc u0) as [a|e]; [apply marker_in_text|discriminate Ha].
Qed.

Lemma updates_of_uris svc clock uris u :
  In u (map fst (updates_of svc clock uris))
  <-> In u uris /\ analyzed svc u = true.
Proof.
  unfold updates_of. rewrite map_map. cbn [fst]. rewrite map_id.
  apply filter_In.
Qed.

(** One record through a run of [main]. *)
Lemma not_analyzed_after svc clock corpus r :
  In r corpus ->
  not_analyzed (update_record (updates_of svc clock (remaining_uris corpus)) r)
  = not_analyzed r && negb (analyzed svc (uri r)).
Proof.
  intros Hr. set (ups := updates_of svc clock (remaining_uris corpus)).
  destruct (in_dec string_dec (uri r) (map fst ups)) as [Hin|Hnin].
  - destruct (updated_text ups r Hin) as (text & Ht & Hc).
    apply updates_of_uris in Hin. destruct Hin as [_ Ha]. rewrite Ha.
    rewrite andb_false_r. unfold not_analyzed. rewrite Hc.
    rewrite (updates_of_marked _ _ _ _ _ Ht). apply andb_false_r.
  - rewrite update_record_untouched by exact Hnin.
    destruct (not_analyzed r) eqn:Hn; [|reflexivity].
    destruct (analyzed svc (uri r)) eqn:Ha; [exfalso|reflexivity].
    apply Hnin, updates_of_uris. split; [|exact Ha].
    unfold remaining_uris. apply OrderFacts.in_sorted. apply in_map.
    apply filter_In. now split.
Qed.

Lemma filter_insert_sorted (p : string -> bool) (x : string) (l : list string) :
  List.length (filter p (Py.insert_sorted x l))
  = List.length (filter p (x :: l)).
Proof.
  induction l as [|y l IH]; [reflexivity|]. cbn [Py.insert_sorted].
  destruct (String.leb x y); [reflexivity|].
  cbn [filter] in *. destruct (p y), (p x); cbn [List.length] in *; lia.
Qed.

Lemma filter_sorted (p : string -> bool) (l : list string) :
  List.length (filter p (Py.sorted l)) = List.length (filter p l).
Proof.
  unfold Py.sorted. induction l as [|x l IH]; [reflexivity|].
  cbn [fold_right]. rewrite filter_insert_sorted. cbn [filter].
  destruct (p x); cbn [List.length]; now rewrite IH.
Qed.

Lemma length_sorted (l : list string) : List.length (Py.sorted l) = List.length l.
Proof.
  assert (Hi : forall x s, List.length (Py.insert_sorted x s) = S (List.length s)).
  { intros x s. induction s as [|y s IH]; [reflexivity|]. cbn [Py.insert_sorted].
    destruct (String.leb x y); cbn [List.length]; [reflexivity|now rewrite IH]. }
  unfold Py.sorted. induction l as [|x l IH]; [reflexivity|].
  cbn [fold_right List.length]. now rewrite Hi, IH.
Qed.

Lemma filter_split {A} (p q : A -> bool) (l : list A) :
  List.length (filter p l)
  = List.length (filter (fun x => q x) (filter p l))
    + List.length (filter (fun x => p x && negb (q x)) l).
Proof.
  induction l as [|x l IH]; [reflexivity|]. cbn [filter].
  destruct (p x); cbn [andb filter]; [|exact IH].
  destruct (q x); cbn [negb List.length]; lia.
Qed.

Lemma leaves_the_failures
        (svc : services) (clock : string -> string) (corpus : table) (u : string) :
  In u (remaining_uris (corpus_after (main svc clock corpus)))
  <-> In u (remaining_uris corpus) /\ analyzed svc u = false.
Proof.
  destruct (main_spec svc clock corpus) as (Hc & _ & _).
  rewrite Hc, apply_updates_map.
  pose proof (not_analyzed_after svc clock corpus) as Hna.
  set (ups := updates_of svc clock (remaining_uris corpus)) in *.
  unfold remaining_uris.
  rewrite !OrderFacts.in_sorted, !in_map_iff. split.
  - intros (r' & <- & Hr'). apply filter_In in Hr'. destruct Hr' as [Hin Hn].
    apply in_map_iff in Hin. destruct Hin as (r & <- & Hr).
    rewrite (Hna r Hr) in Hn.
    apply andb_true_iff in Hn. destruct Hn as [Hn Ha].
    destruct (update_record_fields ups r) as (Hu & _). rewrite Hu. split.
    + exists r. split; [reflexivity|]. apply filter_In. now split.
    + now apply negb_true_iff.
  - intros [(r & <- & Hr) Ha]. apply filter_In in Hr. destruct Hr as [Hr Hn].
    exists (update_record ups r).
    split; [apply update_record_fields|].
    apply filter_In. split; [now apply in_map|].
    rewrite (Hna r Hr), Hn, Ha. reflexivity.
Qed.

Lemma count_balances
        (svc : services) (clock : string -> string) (corpus : table) :
  success_count (main svc clock corpus)
  + List.length (remaining_uris (corpus_after (main svc clock corpus)))
  = List.length (remaining_uris corpus).
Proof.
  destruct (main_spec svc clock corpus) as (Hc & Hn & _).
  rewrite Hc, Hn, apply_updates_map.
  pose proof (not_analyzed_after svc clock corpus) as Hna.
  set (ups := updates_of svc clock (remaining_uris corpus)) in *.
  unfold remaining_uris.
  rewrite !length_sorted, filter_sorted, !length_map.
  rewrite (filter_split not_analyzed (fun r => analyzed svc (uri r)) corpus).
  f_equal.
  - generalize (filter not_analyzed corpus). intros l.
    induction l as [|r l IH]; [reflexivity|]. cbn [map filter].
    destruct (analyzed svc (uri r)); cbn [List.length]; now rewrite IH.
  - assert (H : forall l, (forall r, In r l -> In r corpus) ->
                  List.length (filter not_analyzed (map (update_record ups) l))
                  = List.length
                      (filter (fun r => not_analyzed r
                                        && negb (analyzed svc (uri r))) l)).
    { induction l as [|r l IH]; intros Hsub; [reflexivity|]. cbn [map filter].
      rewrite (Hna r (Hsub r (or_introl eq_refl))).
      assert (IHl := IH (fun r0 H0 => Hsub r0 (or_intror H0))).
      destruct (not_analyzed r && negb (analyzed svc (uri r)));
        cbn [List.length]; now rewrite IHl. }
    apply H. auto.
Qed.

(** Two images, and a Vision API that refuses the first of them. *)
Definition two_images : table :=
  [mk_record "gs://gcm-data-lake/multimodal-dataset/images/a.jpg" "image"
             None None None;
   mk_record "gs://gcm-data-lake/multimodal-dataset/images/b.jpg" "image"
             None (Some "Image: b.jpg") None].

Definition refuses_first : services :=
  mk_services
    (fun u => if u =? "gs://gcm-data-lake/multimodal-dataset/images/a.jpg"
              then Py.Raise "403 Forbidden"
              else Py.Ok (mk_annotations [mk_label "Bird" "98.1%"] [] [] []))
    (fun _ => None)
    (fun _ _ => "50.0").

Lemma two_images_selected_once :
  NoDup (remaining_uris two_images).
Proof.
  vm_compute. constructor; [intros [H|[]]; discriminate H|].
  constructor; [intros []|constructor].
Defined.

(** X18: when every image to analyse is selected once, the images that
    the next run of [main] selects are the images that this run selected
    and failed to analyse: an image is still selected exactly when it
    was selected and its annotation or its UPDATE raised. *)
Theorem vision_main_leaves_the_failures
        (svc : services) (clock : string -> string) (corpus : table) (u : string) :
  NoDup (remaining_uris corpus) ->
  In u (remaining_uris (corpus_after (main svc clock corpus)))
  <-> In u (remaining_uris corpus) /\ analyzed svc u = false.
Proof. intros _. apply leaves_the_failures. Qed.

Lemma vision_main_leaves_the_failures_witness :
  In "gs://gcm-data-lake/multimodal-dataset/images/a.jpg"
     (remaining_uris
        (corpus_after (main refuses_first (fun _ => "2025-01-01 00:00:00 UTC")
                            two_images)))
  <-> In "gs://gcm-data-lake/multimodal-dataset/images/a.jpg"
         (remaining_uris two_images)
      /\ analyzed refuses_first
           "gs://gcm-data-lake/multimodal-dataset/images/a.jpg" = false.
Proof.
  apply (vision_main_leaves_the_failures refuses_first
           (fun _ => "2025-01-01 00:00:00 UTC") two_images
           "gs://gcm-data-lake/multimodal-dataset/images/a.jpg").
  exact two_images_selected_once.
Defined.

(** X19: when every image to analyse is selected once, the count of a
    run of [main] balances: the images it counts as analysed and the
    images that the next run will select add up to the images that this
    run selected. *)
Theorem vision_main_count_balances
        (svc : services) (clock : string -> string) (corpus : table) :
  NoDup (remaining_uris corpus) ->
  success_count (main svc clock corpus)
  + List.length (remaining_uris (corpus_after (main svc clock corpus)))
  = List.length (remaining_uris corpus).
Proof. intros _. apply count_balances. Qed.

Lemma vision_main_count_balances_witness :
  success_count (main refuses_first (fun _ => "2025-01-01 00:00:00 UTC")
                      two_images)
  + List.length
      (remaining_uris
         (corpus_after (main refuses_first (fun _ => "2025-01-01 00:00:00 UTC")
                             two_images)))
  = List.length (remaining_uris two_images).
Proof.
  apply (vision_main_count_balances refuses_first
           (fun _ => "2025-01-01 00:00:00 UTC") two_images).
  exact two_images_selected_once.
Defined.

End ResumeFacts.

(** ** obsolete/update_all_images_vision.py: batches, counts, what is written *)

Module BatchFacts.
Import Store UpdateAllImagesVision ListFacts.

(** *** The slices of [main] *)

Lemma range_from_lt (step stop : nat) :
  forall fuel start i, In i (range_from fuel start stop step) -> i < stop.
Proof.
  induction fuel as [|k IH]; intros start i Hin; [destruct Hin|].
  cbn [range_from] in Hin.
  destruct (Nat.ltb_spec start stop) as [Hlt|_]; [|destruct Hin].
  destruct Hin as [<-|Hin]; [exact Hlt|]. exact (IH _ _ Hin).
Qed.

Lemma slices_concat {A} (step : nat) (l : list A) :
  0 < step ->
  forall fuel start,
    List.length l - start <= fuel ->
    List.concat (map (fun i => firstn step (skipn i l))
                (range_from fuel start (List.length l) step))
    = skipn start l.
Proof.
  intros Hstep. induction fuel as [|k IH]; intros start Hfuel.
  - cbn. symmetry. apply skipn_all2. lia.
  - cbn [range_from].
    destruct (Nat.ltb_spec start (List.length l)) as [Hlt|Hge].
    + cbn [map List.concat]. rewrite IH by lia.
      rewrite Nat.add_comm, <- skipn_skipn. apply firstn_skipn.
    + cbn. symmetry. apply skipn_all2. lia.
Qed.

Lemma batches_concat (image_uris : list string) :
  List.concat (batches image_uris) = image_uris.
Proof.
  unfold batches. rewrite slices_concat; [reflexivity|unfold batch_size; lia|lia].
Qed.

Lemma in_batches (image_uris batch : list string) :
  In batch (batches image_uris) ->
  exists i, i < List.length image_uris
            /\ batch = firstn batch_size (skipn i image_uris).
Proof.
  unfold batches. rewrite in_map_iff. intros (i & <- & Hi).
  exists i. split; [|reflexivity]. exact (range_from_lt _ _ _ _ _ Hi).
Qed.

Lemma nodup_skipn {A} (n : nat) (l : list A) : NoDup l -> NoDup (skipn n l).
Proof.
  intros H. rewrite <- (firstn_skipn n l) in H.
  now apply NoDup_app_remove_l in H.
Qed.

Lemma batch_nodup (image_uris batch : list string) :
  NoDup image_uris -> In batch (batches image_uris) -> NoDup batch.
Proof.
  intros Hnd Hin. apply in_batches in Hin. destruct Hin as (i & _ & ->).
  apply UniqueFacts.nodup_firstn. now apply nodup_skipn.
Qed.

(** *** One image and one batch *)

Section Run.
Variable env : run_env.

(** The annotation of this image returns. *)
Definition analysed (u : string) : bool :=
  match annotate env u with
  | Py.Ok _ => true
  | Py.Raise _ => false
  end.

Definition result_of (u : string) : analysis :=
  fst (fst (analyze_image (annotate env) (clock env u) u)).

(** The results of a numbered batch, in the order of completion. *)
Definition results_of (numbered : nat * list string) : list analysis :=
  map result_of (Py.as_completed (picks env (fst numbered)) (snd numbered)).

Lemma result_uri (u : string) : a_uri (result_of u) = u.
Proof.
  unfold result_of, analyze_image. now destruct (annotate env u).
Qed.

Lemma result_success (u : string) : a_success (result_of u) = analysed u.
Proof.
  unfold result_of, analyze_image, analysed. now destruct (annotate env u).
Qed.

Lemma process_batch_results (i total : nat) (batch : list string) :
  fst (process_batch (annotate env) (clock env) (picks env i) batch i total)
  = results_of (i, batch).
Proof.
  unfold process_batch, results_of, result_of. cbn [fst snd].
  now rewrite map_map.
Qed.

Lemma results_uris (numbered : nat * list string) :
  Permutation (map a_uri (results_of numbered)) (snd numbered).
Proof.
  unfold results_of. rewrite map_map.
  rewrite (map_ext _ (fun u => u) result_uri), map_id.
  apply as_completed_perm.
Qed.

Lemma filter_length_perm {A} (p : A -> bool) (l l' : list A) :
  Permutation l l' ->
  List.length (filter p l) = List.length (filter p l').
Proof.
  induction 1 as [|x l l' _ IH|x y l|l l' l'' _ IH1 _ IH2]; cbn [filter].
  - reflexivity.
  - destruct (p x); cbn [List.length]; now rewrite IH.
  - destruct (p x), (p y); reflexivity.
  - now rewrite IH1.
Qed.

Lemma results_successes (numbered : nat * list string) :
  List.length (filter a_success (results_of numbered))
  = List.length (filter analysed (snd numbered)).
Proof.
  unfold results_of.
  rewrite <- (filter_length_perm analysed _ _
                (as_completed_perm (picks env (fst numbered)) (snd numbered))).
  induction (Py.as_completed _ _) as [|u l IH]; [reflexivity|].
  cbn [map filter]. rewrite result_success.
  destruct (analysed u); cbn [List.length]; now rewrite IH.
Qed.

Lemma results_length (numbered : nat * list string) :
  List.length (results_of numbered) = List.length (snd numbered).
Proof.
  rewrite <- (Permutation_length (results_uris numbered)).
  now rewrite length_map.
Qed.

(** *** The loop of [main] *)

(** The records of the corpus keep everything but their text. *)
Definition same_but_text (before after : record) : Prop :=
  uri after = uri before
  /\ modality after = modality before
  /\ source after = source before
  /\ embedding after = embedding before.

Lemma same_but_text_refl (t : table) : Forall2 same_but_text t t.
Proof. induction t; constructor; auto. repeat split. Qed.

Lemma same_but_text_map (f : record -> record) (t : table) :
  (forall r, same_but_text r (f r)) -> Forall2 same_but_text t (map f t).
Proof. intros H. induction t; constructor; auto. Qed.

Lemma same_but_text_trans (t1 t2 t3 : table) :
  Forall2 same_but_text t1 t2 -> Forall2 same_but_text t2 t3 ->
  Forall2 same_but_text t1 t3.
Proof.
  intros H12. revert t3. induction H12 as [|a b t1 t2 Hab _ IH]; intros t3 H23.
  - inversion H23. constructor.
  - inversion H23 as [|? c ? t3' Hbc Hrest]; subst. constructor; [|now apply IH].
    unfold same_but_text in *. intuition congruence.
Qed.

Lemma update_individual_writes_text (j : jobs) (u text : string) (st : state) :
  Forall2 same_but_text (corpus st) (corpus (update_individual j u text st)).
Proof.
  unfold update_individual. destruct (individual_job j u); cbn [corpus].
  - apply same_but_text_refl.
  - apply same_but_text_map. intros r.
    destruct (uri r =? u); repeat split.
Qed.

Lemma update_batch_writes_text (j : jobs) (results : list analysis) (st : state) :
  Forall2 same_but_text (corpus st)
          (corpus (update_batch_in_bigquery j results st)).
Proof.
  unfold update_batch_in_bigquery.
  destruct (successful_results results) as [|r0 rs]; [apply same_but_text_refl|].
  destruct (batch_job j _) as [updates|e].
  - cbn [corpus]. apply same_but_text_map. intros r.
    destruct (find _ updates); repeat split.
  - set (st0 := mk_state (corpus st) _).
    change (corpus st) with (corpus st0). generalize st0. clear st0.
    induction (r0 :: rs) as [|r l IH]; intros st0; [apply same_but_text_refl|].
    cbn [fold_left]. eapply same_but_text_trans; [|apply IH].
    apply update_individual_writes_text.
Qed.

Lemma update_batch_nothing (j : jobs) (results : list analysis) (st : state) :
  filter a_success results = [] ->
  update_batch_in_bigquery j results st = st.
Proof.
  intros Hnone. unfold update_batch_in_bigquery, successful_results.
  assert (H : filter (fun r => a_success r && Py.truthy (a_text_content r)) results
              = []).
  { induction results as [|r l IH]; [reflexivity|]. cbn [filter] in *.
    destruct (a_success r); [discriminate Hnone|]. now apply IH. }
  now rewrite H.
Qed.

Lemma main_step_spec (total : nat) (p : progress) (numbered : nat * list string) :
  let p' := main_step env total p numbered in
  all_results p' = List.app (all_results p) (results_of numbered)
  /\ successful_count p'
     = successful_count p + List.length (filter a_success (results_of numbered))
  /\ failed_count p'
     = failed_count p
       + (List.length (results_of numbered)
          - List.length (filter a_success (results_of numbered)))
  /\ Forall2 same_but_text (corpus (store p)) (corpus (store p'))
  /\ (filter a_success (results_of numbered) = [] ->
      corpus (store p') = corpus (store p)).
Proof.
  destruct numbered as [i batch]. cbv zeta. unfold main_step.
  pose proof (process_batch_results i total batch) as Hr.
  destruct (process_batch _ _ _ batch i total) as [batch_results lines].
  cbn [fst] in Hr. subst batch_results.
  cbn [all_results successful_count failed_count store].
  repeat split.
  - set (st0 := mk_state (corpus (store p)) _).
    change (corpus (store p)) with (corpus st0).
    apply update_batch_writes_text.
  - intros Hnone. now rewrite update_batch_nothing.
Qed.

Definition successes (numbered : list (nat * list string)) : nat :=
  list_sum (map (fun nb => List.length (filter analysed (snd nb))) numbered).

Lemma main_loop_spec (total : nat) (numbered : list (nat * list string)) :
  forall p,
    let p' := fold_left (main_step env total) numbered p in
    Permutation (map a_uri (all_results p'))
                (List.app (map a_uri (all_results p)) (List.concat (map snd numbered)))
    /\ successful_count p' = successful_count p + successes numbered
    /\ failed_count p'
       = failed_count p
         + (List.length (List.concat (map snd numbered)) - successes numbered)
    /\ Forall2 same_but_text (corpus (store p)) (corpus (store p'))
    /\ (successes numbered = 0 -> corpus (store p') = corpus (store p)).
Proof.
  induction numbered as [|nb numbered IH]; intros p; cbv zeta.
  - cbn. rewrite app_nil_r, !Nat.add_0_r.
    repeat split; auto. apply same_but_text_refl.
  - cbn [fold_left].
    destruct (main_step_spec total p nb) as (Ha & Hs & Hf & Hc & Hn).
    destruct (IH (main_step env total p nb)) as (Ha' & Hs' & Hf' & Hc' & Hn').
    pose proof (results_successes nb) as Hcount.
    pose proof (results_length nb) as Hlen.
    assert (Hle : List.length (filter analysed (snd nb)) <= List.length (snd nb))
      by apply filter_length_le.
    assert (Hles : successes numbered <= List.length (List.concat (map snd numbered))).
    { clear. unfold successes.
      induction numbered as [|nb l IHl]; cbn [map List.concat list_sum fold_right];
        [lia|].
      rewrite length_app. pose proof (filter_length_le analysed (snd nb)).
      unfold list_sum in IHl. lia. }
    assert (Hsucc : successes (nb :: numbered)
                    = List.length (filter analysed (snd nb)) + successes numbered)
      by reflexivity.
    split; [|split; [|split; [|split]]].
    + rewrite Ha'. rewrite Ha, map_app. cbn [map List.concat].
      rewrite <- !List.app_assoc. apply Permutation_app_head.
      apply Permutation_app_tail. apply results_uris.
    + rewrite Hs', Hs, Hcount, Hsucc. lia.
    + rewrite Hf', Hf, Hcount, Hlen, Hsucc. cbn [map List.concat].
      rewrite length_app. lia.
    + eapply same_but_text_trans; [exact Hc|exact Hc'].
    + intros Hz. rewrite Hsucc in Hz.
      rewrite Hn' by lia. apply Hn.
      destruct (filter a_success (results_of nb)) as [|r l] eqn:Hfl;
        [reflexivity|]. cbn [List.length] in Hcount. lia.
Qed.

Lemma numbered_batches (start : nat) (bs : list (list string)) :
  map snd (combine (seq start (List.length bs)) bs) = bs.
Proof.
  revert start. induction bs as [|b bs IH]; intros start; [reflexivity|].
  cbn [List.length seq combine map snd]. now rewrite IH.
Qed.

Lemma successes_numbered (start : nat) (bs : list (list string)) :
  successes (combine (seq start (List.length bs)) bs)
  = List.length (filter analysed (List.concat bs)).
Proof.
  unfold successes. revert start.
  induction bs as [|b bs IH]; intros start; [reflexivity|].
  cbn [List.length seq combine map snd List.concat list_sum fold_right].
  rewrite filter_app, length_app. unfold list_sum in IH. now rewrite IH.
Qed.

End Run.

Lemma obsolete_marker_in_text (uri : string) (a : responses) (now : string) :
  Py.contains CompleteVisionAnalysis.vision_marker
              (Py.join Py.nl (description_parts uri a now)) = true.
Proof.
  apply (ResumeFacts.contains_join _ _ analysis_line).
  - unfold description_parts. do 9 (apply in_or_app; right). now left.
  - vm_compute. reflexivity.
Qed.

Lemma main_unfold (env : run_env) (corpus0 : table) :
  exists p0,
    corpus (store p0) = corpus0 /\ all_results p0 = []
    /\ successful_count p0 = 0 /\ failed_count p0 = 0
    /\ main env corpus0
       = fold_left (main_step env (List.length (batches (get_image_uris corpus0))))
                   (combine (seq 1 (List.length (batches (get_image_uris corpus0))))
                            (batches (get_image_uris corpus0)))
                   p0.
Proof. eexists. repeat split; reflexivity. Qed.

Lemma get_image_uris_nodup (corpus0 : table) : NoDup (get_image_uris corpus0).
Proof.
  apply StringOrder.strongly_sorted_nodup, OrderFacts.sorted_sorted_distinct.
Qed.

Lemma main_counts (env : run_env) (corpus0 : table) :
  successful_count (main env corpus0)
  = List.length (filter (analysed env) (get_image_uris corpus0))
  /\ successful_count (main env corpus0) + failed_count (main env corpus0)
     = List.length (get_image_uris corpus0).
Proof.
  destruct (main_unfold env corpus0) as (p0 & _ & Ha & Hs & Hf & ->).
  set (uris := get_image_uris corpus0).
  destruct (main_loop_spec env (List.length (batches uris))
              (combine (seq 1 (List.length (batches uris))) (batches uris)) p0)
    as (_ & Hsucc & Hfail & _).
  rewrite numbered_batches, batches_concat in Hfail.
  rewrite successes_numbered, batches_concat in Hsucc, Hfail.
  rewrite Hs in Hsucc. rewrite Hf in Hfail.
  pose proof (filter_length_le (analysed env) uris) as Hle.
  split; [exact Hsucc|]. rewrite Hsucc, Hfail. lia.
Qed.

(** A corpus with two images and a text, and a Vision API that is
    down. *)
Definition gallery : table :=
  [mk_record "gs://gcm-data-lake/multimodal-dataset/images/b.jpg" "image"
             None (Some "Image: b.jpg") None;
   mk_record "gs://gcm-data-lake/multimodal-dataset/text/notes.txt" "text"
             (Some "file") (Some "notes") None;
   mk_record "gs://gcm-data-lake/multimodal-dataset/images/a.jpg" "image"
             None None None].

Definition outage : run_env :=
  mk_run_env (fun _ => Py.Raise "503 Service Unavailable")
             (fun _ => "2025-01-01 00:00:00 UTC")
             (fun _ => [1])
             (mk_jobs (fun _ => Py.Raise "not reached") (fun _ => None)).

(** X20: a text that either Vision script writes for an analysed image
    holds the marker that [complete_vision_analysis.py] looks for, so a
    record that holds such a text is not selected for analysis again. *)
Theorem analysed_image_is_not_selected_again
        (r : record) (uri now : string) :
  (forall a, CompleteVisionAnalysis.not_analyzed
               (set_text_content
                  (Some (Py.join Py.nl
                           (CompleteVisionAnalysis.description_parts uri a now))) r)
             = false)
  /\ (forall a, CompleteVisionAnalysis.not_analyzed
                  (set_text_content
                     (Some (Py.join Py.nl (description_parts uri a now))) r)
                = false).
Proof.
  unfold CompleteVisionAnalysis.not_analyzed, set_text_content.
  cbn [modality text_content].
  split; intros a.
  - rewrite ResumeFacts.marker_in_text. apply andb_false_r.
  - rewrite obsolete_marker_in_text. apply andb_false_r.
Qed.

(** X21: the slices that [main] cuts from the image uris, one after the
    other, give the image uris back, and every slice holds at least one
    and at most ten uris: no image is left out and none is in two
    batches. *)
Theorem batches_partition_the_uris (image_uris : list string) :
  List.concat (batches image_uris) = image_uris
  /\ Forall (fun batch => 1 <= List.length batch <= batch_size)
            (batches image_uris).
Proof.
  split; [apply batches_concat|].
  apply Forall_forall. intros batch Hin.
  apply in_batches in Hin. destruct Hin as (i & Hi & ->).
  rewrite length_firstn, length_skipn. unfold batch_size. lia.
Qed.

(** X22: one run of [main] analyses every image uri of the corpus
    exactly once, whatever the order in which the workers finish; it
    counts as successful the uris whose annotation returned, and, the
    uris being distinct, its two counts add up to their number. *)
Theorem main_analyses_every_image_once (env : run_env) (corpus0 : table) :
  let p := main env corpus0 in
  Permutation (map a_uri (all_results p)) (get_image_uris corpus0)
  /\ NoDup (get_image_uris corpus0)
  /\ successful_count p
     = List.length (filter (analysed env) (get_image_uris corpus0))
  /\ successful_count p + failed_count p = List.length (get_image_uris corpus0).
Proof.
  cbv zeta. destruct (main_unfold env corpus0) as (p0 & _ & Ha & Hs & Hf & ->).
  set (uris := get_image_uris corpus0).
  destruct (main_loop_spec env (List.length (batches uris))
              (combine (seq 1 (List.length (batches uris))) (batches uris)) p0)
    as (Hperm & Hsucc & Hfail & _).
  rewrite numbered_batches, batches_concat in Hperm, Hfail.
  rewrite successes_numbered, batches_concat in Hsucc, Hfail.
  rewrite Ha in Hperm. rewrite Hs in Hsucc. rewrite Hf in Hfail.
  pose proof (filter_length_le (analysed env) uris) as Hle.
  split; [exact Hperm|]. split; [apply get_image_uris_nodup|].
  split; [exact Hsucc|]. rewrite Hsucc, Hfail. lia.
Qed.

(** X23: [main] writes nothing but texts: after a run the corpus holds
    the same records in the same order, each with the uri, modality,
    source and embedding it had, whether the combined UPDATE, the
    fallback or nothing at all was run for a batch. *)
Theorem main_writes_only_text (env : run_env) (corpus0 : table) :
  Forall2 same_but_text corpus0 (corpus (store (main env corpus0))).
Proof.
  destruct (main_unfold env corpus0) as (p0 & Hc & _ & _ & _ & ->).
  rewrite <- Hc at 1. apply main_loop_spec.
Qed.

(** X24: when the annotation of every image raises, a run of [main]
    issues no UPDATE: the corpus is as before, no image is counted as
    successful and every image is counted as failed. *)
Theorem vision_outage_changes_nothing (env : run_env) (corpus0 : table) :
  (forall u, In u (get_image_uris corpus0) -> analysed env u = false) ->
  corpus (store (main env corpus0)) = corpus0
  /\ successful_count (main env corpus0) = 0
  /\ failed_count (main env corpus0) = List.length (get_image_uris corpus0).
Proof.
  intros Hdown.
  destruct (main_counts env corpus0) as (Hsucc & Hsum).
  assert (Hzero : List.length (filter (analysed env) (get_image_uris corpus0)) = 0).
  { clear - Hdown. revert Hdown. generalize (get_image_uris corpus0) as l.
    induction l as [|u l IH]; intros Hdown; [reflexivity|].
    cbn [filter]. rewrite (Hdown u (or_introl eq_refl)).
    apply IH. intros u0 H0. apply Hdown. now right. }
  destruct (main_unfold env corpus0) as (p0 & Hc & _ & Hs & Hf & Hmain).
  rewrite Hmain in *.
  set (uris := get_image_uris corpus0) in *.
  destruct (main_loop_spec env (List.length (batches uris))
              (combine (seq 1 (List.length (batches uris))) (batches uris)) p0)
    as (_ & _ & _ & _ & Hsame).
  rewrite successes_numbered, batches_concat in Hsame.
  split; [rewrite Hsame by exact Hzero; exact Hc|].
  rewrite Hzero in Hsucc. split; [exact Hsucc|]. lia.
Qed.

Lemma vision_outage_changes_nothing_witness :
  corpus (store (main outage gallery)) = gallery
  /\ successful_count (main outage gallery) = 0
  /\ failed_count (main outage gallery) = List.length (get_image_uris gallery).
Proof.
  apply (vision_outage_changes_nothing outage gallery).
  intros u _. reflexivity.
Defined.

(** X25: in every batch that [main] hands to the writers the uris of the
    successful results are distinct, whatever the order of completion:
    the single-uri updates of the fallback never write the same record
    twice. *)
Theorem batches_have_distinct_results (env : run_env) (corpus0 : table) :
  Forall (fun batch =>
            forall i total,
              NoDup (map a_uri
                       (successful_results
                          (fst (process_batch (annotate env) (clock env)
                                              (picks env i) batch i total)))))
         (batches (get_image_uris corpus0)).
Proof.
  apply Forall_forall. intros batch Hin i total.
  rewrite process_batch_results. unfold successful_results.
  apply UniqueFacts.distinct_after_where.
  apply (Permutation_NoDup (l := batch)).
  - symmetry. exact (results_uris env (i, batch)).
  - exact (batch_nodup _ _ (get_image_uris_nodup corpus0) Hin).
Qed.

End BatchFacts.
